(** * Recommendation and demand-forecast services: a shallow embedding

    The development follows the two service modules of the backend and
    the routes in front of them:

    - [recommendation_service.py]: price parsing, the metadata catalog,
      enrichment, and the collaborative, content and hybrid recommenders;
      further on, the catalog listing and search, the loading of the
      artefacts and the metadata index;
    - [demand_service.py]: the per-product trend label and the iterative
      forecaster; further on, the weekly totals and the loading of the
      regressor;
    - [routers/recommendations.py] and [routers/demand.py]: the route
      functions, up to the payload they hand to their response model (the
      product route through it, with pydantic's validation a parameter).

    Conventions of the embedding.

    - A Python value read from the JSON catalog is a [pyval].  Python [int]
      is [Z]; a finite Python [float] is an exact rational [Q].  Binary
      rounding is represented where it decides a branch on counts (the
      trend label, through [b64]) and left out elsewhere; comparisons,
      branching, sorting and decimal rounding are represented.
    - A Python exception that leaves a function is the [Raise] outcome of
      the [result] monad; a function that returns [None] returns Coq's
      [None] inside [Ok].
    - Library calls whose code is not part of the repository (scikit-learn's
      [cosine_similarity], numpy's [argsort], the fitted nearest-neighbour
      index, the fitted regressor, the square root inside [numpy.std], the
      text-to-float conversion of the builtin [float]) are parameters:
      fields of the service records or members of the class [Libs]. *)

From Stdlib Require Import ZArith QArith Qround Qabs Qpower Lqa Lia Bool List.
From Stdlib Require Import Ascii String DecimalString Sorting.Sorted Permutation.
From stdpp Require Import gmap strings.

Import ListNotations.
Set Warnings "-register-all".
Local Open Scope string_scope.
Local Open Scope list_scope.
Local Open Scope Q_scope.

(** ** Outcomes of a call *)

Inductive exn : Type :=
  | OverflowError
  | ValueError
  | IndexError
  | AttributeError.

Inductive result (A : Type) : Type :=
  | Ok (a : A)
  | Raise (e : exn).

Arguments Ok {A} a.
Arguments Raise {A} e.

Definition rbind {A B : Type} (m : result A) (k : A -> result B) : result B :=
  match m with
  | Ok a => k a
  | Raise e => Raise e
  end.

#[export] Instance result_bind : MBind result := fun A B k m => rbind m k.
#[export] Instance result_ret : MRet result := fun A a => Ok a.

(** ** Python values *)

Inductive pyfloat : Type :=
  | Fin (q : Q)
  | PosInf
  | NegInf
  | NaN.

Inductive pyval : Type :=
  | PNone
  | PBool (b : bool)
  | PInt (z : Z)
  | PFloat (f : pyfloat)
  | PStr (s : string)
  | PList (l : list pyval)
  | PDict (d : list (string * pyval)).

Definition Qeqb0 (q : Q) : bool := Z.eqb (Qnum q) 0%Z.

(** [bool(v)] *)
Definition truthy (v : pyval) : bool :=
  match v with
  | PNone => false
  | PBool b => b
  | PInt z => negb (Z.eqb z 0%Z)
  | PFloat (Fin q) => negb (Qeqb0 q)
  | PFloat _ => true
  | PStr s => negb (String.eqb s "")
  | PList l => match l with [] => false | _ => true end
  | PDict d => match d with [] => false | _ => true end
  end.

(** [a or b] *)
Definition py_or (a b : pyval) : pyval := if truthy a then a else b.

(** [d.get(k, dflt)] on a dict kept as an association list *)
Fixpoint dict_get (d : list (string * pyval)) (k : string) (dflt : pyval) : pyval :=
  match d with
  | [] => dflt
  | (k', v) :: d' => if String.eqb k' k then v else dict_get d' k dflt
  end.

(** ** Numbers *)

(** [max(a, b)] of Python: [b] only when it is strictly greater. *)
Definition py_max (a b : Q) : Q := if Qlt_le_dec a b then b else a.

(** Nearest integer, ties to the even neighbour. *)
Definition round_half_even (q : Q) : Z :=
  let f := Qfloor q in
  match Qcompare (q - inject_Z f) (1 # 2) with
  | Lt => f
  | Gt => (f + 1)%Z
  | Eq => if Z.even f then f else (f + 1)%Z
  end.

(** [round(q, ndigits)] *)
Definition py_round (ndigits : nat) (q : Q) : Q :=
  let scale := inject_Z (10 ^ Z.of_nat ndigits) in
  inject_Z (round_half_even (q * scale)) / scale.

(** ** Double precision

    A finite Python float is kept as the rational it holds.  Where the
    rounding of an operation decides a branch, the operation is followed
    by [b64], the rounding of a rational to the nearest binary64 value:
    the value is scaled to an integer of 53 binary digits, rounded with
    ties to even, and scaled back.  Only the normal range is covered (no
    overflow, no subnormal numbers). *)

(** the exponent [e] with 2^52 <= |q| / 2^e < 2^53 *)
Definition b64_exponent (q : Q) : Z :=
  let e := (Z.log2 (Z.abs (Qnum q)) - Z.log2 (Zpos (Qden q)) - 52)%Z in
  if Qlt_le_dec (Qabs q) (inject_Z (2 ^ 52) * 2 ^ e) then (e - 1)%Z else e.

Definition b64 (q : Q) : Q :=
  if Qeqb0 q then 0
  else let ulp := 2 ^ b64_exponent q in
       inject_Z (round_half_even (q / ulp)) * ulp.

(** half an ulp, relative: 2^-53 *)
Definition b64_eps : Q := 1 # 9007199254740992.

(** [float(z)] for an int: the conversion overflows at the first integer
    that rounds to 2^1024. *)
Definition float_overflow_bound : Z := (2 ^ 1024 - 2 ^ 970)%Z.

Definition float_of_int (z : Z) : result pyfloat :=
  if (Z.abs z <? float_overflow_bound)%Z then Ok (Fin (inject_Z z))
  else Raise OverflowError.

(** ** Strings *)

Definition is_space (c : ascii) : bool :=
  let n := nat_of_ascii c in
  ((9 <=? n) && (n <=? 13) || (28 <=? n) && (n <=? 32) || (n =? 133) || (n =? 160))%nat.

(** [s.replace(c, '')] for a one-character [c] *)
Fixpoint remove_char (c : ascii) (s : string) : string :=
  match s with
  | EmptyString => EmptyString
  | String a s' => if Ascii.eqb a c then remove_char c s' else String a (remove_char c s')
  end.

Fixpoint lstrip (s : string) : string :=
  match s with
  | EmptyString => EmptyString
  | String a s' => if is_space a then lstrip s' else s
  end.

Fixpoint rstrip (s : string) : string :=
  match s with
  | EmptyString => EmptyString
  | String a s' =>
      match rstrip s' with
      | EmptyString => if is_space a then EmptyString else String a EmptyString
      | t => String a t
      end
  end.

(** [s.strip()] *)
Definition strip (s : string) : string := rstrip (lstrip s).

(** ** External library routines *)

Class Libs : Type := {
  (** [float(s)] on text: [None] stands for the [ValueError] it raises *)
  float_of_str : string -> option pyfloat;
  (** the square root used by [numpy.std] *)
  np_sqrt : Q -> Q;
  (** one entry of [sklearn.metrics.pairwise.cosine_similarity] *)
  cosine : list Q -> list Q -> Q;
  (** [a.argsort()] of numpy: the positions of [a] by increasing value; its
      default sort does not promise an order among equal values *)
  argsort : list Q -> list nat
}.

(** * recommendation_service.py *)

Module Price.
Section WithLibs.
Context `{Libs}.

Definition clean_price (s : string) : string :=
  strip (remove_char "," (remove_char "$" s)).

Definition _parse_price (price_value : pyval) : result (option pyfloat) :=
  match price_value with
  | PNone => Ok None
  | PBool b => f ← float_of_int (if b then 1 else 0)%Z; Ok (Some f)
  | PInt z => f ← float_of_int z; Ok (Some f)
  | PFloat f => Ok (Some f)
  | PStr s =>
      let cleaned := clean_price s in
      if String.eqb cleaned "" then Ok None
      else match float_of_str cleaned with
           | Some f => Ok (Some f)
           | None => Ok None
           end
  | PList _ | PDict _ => Ok None
  end.

End WithLibs.
End Price.

(** ** Stable sorting on a rational key

    [sorted(..., reverse=True)] keeps equal keys in their input order. *)

Section StableSort.
Context {A : Type} (key : A -> Q).

Fixpoint insert_asc (x : A) (l : list A) : list A :=
  match l with
  | [] => [x]
  | y :: l' => if Qle_bool (key x) (key y) then x :: l else y :: insert_asc x l'
  end.

Definition stable_sort_asc (l : list A) : list A := fold_right insert_asc [] l.

Fixpoint insert_desc (x : A) (l : list A) : list A :=
  match l with
  | [] => [x]
  | y :: l' => if Qle_bool (key y) (key x) then x :: l else y :: insert_desc x l'
  end.

Definition stable_sort_desc (l : list A) : list A := fold_right insert_desc [] l.

End StableSort.

(** [str(i)] for a non-negative index *)
Definition str_of_nat (i : nat) : string := NilZero.string_of_uint (Nat.to_uint i).

Module Recommender.

Inductive Method : Type := collaborative | content | hybrid.

(** which of the two keys, ["similarity"] or ["score"], a returned dict has *)
Inductive ScoreKey : Type := similarity_key | score_key.

(** a candidate before enrichment *)
Record Candidate : Type := {
  c_asin : string;
  c_similarity : Q;
  c_method : Method
}.

(** the dict built by [get_product_details] (the free-text description,
    which no decision reads, is not carried) *)
Record Details : Type := {
  d_asin : string;
  d_title : pyval;
  d_image_url : pyval;
  d_price : option pyfloat;
  d_rating : pyval;
  d_rating_count : pyval;
  d_store : pyval;
  d_categories : list pyval
}.

(** a returned recommendation *)
Record Item : Type := {
  asin : string;
  key : ScoreKey;
  value : Q;
  method : Method;
  title : pyval;
  image_url : pyval;
  price : option pyfloat;
  rating : pyval;
  rating_count : pyval;
  store : pyval;
  categories : list pyval
}.

Record Mappings : Type := {
  product_to_idx : gmap string nat;
  idx_to_product : gmap string string;
  cb_product_to_idx : gmap string nat;
  cb_idx_to_product : gmap string string
}.

Definition Row : Type := list Q.

(** [knn_model.kneighbors(row, n_neighbors)]: pairs of distance and row
    index, or the exception the index raises *)
Definition KNN : Type := Row -> nat -> result (list (Q * nat)).

Record RecommendationService : Type := {
  knn_model : option KNN;
  item_user_matrix : option (list Row);
  tfidf_matrix : option (list Row);
  mappings : option Mappings;
  product_metadata : gmap string (list (string * pyval))
}.

Section WithLibs.
Context `{Libs}.

(** the step shared by the [imageURLHighRes] and [imageURL] fields *)
Definition first_if_str (field : pyval) (image_url : pyval) : pyval :=
  match field with
  | PList (x :: _) => match x with PStr _ => x | _ => PNone end
  | _ => image_url
  end.

Definition resolve_image (data : list (string * pyval)) : pyval :=
  let image_url := PNone in
  let image_url := first_if_str (dict_get data "imageURLHighRes" (PList [])) image_url in
  let image_url :=
    if truthy image_url then image_url
    else first_if_str (dict_get data "imageURL" (PList [])) image_url in
  if truthy image_url then image_url
  else match dict_get data "images" (PList []) with
       | PList (first_image :: _) =>
           match first_image with
           | PDict d =>
               py_or (dict_get d "hi_res" PNone)
                     (py_or (dict_get d "large" PNone) (dict_get d "thumb" PNone))
           | PStr _ => first_image
           | _ => image_url
           end
       | _ => image_url
       end.

Definition resolve_categories (data : list (string * pyval)) : list pyval :=
  match dict_get data "categories" (PList []) with
  | PList l => firstn 3 l
  | _ => []
  end.

Definition minimal_details (a : string) : Details :=
  {| d_asin := a; d_title := PStr ("Product " ++ a); d_image_url := PNone;
     d_price := None; d_rating := PNone; d_rating_count := PNone;
     d_store := PNone; d_categories := [] |}.

Definition get_product_details (svc : RecommendationService) (a : string)
  : result Details :=
  match product_metadata svc !! a with
  | None | Some [] => Ok (minimal_details a)
  | Some data =>
      p ← Price._parse_price (dict_get data "price" PNone);
      Ok {| d_asin := a;
            d_title := dict_get data "title" (PStr ("Product " ++ a));
            d_image_url := resolve_image data;
            d_price := p;
            d_rating := dict_get data "average_rating" PNone;
            d_rating_count := dict_get data "rating_number" PNone;
            d_store := dict_get data "store" PNone;
            d_categories := resolve_categories data |}
  end.

Definition enriched (rec : Candidate) (details : Details) : Item :=
  {| asin := c_asin rec; key := similarity_key; value := c_similarity rec;
     method := c_method rec;
     title := d_title details; image_url := d_image_url details;
     price := d_price details; rating := d_rating details;
     rating_count := d_rating_count details; store := d_store details;
     categories := d_categories details |}.

Fixpoint _enrich_recommendations (svc : RecommendationService)
    (recommendations : list Candidate) : result (list Item) :=
  match recommendations with
  | [] => Ok []
  | rec :: rest =>
      details ← get_product_details svc (c_asin rec);
      tail ← _enrich_recommendations svc rest;
      if truthy (d_image_url details) then Ok (enriched rec details :: tail)
      else Ok tail
  end.

Definition is_ready (svc : RecommendationService) : bool :=
  match knn_model svc, item_user_matrix svc, mappings svc with
  | Some _, Some _, Some _ => true
  | _, _, _ => false
  end.

Definition matrix_row (m : list Row) (idx : nat) : result Row :=
  match nth_error m idx with
  | Some r => Ok r
  | None => Raise IndexError
  end.

Definition get_collaborative_recommendations (svc : RecommendationService)
    (product_asin : string) (n_recommendations : nat) : result (list Item) :=
  match knn_model svc, item_user_matrix svc, mappings svc with
  | Some knn, Some m, Some maps =>
      match product_to_idx maps !! product_asin with
      | None => Ok []
      | Some product_idx =>
          row ← matrix_row m product_idx;
          neighbours ← knn row (n_recommendations + 1)%nat;
          _enrich_recommendations svc
            (map (fun '(d, idx) =>
                    {| c_asin := default "" (idx_to_product maps !! str_of_nat idx);
                       c_similarity := py_round 3 (1 - d);
                       c_method := collaborative |})
                 (skipn 1 neighbours))
      end
  | _, _, _ => Ok []
  end.

Definition get_content_recommendations (svc : RecommendationService)
    (product_asin : string) (n_recommendations : nat) : result (list Item) :=
  match tfidf_matrix svc, mappings svc with
  | Some m, Some maps =>
      match cb_product_to_idx maps !! product_asin with
      | None => Ok []
      | Some idx =>
          row ← matrix_row m idx;
          let similarities := map (cosine row) m in
          let similar_indices :=
            firstn n_recommendations (skipn 1 (rev (argsort similarities))) in
          _enrich_recommendations svc
            (map (fun i =>
                    {| c_asin := default "" (cb_idx_to_product maps !! str_of_nat i);
                       c_similarity := py_round 3 (nth i similarities 0);
                       c_method := content |})
                 similar_indices)
      end
  | _, _ => Ok []
  end.

(** [(rec.get("similarity", 0) or 0)] *)
Definition item_similarity (rec : Item) : Q :=
  match key rec with
  | similarity_key => value rec
  | score_key => 0
  end.

(** The [scores] dict keeps insertion order; assigning to a key that is
    already there leaves its position alone. *)
Fixpoint scores_get (scores : list (string * Q)) (a : string) : option Q :=
  match scores with
  | [] => None
  | (a', s) :: rest => if String.eqb a' a then Some s else scores_get rest a
  end.

Fixpoint scores_set (scores : list (string * Q)) (a : string) (s : Q)
  : list (string * Q) :=
  match scores with
  | [] => [(a, s)]
  | (a', s') :: rest =>
      if String.eqb a' a then (a', s) :: rest
      else (a', s') :: scores_set rest a s
  end.

Definition FusionState : Type := (list (string * Q) * gmap string Item)%type.

Definition add_cf (cf_weight : Q) (st : FusionState) (rec : Item) : FusionState :=
  let '(scores, product_data) := st in
  (scores_set scores (asin rec) (item_similarity rec * cf_weight),
   <[asin rec := rec]> product_data).

Definition add_cb (cb_weight : Q) (st : FusionState) (rec : Item) : FusionState :=
  let '(scores, product_data) := st in
  match scores_get scores (asin rec) with
  | Some s =>
      (scores_set scores (asin rec) (s + item_similarity rec * cb_weight),
       product_data)
  | None =>
      (scores_set scores (asin rec) (item_similarity rec * cb_weight),
       <[asin rec := rec]> product_data)
  end.

(** the two loops that fill [scores] and [product_data] *)
Definition fuse (cf_recs cb_recs : list Item) (cf_weight : Q) : FusionState :=
  let cb_weight := 1 - cf_weight in
  fold_left (add_cb cb_weight) cb_recs
    (fold_left (add_cf cf_weight) cf_recs ([], ∅)).

Definition hybrid_scores (cf_recs cb_recs : list Item) (cf_weight : Q)
  : list (string * Q) := fst (fuse cf_recs cb_recs cf_weight).

Definition price_as_py (p : option pyfloat) : pyval :=
  match p with
  | None => PNone
  | Some f => PFloat f
  end.

Fixpoint hybrid_results (product_data : gmap string Item)
    (sorted_recs : list (string * Q)) : result (list Item) :=
  match sorted_recs with
  | [] => Ok []
  | (a, score) :: rest =>
      match product_data !! a with
      | None => hybrid_results product_data rest
      | Some data =>
          if truthy (image_url data) then
            p ← Price._parse_price (price_as_py (price data));
            tail ← hybrid_results product_data rest;
            Ok ({| asin := a; key := score_key; value := py_round 3 score;
                   method := hybrid;
                   title := title data; image_url := image_url data;
                   price := p; rating := rating data;
                   rating_count := rating_count data; store := store data;
                   categories := categories data |} :: tail)
          else hybrid_results product_data rest
      end
  end.

Definition get_hybrid_recommendations (svc : RecommendationService)
    (product_asin : string) (n_recommendations : nat) (cf_weight : Q)
  : result (list Item) :=
  cf_recs ← get_collaborative_recommendations svc product_asin (n_recommendations * 2);
  cb_recs ← get_content_recommendations svc product_asin (n_recommendations * 2);
  match cf_recs, cb_recs with
  | [], [] => Ok []
  | [], _ => Ok (firstn n_recommendations cb_recs)
  | _, [] => Ok (firstn n_recommendations cf_recs)
  | _, _ =>
      let '(scores, product_data) := fuse cf_recs cb_recs cf_weight in
      let sorted_recs := stable_sort_desc snd scores in
      hybrid_results product_data (firstn n_recommendations sorted_recs)
  end.

End WithLibs.
End Recommender.

(** * demand_service.py *)

(** ** List idioms of Python and numpy *)

(** [l[-n:]] *)
Definition last_n {A : Type} (n : nat) (l : list A) : list A :=
  skipn (length l - n) l.

(** [l[-a:-b]] *)
Definition slice_neg {A : Type} (a b : nat) (l : list A) : list A :=
  firstn ((length l - b) - (length l - a)) (skipn (length l - a) l).

(** [l[-k]]; every use is guarded by a length test *)
Definition from_end (k : nat) (l : list Q) : Q := nth (length l - k) l 0.

Definition Qsum (l : list Q) : Q := fold_right Qplus 0 l.

(** [numpy.mean] *)
Definition np_mean (l : list Q) : Q := Qsum l / inject_Z (Z.of_nat (length l)).

(** [numpy.std]: the population standard deviation *)
Definition np_std `{Libs} (l : list Q) : Q :=
  let m := np_mean l in
  np_sqrt (np_mean (map (fun x => (x - m) * (x - m)) l)).

Module Demand.

Record WeeklyDemandRecord : Type := {
  parent_asin : string;
  year_week : string;
  demand : N;
  avg_rating : option Q
}.

Inductive Trend : Type := increasing | decreasing | stable | insufficient_data.

Record SeriesPoint : Type := {
  sp_week : string;
  sp_demand : Q;
  sp_rating : option Q
}.

(** the dict [get_product_demand] returns, without its title and its
    integer totals *)
Record ProductDemand : Type := {
  pd_asin : string;
  pd_avg_demand : Q;
  pd_trend : Trend;
  pd_time_series : list SeriesPoint
}.

Record ForecastPoint : Type := {
  week : string;
  fp_demand : Q;
  is_forecast : bool
}.

Record Features : Type := {
  lag_1 : Q;
  lag_2 : Q;
  lag_4 : Q;
  rolling_mean_4 : Q;
  rolling_std_4 : Q
}.

(** [forecast_model.predict] on the selected columns; [None] is any
    exception it raises *)
Definition Model : Type := list Q -> option Q.

(** the JSON sidecar, with its ["features"] key possibly absent *)
Record ModelInfo : Type := {
  info_features : option (list string)
}.

Record DemandService : Type := {
  weekly_demand : option (list WeeklyDemandRecord);
  forecast_model : option Model;
  model_info : option ModelInfo
}.

(** the dict [generate_forecast] returns, without the title and the two
    entries copied from the sidecar *)
Record Forecast : Type := {
  f_asin : string;
  forecast_weeks : nat;
  historical : list ForecastPoint;
  forecast : list ForecastPoint;
  combined : list ForecastPoint
}.

Fixpoint insert_week (r : WeeklyDemandRecord) (l : list WeeklyDemandRecord)
  : list WeeklyDemandRecord :=
  match l with
  | [] => [r]
  | r' :: l' =>
      if String.leb (year_week r) (year_week r') then r :: l
      else r' :: insert_week r l'
  end.

(** [.sort('year_week')] *)
Definition sort_by_week (l : list WeeklyDemandRecord) : list WeeklyDemandRecord :=
  fold_right insert_week [] l.

(** [weekly_demand.filter(parent_asin == asin).sort('year_week')] *)
Definition product_rows (wd : list WeeklyDemandRecord) (a : string)
  : list WeeklyDemandRecord :=
  sort_by_week (List.filter (fun r => String.eqb (parent_asin r) a) wd).

Definition float_of_count (d : N) : Q := inject_Z (Z.of_N d).

(** [np.mean] of doubles that hold event counts: the sum of the counts
    is exact in every order of summation as long as it stays below 2^53,
    and the division by the length is rounded once *)
Definition f64_mean (l : list Q) : Q := b64 (np_mean l).

(** the product of two doubles *)
Definition f64_mul (a b : Q) : Q := b64 (a * b).

(** the trend label computed inside [get_product_demand]; the literals
    [1.1] and [0.9] are the doubles nearest to them *)
Definition classify_trend (demands : list Q) : Trend :=
  let mid := (length demands / 2)%nat in
  if (0 <? mid)%nat then
    let first_half_avg := f64_mean (firstn mid demands) in
    let second_half_avg := f64_mean (skipn mid demands) in
    if Qlt_le_dec (f64_mul first_half_avg (b64 1.1)) second_half_avg then increasing
    else if Qlt_le_dec second_half_avg (f64_mul first_half_avg (b64 0.9))
    then decreasing
    else stable
  else insufficient_data.

Definition series_point (r : WeeklyDemandRecord) : SeriesPoint :=
  {| sp_week := year_week r;
     sp_demand := py_round 2 (float_of_count (demand r));
     sp_rating := match avg_rating r with
                  | Some q => if Qeqb0 q then None else Some (py_round 2 q)
                  | None => None
                  end |}.

Definition get_product_demand (svc : DemandService) (a : string)
  : option ProductDemand :=
  match weekly_demand svc with
  | None => None
  | Some wd =>
      let product_data := product_rows wd a in
      match product_data with
      | [] => None
      | _ =>
          let time_series := map series_point product_data in
          let demands := map sp_demand time_series in
          Some {| pd_asin := a;
                  pd_avg_demand := py_round 2 (np_mean demands);
                  pd_trend := classify_trend demands;
                  pd_time_series := time_series |}
      end
  end.

Section WithLibs.
Context `{Libs}.

Definition default_feature_cols : list string :=
  ["lag_1"; "lag_2"; "lag_4"; "rolling_mean_4"; "rolling_std_4"].

Definition column (f : Features) (name : string) : option Q :=
  if String.eqb name "lag_1" then Some (lag_1 f)
  else if String.eqb name "lag_2" then Some (lag_2 f)
  else if String.eqb name "lag_4" then Some (lag_4 f)
  else if String.eqb name "rolling_mean_4" then Some (rolling_mean_4 f)
  else if String.eqb name "rolling_std_4" then Some (rolling_std_4 f)
  else None.

(** [features[feature_cols]]: an unknown column raises *)
Fixpoint select_columns (f : Features) (cols : list string) : option (list Q) :=
  match cols with
  | [] => Some []
  | c :: cols' =>
      match column f c, select_columns f cols' with
      | Some v, Some vs => Some (v :: vs)
      | _, _ => None
      end
  end.

Record HistoryStats : Type := {
  historical_std : Q;
  historical_mean : Q;
  trend : Q
}.

Definition history_stats (hist : list Q) : HistoryStats :=
  if (8 <=? length hist)%nat then
    let recent_values := last_n 8 hist in
    {| historical_std := np_std recent_values;
       historical_mean := np_mean recent_values;
       trend := np_mean (last_n 4 hist) - np_mean (slice_neg 8 4 hist) |}
  else
    {| historical_std := 0.2;
       historical_mean := match hist with [] => 1 | _ => np_mean hist end;
       trend := 0 |}.

Definition sign_of_parity (i : nat) : Q := if Nat.even i then 1 else -1.

Definition Qnat (n : nat) : Q := inject_Z (Z.of_nat n).

(** the value the model branch would be replaced by ([rolling_mean_4 +
    variation + trend_component], floored) *)
Definition corrected (stats : HistoryStats) (i : nat) (rm4 : Q) : Q :=
  let direction := sign_of_parity i in
  let base_variation := py_max (historical_std stats * 0.5) 0.2 in
  let variation := base_variation * direction * (1 + Qnat i * 0.15) in
  let trend_component := trend stats * (Qnat i + 1) * 0.15 in
  py_max 0.1 (rm4 + variation + trend_component).

(** the forced value [last_pred +/- 0.15], floored *)
Definition forced (i : nat) (last_pred : Q) : Q :=
  py_max 0.1 (last_pred + (if Nat.even i then 0.15 else -0.15)).

(** the [if ... elif ...] run on the model's prediction when [i > 0] *)
Definition add_variation (stats : HistoryStats) (i : nat)
    (rm4 pred last_pred : Q) : Q :=
  if Qlt_le_dec (Qabs (pred - last_pred)) 0.15 then corrected stats i rm4
  else if Qlt_le_dec (Qabs (pred - last_pred)) 0.05 then forced i last_pred
  else pred.

(** the value [pred] holds when the loop body reaches [round(pred, 2)] *)
Definition predict_step (model : Model) (feature_cols : list string)
    (stats : HistoryStats) (i : nat) (hist : list Q)
    (forecasts : list ForecastPoint) : Q :=
  if (length hist <? 4)%nat then
    let avg_demand := match hist with [] => 1 | _ => np_mean hist end in
    py_max 0.1 (avg_demand + (Qnat (i mod 3) - 1) * 0.1)
  else
    let l1 := from_end 1 hist in
    let l2 := from_end 2 hist in
    let l4 := from_end 4 hist in
    let last_4 := last_n 4 hist in
    let rm4 := np_mean last_4 in
    let rs4 := np_std last_4 in
    let rs4 := if Qlt_le_dec rs4 0.05 then py_max 0.1 (rm4 * 0.15) else rs4 in
    let features :=
      {| lag_1 := l1; lag_2 := l2; lag_4 := l4;
         rolling_mean_4 := rm4; rolling_std_4 := rs4 |} in
    let on_exception :=
      py_max 0.1 (rm4 + historical_std stats * 0.3 * sign_of_parity i
                  + trend stats * (Qnat i + 1) * 0.1) in
    match select_columns features feature_cols ≫= model with
    | None => on_exception
    | Some p =>
        let pred := py_max 0.1 p in
        if (0 <? i)%nat then
          match list.last forecasts with
          | None => on_exception
          | Some fp => add_variation stats i rm4 pred (fp_demand fp)
          end
        else pred
    end.

Definition LoopState : Type := (list Q * list ForecastPoint)%type.

(** one pass of the body of [for i in range(weeks)] *)
Definition forecast_step (model : Model) (feature_cols : list string)
    (stats : HistoryStats) (st : LoopState) (i : nat) : LoopState :=
  let '(hist, forecasts) := st in
  let pred := predict_step model feature_cols stats i hist forecasts in
  let forecast_value := py_round 2 pred in
  let forecasts :=
    forecasts ++ [{| week := "Forecast-" ++ str_of_nat (i + 1);
                     fp_demand := forecast_value; is_forecast := true |}] in
  let hist := hist ++ [pred] in
  let hist := if (20 <? length hist)%nat then last_n 20 hist else hist in
  (hist, forecasts).

(** the loop state after the first [k] passes *)
Definition run_steps (model : Model) (feature_cols : list string)
    (stats : HistoryStats) (hist0 : list Q) (k : nat) : LoopState :=
  fold_left (forecast_step model feature_cols stats) (seq 0 k) (hist0, []).

Definition history_point (r : WeeklyDemandRecord) : ForecastPoint :=
  {| week := year_week r;
     fp_demand := py_round 2 (float_of_count (demand r));
     is_forecast := false |}.

Definition generate_forecast (svc : DemandService) (a : string) (weeks : nat)
  : result (option Forecast) :=
  match weekly_demand svc, forecast_model svc with
  | Some wd, Some model =>
      let product_data := product_rows wd a in
      if (length product_data <? 10)%nat then Ok None
      else
        match model_info svc with
        | None => Raise AttributeError
        | Some info =>
            let feature_cols := default default_feature_cols (info_features info) in
            let hist0 := map (fun r => float_of_count (demand r)) product_data in
            let stats := history_stats hist0 in
            let '(_, forecasts) := run_steps model feature_cols stats hist0 weeks in
            let historical_data := map history_point (last_n 12 product_data) in
            Ok (Some {| f_asin := a;
                        forecast_weeks := weeks;
                        historical := historical_data;
                        forecast := forecasts;
                        combined := historical_data ++ forecasts |})
        end
  | _, _ => Ok None
  end.

End WithLibs.
End Demand.

(** * Vocabulary of the statements *)

Module Spec.

Fixpoint has_char (c : ascii) (s : string) : bool :=
  match s with
  | EmptyString => false
  | String a s' => Ascii.eqb a c || has_char c s'
  end.

Definition first_char (s : string) : option ascii :=
  match s with
  | EmptyString => None
  | String a _ => Some a
  end.

Fixpoint last_char (s : string) : option ascii :=
  match s with
  | EmptyString => None
  | String a EmptyString => Some a
  | String _ s' => last_char s'
  end.

Definition not_space (c : option ascii) : Prop :=
  match c with
  | Some a => is_space a = false
  | None => True
  end.

(** no white space at either end *)
Definition trimmed (s : string) : Prop :=
  not_space (first_char s) /\ not_space (last_char s).

(** the inputs on which [float(x)] is defined for an int [x] *)
Definition in_float_range (v : pyval) : Prop :=
  match v with
  | PInt z => (Z.abs z < float_overflow_bound)%Z
  | _ => True
  end.

(** order of a list of scores *)
Definition descending (l : list Q) : Prop := StronglySorted (fun x y => y <= x) l.
Definition ascending (l : list Q) : Prop := StronglySorted Qle l.

Section Fusion.
Import Recommender.

(** two score lists with the same keys and equal values, position by position *)
Definition same_scores (s1 s2 : list (string * Q)) : Prop :=
  Forall2 (fun p q => fst p = fst q /\ snd p == snd q) s1 s2.

(** the entry the collaborative loop writes for an item *)
Definition cf_entry (w : Q) (r : Item) : string * Q :=
  (asin r, item_similarity r * w).

(** what the content loop keeps true when the content weight is zero: the
    entries of the collaborative items come first, unchanged in value, and
    every later entry is zero *)
Definition fused_on (cf : list Item) (st : FusionState) : Prop :=
  exists post,
    same_scores (fst st) (map (cf_entry 1) cf ++ post) /\
    Forall (fun p => snd p == 0) post /\
    (forall r, In r cf -> snd st !! asin r = Some r).

End Fusion.

Section WithLibs.
Context `{Libs}.
Import Recommender.

(** the catalog resolves an image for the candidate *)
Definition image_resolves (svc : RecommendationService) (rec : Candidate) : bool :=
  match get_product_details svc (c_asin rec) with
  | Ok details => truthy (d_image_url details)
  | Raise _ => false
  end.

(** the nearest-neighbour index lists neighbours by increasing distance *)
Definition knn_ascending (svc : RecommendationService) : Prop :=
  forall knn row k res,
    knn_model svc = Some knn -> knn row k = Ok res -> ascending (map fst res).

(** [argsort] lists every position once *)
Definition argsort_permutes : Prop :=
  forall a, Permutation (argsort a) (seq 0 (length a)).

(** [argsort] lists the positions by increasing value *)
Definition argsort_sorts : Prop :=
  forall a, ascending (map (fun i => nth i a 0) (argsort a)).

(** the entry of the fused [scores] dict that shows a hybrid item *)
Definition shown (product_data : gmap string Item) (entry : string * Q) : bool :=
  match product_data !! fst entry with
  | Some data => truthy (image_url data)
  | None => false
  end.

End WithLibs.

(** the two halves of a demand series *)
Definition first_half_mean (demands : list Q) : Q :=
  np_mean (firstn (length demands / 2) demands).

Definition second_half_mean (demands : list Q) : Q :=
  np_mean (skipn (length demands / 2) demands).

(** the trend label as the description of the aggregator words it *)
Inductive TrendSpec (demands : list Q) : Demand.Trend -> Prop :=
  | ts_insufficient :
      (length demands < 2)%nat ->
      TrendSpec demands Demand.insufficient_data
  | ts_increasing :
      (2 <= length demands)%nat ->
      first_half_mean demands * 1.1 < second_half_mean demands ->
      TrendSpec demands Demand.increasing
  | ts_decreasing :
      (2 <= length demands)%nat ->
      second_half_mean demands < first_half_mean demands * 0.9 ->
      TrendSpec demands Demand.decreasing
  | ts_stable :
      (2 <= length demands)%nat ->
      ~ first_half_mean demands * 1.1 < second_half_mean demands ->
      ~ second_half_mean demands < first_half_mean demands * 0.9 ->
      TrendSpec demands Demand.stable.

(** the two half means as the doubles [numpy.mean] returns *)
Definition first_half_mean64 (demands : list Q) : Q := b64 (first_half_mean demands).

Definition second_half_mean64 (demands : list Q) : Q :=
  b64 (second_half_mean demands).

(** the trend label with every operation in double precision: the means,
    the literals 1.1 and 0.9, and the two products are rounded to the
    nearest double before they are compared *)
Inductive TrendSpec64 (demands : list Q) : Demand.Trend -> Prop :=
  | ts64_insufficient :
      (length demands < 2)%nat ->
      TrendSpec64 demands Demand.insufficient_data
  | ts64_increasing :
      (2 <= length demands)%nat ->
      b64 (first_half_mean64 demands * b64 1.1) < second_half_mean64 demands ->
      TrendSpec64 demands Demand.increasing
  | ts64_decreasing :
      (2 <= length demands)%nat ->
      second_half_mean64 demands < b64 (first_half_mean64 demands * b64 0.9) ->
      TrendSpec64 demands Demand.decreasing
  | ts64_stable :
      (2 <= length demands)%nat ->
      ~ b64 (first_half_mean64 demands * b64 1.1) < second_half_mean64 demands ->
      ~ second_half_mean64 demands < b64 (first_half_mean64 demands * b64 0.9) ->
      TrendSpec64 demands Demand.stable.

(** the relative margin 2^-50 that keeps a comparison clear of rounding *)
Definition trend_margin : Q := 1 # 1125899906842624.

(** the exact rule, decided with a margin: the second-half mean is not
    within the relative [trend_margin] of a threshold *)
Inductive TrendClear (demands : list Q) : Demand.Trend -> Prop :=
  | tc_insufficient :
      (length demands < 2)%nat ->
      TrendClear demands Demand.insufficient_data
  | tc_increasing :
      (2 <= length demands)%nat ->
      first_half_mean demands * 1.1 * (1 + trend_margin) < second_half_mean demands ->
      TrendClear demands Demand.increasing
  | tc_decreasing :
      (2 <= length demands)%nat ->
      second_half_mean demands < first_half_mean demands * 0.9 * (1 - trend_margin) ->
      TrendClear demands Demand.decreasing
  | tc_stable :
      (2 <= length demands)%nat ->
      first_half_mean demands * 0.9 * (1 + trend_margin) <= second_half_mean demands ->
      second_half_mean demands <= first_half_mean demands * 1.1 * (1 - trend_margin) ->
      TrendClear demands Demand.stable.

(** the events of a product add up to less than 2^53, so that their sum
    is exact in double precision *)
Definition counts_exact (wd : list Demand.WeeklyDemandRecord) (a : string) : Prop :=
  (Z.of_N (fold_right N.add 0%N
             (map Demand.demand
                (List.filter (fun r => String.eqb (Demand.parent_asin r) a) wd)))
   < 2 ^ 53)%Z.

(** the weekly records a product has *)
Definition recorded_weeks (wd : list Demand.WeeklyDemandRecord) (a : string) : nat :=
  length (List.filter (fun r => String.eqb (Demand.parent_asin r) a) wd).

End Spec.

(** * Reference instance and sample data

    An instance of [Libs] that can be run: a square root correct to six
    decimals (exact on squares of such decimals), the cosine built on it,
    a stable [argsort], and a reader of plain decimal literals, on which it
    agrees with [float]. *)

Module Examples.
Import Recommender Demand.

Definition sqrt_approx (q : Q) : Q :=
  Qmake (Z.sqrt (Qnum q * 10 ^ 12 / Zpos (Qden q))) (10 ^ 6).

Fixpoint dot (u v : list Q) : Q :=
  match u, v with
  | x :: u', y :: v' => x * y + dot u' v'
  | _, _ => 0
  end.

Definition cosine_approx (u v : list Q) : Q :=
  Qred (dot u v / (sqrt_approx (dot u u) * sqrt_approx (dot v v))).

Definition digit_of (c : ascii) : option Z :=
  let n := nat_of_ascii c in
  if ((48 <=? n) && (n <=? 57))%nat then Some (Z.of_nat (n - 48)) else None.

(** reads a run of digits: its value, its length and the rest *)
Fixpoint read_digits (s : string) (acc : Z) (count : nat) : Z * nat * string :=
  match s with
  | EmptyString => (acc, count, s)
  | String c s' =>
      match digit_of c with
      | Some d => read_digits s' (acc * 10 + d)%Z (S count)
      | None => (acc, count, s)
      end
  end.

Definition decimal_of_str (s : string) : option pyfloat :=
  let '(sign, body) :=
    match s with
    | String "-" r => (-1, r)
    | String "+" r => (1, r)
    | _ => (1, s)
    end in
  let '(int_part, n1, rest) := read_digits body 0 0 in
  match rest with
  | EmptyString =>
      if (n1 =? 0)%nat then None else Some (Fin (sign * inject_Z int_part))
  | String "." frac =>
      let '(frac_part, n2, rest') := read_digits frac 0 0 in
      match rest' with
      | EmptyString =>
          if (n1 + n2 =? 0)%nat then None
          else Some (Fin (Qred (sign * (inject_Z int_part
                       + inject_Z frac_part / inject_Z (10 ^ Z.of_nat n2)))))
      | _ => None
      end
  | _ => None
  end.

(** the stable order numpy's insertion sort gives on short arrays *)
Definition insertion_argsort (a : list Q) : list nat :=
  map fst (stable_sort_asc snd (combine (seq 0 (length a)) a)).

Definition reference_libs : Libs :=
  {| float_of_str := decimal_of_str;
     np_sqrt := sqrt_approx;
     cosine := cosine_approx;
     argsort := insertion_argsort |}.

(** A brute-force nearest-neighbour index on cosine distance, as the
    fitted [NearestNeighbors] object answers [kneighbors]. *)
Definition brute_knn (m : list Row) : KNN := fun row k =>
  if (length m <? k)%nat then Raise ValueError
  else
    let distances := map (fun r => 1 - cosine_approx row r) m in
    Ok (firstn k (stable_sort_asc fst (combine distances (seq 0 (length m))))).

Definition with_images (urls : list string) : list (string * pyval) :=
  [("title", PStr "item"); ("price", PStr "$13.99");
   ("imageURLHighRes", PList (map PStr urls))].

Definition nested_image (url : string) : list (string * pyval) :=
  [("title", PStr "item"); ("price", PFloat (Fin 5));
   ("images", PList [PDict [("thumb", PStr "t.jpg"); ("large", PStr url)]])].

Definition imageless : list (string * pyval) :=
  [("title", PStr "item"); ("price", PNone); ("imageURL", PList [])].

Definition interactions : list Row :=
  [[1; 1; 0; 0]; [1; 1; 1; 0]; [1; 1; 0; 1]; [0; 1; 1; 1];
   [1; 0; 0; 1]; [0; 0; 1; 1]].

Definition texts : list Row :=
  [[2; 1; 0]; [2; 0; 1]; [1; 1; 1]; [0; 1; 2]; [2; 1; 1]].

(** Four products known to both indices (C has no image), E known to the
    content index only, F and G known to the collaborative index only. *)
Definition shop : RecommendationService :=
  {| knn_model := Some (brute_knn interactions);
     item_user_matrix := Some interactions;
     tfidf_matrix := Some texts;
     mappings := Some
       {| product_to_idx :=
            list_to_map [("A", 0); ("B", 1); ("C", 2); ("D", 3); ("F", 4); ("G", 5)]%nat;
          idx_to_product :=
            list_to_map [("0", "A"); ("1", "B"); ("2", "C"); ("3", "D");
                         ("4", "F"); ("5", "G")];
          cb_product_to_idx :=
            list_to_map [("A", 0); ("B", 1); ("C", 2); ("D", 3); ("E", 4)]%nat;
          cb_idx_to_product :=
            list_to_map [("0", "A"); ("1", "B"); ("2", "C"); ("3", "D"); ("4", "E")] |};
     product_metadata :=
       list_to_map [("A", with_images ["a.jpg"]); ("B", with_images ["b.jpg"]);
                    ("C", imageless); ("D", nested_image "d.jpg");
                    ("E", with_images ["e.jpg"]); ("F", with_images ["f.jpg"]);
                    ("G", nested_image "g.jpg")] |}.

Definition sample_item (a : string) (sim : Q) (m : Method) : Item :=
  {| asin := a; key := similarity_key; value := sim; method := m;
     title := PStr "item"; image_url := PStr (a ++ ".jpg"); price := None;
     rating := PNone; rating_count := PNone; store := PNone;
     categories := [] |}.

Definition sample_cf : list Item :=
  [sample_item "B" 0.816 collaborative; sample_item "F" 0.5 collaborative;
   sample_item "D" 0.408 collaborative].

Definition sample_cb : list Item :=
  [sample_item "E" 0.913 content; sample_item "B" 0.8 content;
   sample_item "D" 0.2 content].

(** the pools the hybrid call for A with n = 2 draws from *)
Definition shop_cf_pool : list Item :=
  Eval vm_compute in
    match @get_collaborative_recommendations reference_libs shop "A" 4 with
    | Ok l => l
    | Raise _ => []
    end.

Definition shop_cb_pool : list Item :=
  Eval vm_compute in
    match @get_content_recommendations reference_libs shop "A" 4 with
    | Ok l => l
    | Raise _ => []
    end.

(** Two products with the same text vector. *)
Definition twins_maps : Mappings :=
  {| product_to_idx := ∅;
     idx_to_product := ∅;
     cb_product_to_idx := list_to_map [("A", 0); ("B", 1)]%nat;
     cb_idx_to_product := list_to_map [("0", "A"); ("1", "B")] |}.

Definition twins : RecommendationService :=
  {| knn_model := None;
     item_user_matrix := None;
     tfidf_matrix := Some [[1; 0]; [1; 0]];
     mappings := Some twins_maps;
     product_metadata :=
       list_to_map [("A", with_images ["a.jpg"]); ("B", with_images ["b.jpg"])] |}.

(** ** Weekly demand *)

Definition week_label (i : nat) : string :=
  "2023-W" ++ (if (i <? 10)%nat then "0" else "") ++ str_of_nat i.

Fixpoint weeks_from (a : string) (i : nat) (counts : list N)
  : list WeeklyDemandRecord :=
  match counts with
  | [] => []
  | d :: rest =>
      {| parent_asin := a; year_week := week_label i; demand := d;
         avg_rating := Some 4.5 |} :: weeks_from a (S i) rest
  end.

(** a regressor that saturates at one value *)
Definition flat_model : Model := fun _ => Some 9.69.

(** P rises after four weeks, Q is constant, N has nine weeks, S ten and L
    twenty-one weeks of ten events each. *)
Definition sample_weeks : list WeeklyDemandRecord :=
  weeks_from "L" 1 (repeat 10%N 21)
  ++ weeks_from "N" 1 (repeat 10%N 9)
  ++ weeks_from "P" 1 [10; 10; 10; 10; 20; 20; 20; 20]%N
  ++ weeks_from "Q" 1 (repeat 10%N 8)
  ++ weeks_from "S" 1 (repeat 10%N 10).

Definition demand_service : DemandService :=
  {| weekly_demand := Some sample_weeks;
     forecast_model := Some flat_model;
     model_info := Some {| info_features := None |} |}.

Definition history_of (a : string) : list Q :=
  map (fun r => float_of_count (demand r)) (product_rows sample_weeks a).

End Examples.

(** * recommendation_service.py: the catalog operations *)

(** ** Text idioms of Python *)

(** [c.lower()] on a code point below 256 *)
Definition lower_char (c : ascii) : ascii :=
  let n := nat_of_ascii c in
  if ((65 <=? n) && (n <=? 90)
      || (192 <=? n) && (n <=? 222) && negb (n =? 215))%nat
  then ascii_of_nat (n + 32)
  else c.

(** [s.lower()] *)
Fixpoint py_lower (s : string) : string :=
  match s with
  | EmptyString => EmptyString
  | String c s' => String (lower_char c) (py_lower s')
  end.

(** [needle in hay] *)
Fixpoint contains (needle hay : string) : bool :=
  String.prefix needle hay
  || match hay with
     | EmptyString => false
     | String _ hay' => contains needle hay'
     end.

(** [sep.join(parts)] *)
Fixpoint join (sep : string) (parts : list string) : string :=
  match parts with
  | [] => EmptyString
  | [p] => p
  | p :: rest => p ++ sep ++ join sep rest
  end.

Module Catalog.
Import Recommender.

(** the test the image fields [imageURLHighRes] and [imageURL] share *)
Definition first_is_text (field : pyval) : bool :=
  match field with
  | PList (PStr s :: _) => negb (String.eqb s "")
  | _ => false
  end.

Definition _has_image (data : list (string * pyval)) : bool :=
  if first_is_text (dict_get data "imageURLHighRes" (PList [])) then true
  else if first_is_text (dict_get data "imageURL" (PList [])) then true
  else match dict_get data "images" (PList []) with
       | PList (first_img :: _) =>
           match first_img with
           | PDict d =>
               truthy (py_or (dict_get d "hi_res" PNone)
                             (py_or (dict_get d "large" PNone)
                                    (dict_get d "thumb" PNone)))
           | PStr s => negb (String.eqb s "")
           | _ => false
           end
       | _ => false
       end.

Section Description.
(** [str(v)] of a value that is not a string *)
Variable str_other : pyval -> string.

Definition py_str (v : pyval) : string :=
  match v with
  | PStr s => s
  | _ => str_other v
  end.

(** the text before the length cut *)
Definition raw_description (data : list (string * pyval)) : string :=
  let description :=
    match dict_get data "description" (PList []) with
    | PList l => join " " (map py_str (firstn 2 l))
    | desc => if truthy desc then py_str desc else ""
    end in
  if negb (String.eqb description "") then description
  else match dict_get data "features" (PList []) with
       | PList (f :: _) => py_str f
       | _ => ""
       end.

(** [description[:197] + "..."] past 200 characters *)
Definition cut_description (description : string) : string :=
  if (200 <? String.length description)%nat
  then substring 0 197 description ++ "..."
  else description.

(** the ["description"] entry of the dict [get_product_details] builds *)
Definition description_of (data : list (string * pyval)) : string :=
  cut_description (raw_description data).

End Description.

(** the rows whose title, in lower case, holds the query *)
Definition row_matches (query_lower : string) (row : string * list (string * pyval))
  : bool :=
  match dict_get (snd row) "title" (PStr "") with
  | PStr t => contains query_lower (py_lower t)
  | _ => false
  end.

Record ProductPage : Type := {
  products : list Details;
  total : nat;
  page_offset : nat;
  page_limit : nat
}.

Section WithLibs.
Context `{Libs}.

(** the first loop of [get_available_products] *)
Definition products_with_images (svc : RecommendationService)
    (all_products : list string) : list string :=
  List.filter (fun a => match product_metadata svc !! a with
                        | Some data => _has_image data
                        | None => false
                        end) all_products.

(** its second loop *)
Fixpoint page_details (svc : RecommendationService) (paginated_asins : list string)
  : result (list Details) :=
  match paginated_asins with
  | [] => Ok []
  | a :: rest =>
      details ← get_product_details svc a;
      tail ← page_details svc rest;
      if truthy (d_image_url details) then Ok (details :: tail) else Ok tail
  end.

(** [all_products] is [list(product_to_idx.keys())], in the order of the
    mapping file, which a [gmap] does not keep *)
Definition get_available_products (svc : RecommendationService)
    (all_products : list string) (limit offset : nat) : result ProductPage :=
  match mappings svc with
  | None => Ok {| products := []; total := 0; page_offset := 0; page_limit := limit |}
  | Some _ =>
      let listed := products_with_images svc all_products in
      let paginated_asins := firstn limit (skipn offset listed) in
      ps ← page_details svc paginated_asins;
      Ok {| products := ps; total := length listed;
            page_offset := offset; page_limit := limit |}
  end.

(** the loop of [search_products] over [product_metadata.items()] *)
Fixpoint search_loop (svc : RecommendationService) (query_lower : string)
    (limit : nat) (items : list (string * list (string * pyval)))
    (results : list Details) : result (list Details) :=
  match items with
  | [] => Ok results
  | (a, data) :: rest =>
      match dict_get data "title" (PStr "") with
      | PStr t =>
          if contains query_lower (py_lower t) then
            details ← get_product_details svc a;
            let results := results ++ [details] in
            if (limit <=? length results)%nat then Ok results
            else search_loop svc query_lower limit rest results
          else search_loop svc query_lower limit rest results
      | _ => Raise AttributeError
      end
  end.

(** [items] is [product_metadata.items()], in insertion order *)
Definition search_products (svc : RecommendationService)
    (items : list (string * list (string * pyval))) (query : string) (limit : nat)
  : result (list Details) :=
  match items with
  | [] => Ok []
  | _ => search_loop svc (py_lower query) limit items []
  end.

End WithLibs.
End Catalog.

(** * Predicates for the further properties of the demand service *)

Module SpecMore.
Import Demand.

(** the order [.sort('year_week')] sorts by *)
Definition week_le (w w' : string) : Prop := String.leb w w' = true.

Definition weeks_ascending (ws : list string) : Prop := Sorted week_le ws.

(** the label [f"Forecast-{i+1}"] of pass [i] *)
Definition forecast_label (i : nat) : string :=
  ("Forecast-" ++ str_of_nat (i + 1))%string.

(** a float that holds an event count *)
Definition is_count (q : Q) : Prop := exists n : N, q == inject_Z (Z.of_N n).

(** the table holds one record per product and week, as the [group_by]
    of [_load_data] builds it; the order of a product's rows after the
    sort is then determined *)
Definition one_record_per_week (wd : list WeeklyDemandRecord) (a : string) : Prop :=
  List.NoDup (map year_week
                (List.filter (fun r => String.eqb (parent_asin r) a) wd)).

(** [svc] with another regressor in place *)
Definition with_model (svc : DemandService) (m : Model) : DemandService :=
  {| weekly_demand := weekly_demand svc;
     forecast_model := Some m;
     model_info := model_info svc |}.

End SpecMore.

(** * demand_service.py: loading the regressor, and the weekly totals *)

Module DemandMore.
Import Demand.

(** the service as [__init__] and [_load_data] leave it *)
Definition after_load_data (wd : option (list WeeklyDemandRecord)) : DemandService :=
  {| weekly_demand := wd; forecast_model := None; model_info := None |}.

(** what loading one file gives *)
Inductive FileState (A : Type) : Type :=
  | Missing                (* the path does not exist *)
  | Unreadable             (* loading it raises *)
  | Holds (content : A).
Arguments Missing {A}.
Arguments Unreadable {A}.
Arguments Holds {A} content.

Definition exists_ {A : Type} (f : FileState A) : bool :=
  match f with
  | Missing => false
  | _ => true
  end.

(** [_load_forecast_model]: the regressor is assigned before the sidecar
    is opened, and the [except] keeps what was assigned *)
Definition _load_forecast_model (svc : DemandService)
    (model_file : FileState Model) (info_file : FileState ModelInfo)
  : DemandService :=
  if exists_ model_file && exists_ info_file then
    match model_file with
    | Holds model =>
        let svc := {| weekly_demand := weekly_demand svc;
                      forecast_model := Some model;
                      model_info := model_info svc |} in
        match info_file with
        | Holds info => {| weekly_demand := weekly_demand svc;
                           forecast_model := forecast_model svc;
                           model_info := Some info |}
        | _ => svc
        end
    | _ => svc
    end
  else svc.

Record TrendPoint : Type := {
  tp_week : string;
  tp_total_demand : N;
  tp_active_products : nat
}.

(** the rows of one [group_by('year_week')] group *)
Definition week_rows (wd : list WeeklyDemandRecord) (w : string)
  : list WeeklyDemandRecord :=
  List.filter (fun r => String.eqb (year_week r) w) wd.

Definition Nsum (l : list N) : N := fold_right N.add 0%N l.

(** the aggregates of one group: [sum] of the demand and [n_unique] of
    the product IDs *)
Definition overall_row (wd : list WeeklyDemandRecord) (w : string) : TrendPoint :=
  let rows := week_rows wd w in
  {| tp_week := w;
     tp_total_demand := Nsum (map demand rows);
     tp_active_products := length (nodup string_dec (map parent_asin rows)) |}.

Fixpoint insert_point (p : TrendPoint) (l : list TrendPoint) : list TrendPoint :=
  match l with
  | [] => [p]
  | p' :: l' =>
      if String.leb (tp_week p) (tp_week p') then p :: l
      else p' :: insert_point p l'
  end.

(** [get_overall_trend]: one row per week of the table, sorted by week *)
Definition get_overall_trend (svc : DemandService) : list TrendPoint :=
  match weekly_demand svc with
  | None => []
  | Some wd =>
      fold_right insert_point []
        (map (overall_row wd) (nodup string_dec (map year_week wd)))
  end.

End DemandMore.

(** * recommendation_service.py: loading the artefacts *)

Module Loading.
Import Recommender DemandMore.

(** a row of the metadata file; both ID columns are text columns, a
    missing column or a null reads as [None] *)
Record MetaRow : Type := {
  parent_asin_col : option string;
  asin_col : option string;
  fields : list (string * pyval)
}.

Definition nonempty (s : option string) : option string :=
  match s with
  | Some t => if String.eqb t "" then None else Some t
  | None => None
  end.

(** [row.get('parent_asin') or row.get('asin')], when it is truthy *)
Definition row_id (r : MetaRow) : option string :=
  match nonempty (parent_asin_col r) with
  | Some a => Some a
  | None => nonempty (asin_col r)
  end.

Abbreviation Metadata := (gmap string (list (string * pyval))).

(** the body of the [for] of the scanning loop *)
Definition take_model_product (model_products : gmap string nat)
    (st : Metadata * nat) (r : MetaRow) : Metadata * nat :=
  let '(product_metadata, found) := st in
  match row_id r with
  | Some a =>
      match model_products !! a, product_metadata !! a with
      | Some _, None => (<[a := fields r]> product_metadata, S found)
      | _, _ => st
      end
  | None => st
  end.

(** the body of the [for] of the browsing fallback *)
Definition take_any_product (product_metadata : Metadata) (r : MetaRow) : Metadata :=
  match row_id r with
  | Some a =>
      match product_metadata !! a with
      | None => <[a := fields r]> product_metadata
      | Some _ => product_metadata
      end
  | None => product_metadata
  end.

Section Scan.
Variables (batch_size max_rows : nat).
Variable file : list MetaRow.
Variable model_products : gmap string nat.

(** [pl.read_ndjson(meta_path, n_rows=batch_size).slice(offset, batch_size)] *)
Definition read_batch (offset : nat) : list MetaRow :=
  firstn batch_size (skipn offset (firstn batch_size file)).

(** the [while] loop; [passes] bounds the number of passes *)
Fixpoint scan (passes : nat) (offset : nat) (st : Metadata * nat) : Metadata * nat :=
  match passes with
  | O => st
  | S passes' =>
      if (snd st <? size model_products)%nat && (offset <? max_rows)%nat then
        match read_batch offset with
        | [] => st
        | meta =>
            scan passes' (offset + batch_size)
              (fold_left (take_model_product model_products) meta st)
        end
      else st
  end.

End Scan.

#[warnings="-abstract-large-number"] Definition batch_size : nat := 50000.

(** the bound on [offset] in the loop test *)
#[warnings="-abstract-large-number"] Definition max_rows : nat := 500000.

(** the rows read for browsing when fewer than 100 products were found *)
#[warnings="-abstract-large-number"] Definition browse_rows : nat := 10000.

(** [_load_metadata_index] on a readable file: [offset] grows by 50,000
    at each pass and stays below 500,000, so ten passes are the most the
    loop can make *)
Definition _load_metadata_index (maps : option Mappings)
    (product_metadata : Metadata) (file : list MetaRow) : Metadata :=
  let model_products :=
    match maps with
    | Some m => product_to_idx m
    | None => ∅
    end in
  let '(product_metadata, _) :=
    scan batch_size max_rows file model_products 10 0 (product_metadata, 0%nat) in
  if (size product_metadata <? 100)%nat
  then fold_left take_any_product (firstn browse_rows file) product_metadata
  else product_metadata.

(** the artefact files [_load_models] looks for; the metadata file is
    [None] when neither of its two names exists *)
Record ModelFiles : Type := {
  knn_file : FileState KNN;
  vectorizer_file : FileState unit;
  item_user_file : FileState (list Row);
  tfidf_matrix_file : FileState (list Row);
  mappings_file : FileState Mappings;
  metadata_file : option (list MetaRow)
}.

(** the service as [__init__] creates it *)
Definition fresh : RecommendationService :=
  {| knn_model := None; item_user_matrix := None; tfidf_matrix := None;
     mappings := None; product_metadata := ∅ |}.

(** one [if path.exists(): self.x = load(path)] inside the [try]: [inl]
    when the load raises and the [except] ends the method *)
Definition load_into {A : Type} (f : FileState A)
    (assign : A -> RecommendationService -> RecommendationService)
    (svc : RecommendationService)
  : RecommendationService + RecommendationService :=
  match f with
  | Missing => inr svc
  | Unreadable => inl svc
  | Holds a => inr (assign a svc)
  end.

Definition and_then (r : RecommendationService + RecommendationService)
    (k : RecommendationService -> RecommendationService + RecommendationService)
  : RecommendationService + RecommendationService :=
  match r with
  | inl svc => inl svc
  | inr svc => k svc
  end.

Definition set_knn (k : KNN) (svc : RecommendationService) :=
  {| knn_model := Some k; item_user_matrix := item_user_matrix svc;
     tfidf_matrix := tfidf_matrix svc; mappings := mappings svc;
     product_metadata := product_metadata svc |}.

Definition set_item_user (m : list Row) (svc : RecommendationService) :=
  {| knn_model := knn_model svc; item_user_matrix := Some m;
     tfidf_matrix := tfidf_matrix svc; mappings := mappings svc;
     product_metadata := product_metadata svc |}.

Definition set_tfidf_matrix (m : list Row) (svc : RecommendationService) :=
  {| knn_model := knn_model svc; item_user_matrix := item_user_matrix svc;
     tfidf_matrix := Some m; mappings := mappings svc;
     product_metadata := product_metadata svc |}.

Definition set_mappings (m : Mappings) (svc : RecommendationService) :=
  {| knn_model := knn_model svc; item_user_matrix := item_user_matrix svc;
     tfidf_matrix := tfidf_matrix svc; mappings := Some m;
     product_metadata := product_metadata svc |}.

Definition set_metadata (pm : Metadata) (svc : RecommendationService) :=
  {| knn_model := knn_model svc; item_user_matrix := item_user_matrix svc;
     tfidf_matrix := tfidf_matrix svc; mappings := mappings svc;
     product_metadata := pm |}.

(** [_load_models]: the five loads run in one [try], in this order, and
    the metadata index is built only when none of them raised (the
    vectorizer is kept in a field no request reads) *)
Definition _load_models (files : ModelFiles) : RecommendationService :=
  let loaded :=
    and_then (load_into (knn_file files) set_knn fresh) (fun svc =>
    and_then (load_into (vectorizer_file files) (fun _ s => s) svc) (fun svc =>
    and_then (load_into (item_user_file files) set_item_user svc) (fun svc =>
    and_then (load_into (tfidf_matrix_file files) set_tfidf_matrix svc) (fun svc =>
    load_into (mappings_file files) set_mappings svc)))) in
  match loaded with
  | inl svc => svc
  | inr svc =>
      match metadata_file files with
      | None => svc
      | Some file =>
          set_metadata
            (_load_metadata_index (mappings svc) (product_metadata svc) file) svc
      end
  end.

End Loading.

(** * routers: the route functions *)

Module Routes.
Import Recommender Demand.

(** how a route function ends: it hands a payload to its response model,
    raises an [HTTPException], lets an exception of the service pass, or
    has its payload rejected by the response model ([ValidationError]).
    The recommendation routes and the demand route are followed up to the
    payload; the product route is followed through its response model. *)
Inductive Outcome (A : Type) : Type :=
  | Responds (payload : A)
  | HTTPException (status_code : nat)
  | Fails (e : exn)
  | Rejected.
Arguments Responds {A} payload.
Arguments HTTPException {A} status_code.
Arguments Fails {A} e.
Arguments Rejected {A}.

Record RecommendationResponse : Type := {
  product_asin : string;
  response_method : Method;
  source_product : option Details;
  recommendations : list Item
}.

(** the dict of [get_product_details], which [if not details] tests *)
Definition details_dict (d : Details) : pyval :=
  PDict [("asin", PStr (d_asin d)); ("title", d_title d);
         ("image_url", d_image_url d); ("price", price_as_py (d_price d));
         ("rating", d_rating d); ("rating_count", d_rating_count d);
         ("store", d_store d); ("categories", PList (d_categories d))].

Section WithLibs.
Context `{Libs}.

(** [/product/{product_asin}]; [accepts] is the validation pydantic runs
    when the [ProductDetails] response model is built from the dict,
    library code outside the repository: it refuses, for one, a title
    that is not text *)
Definition product_route (accepts : Details -> bool)
    (svc : RecommendationService) (a : string) : Outcome Details :=
  match get_product_details svc a with
  | Raise e => Fails e
  | Ok details =>
      if negb (truthy (details_dict details)) then HTTPException 404
      else if accepts details then Responds details
      else Rejected
  end.

(** what the three recommendation routes do once the service has answered *)
Definition respond (svc : RecommendationService) (a : string) (m : Method)
    (answer : result (list Item)) : Outcome RecommendationResponse :=
  match answer with
  | Raise e => Fails e
  | Ok [] => HTTPException 404
  | Ok recommendations =>
      match get_product_details svc a with
      | Raise e => Fails e
      | Ok source =>
          Responds {| product_asin := a;
                      response_method := m;
                      source_product :=
                        if truthy (details_dict source) then Some source else None;
                      recommendations := recommendations |}
      end
  end.

(** [/collaborative/{product_asin}] *)
Definition collaborative_route (svc : RecommendationService) (a : string) (n : nat)
  : Outcome RecommendationResponse :=
  if negb (is_ready svc) then HTTPException 503
  else respond svc a collaborative (get_collaborative_recommendations svc a n).

(** [/content/{product_asin}] *)
Definition content_route (svc : RecommendationService) (a : string) (n : nat)
  : Outcome RecommendationResponse :=
  if negb (is_ready svc) then HTTPException 503
  else respond svc a content (get_content_recommendations svc a n).

(** [/hybrid/{product_asin}] *)
Definition hybrid_route (svc : RecommendationService) (a : string) (n : nat)
    (cf_weight : Q) : Outcome RecommendationResponse :=
  if negb (is_ready svc) then HTTPException 503
  else respond svc a hybrid (get_hybrid_recommendations svc a n cf_weight).

End WithLibs.

(** [/product/{asin}] of the demand router *)
Definition demand_route (svc : DemandService) (a : string) : Outcome ProductDemand :=
  match get_product_demand svc a with
  | None => HTTPException 404
  | Some data => Responds data
  end.

End Routes.

(** * Predicates for the properties of the metadata index *)

Module LoadingSpec.
Import Loading.

(** [pm'] keeps every entry of [pm], and each further entry is the row of
    [rows] that carries its key as ID *)
Definition grows_from (rows : list MetaRow) (pm pm' : Metadata) : Prop :=
  (forall a d, pm !! a = Some d -> pm' !! a = Some d) /\
  (forall a d, pm' !! a = Some d ->
     pm !! a = Some d \/
     (pm !! a = None /\ exists r, In r rows /\ row_id r = Some a /\ fields r = d)).

End LoadingSpec.

(** * More sample data *)

Module MoreExamples.
Import Recommender Catalog Demand Examples.

(** the keys of the collaborative mapping of [shop], in file order *)
Definition shop_keys : list string := ["A"; "B"; "C"; "D"; "F"; "G"].

Definition titled (t : pyval) : list (string * pyval) :=
  [("title", t); ("price", PStr "9.50"); ("imageURL", PList [PStr "x.jpg"])].

(** a small catalog; the last row has a null title *)
Definition kitchen_items : list (string * list (string * pyval)) :=
  [("K1", titled (PStr "Red Kettle")); ("K2", titled (PStr "kettle descaler"));
   ("K3", titled (PStr "Blue Mug")); ("K4", titled PNone)].

Definition kitchen : RecommendationService :=
  {| knn_model := None;
     item_user_matrix := None;
     tfidf_matrix := None;
     mappings := None;
     product_metadata := list_to_map kitchen_items |}.

(** a sidecar that lists a column the service does not compute *)
Definition strange_sidecar : DemandService :=
  {| weekly_demand := Some sample_weeks;
     forecast_model := Some flat_model;
     model_info := Some {| info_features := Some ["lag_1"; "price"] |} |}.

Definition low_model : Model := fun _ => Some 1.

(** a metadata file: A twice, B under the [asin] column, X behind an
    empty [parent_asin], and a row without an ID *)
Definition first_row : Loading.MetaRow :=
  {| Loading.parent_asin_col := Some "A"; Loading.asin_col := None;
     Loading.fields := with_images ["a1.jpg"] |}.

Definition meta_rows : list Loading.MetaRow :=
  [ first_row;
    {| Loading.parent_asin_col := None; Loading.asin_col := Some "B";
       Loading.fields := with_images ["b.jpg"] |};
    {| Loading.parent_asin_col := Some ""; Loading.asin_col := Some "X";
       Loading.fields := with_images ["x.jpg"] |};
    {| Loading.parent_asin_col := Some "A"; Loading.asin_col := None;
       Loading.fields := with_images ["a2.jpg"] |};
    {| Loading.parent_asin_col := None; Loading.asin_col := None;
       Loading.fields := imageless |} ].

(** artefact files in which only the TF-IDF matrix cannot be read *)
Definition broken_files : Loading.ModelFiles :=
  {| Loading.knn_file := DemandMore.Holds (brute_knn interactions);
     Loading.vectorizer_file := DemandMore.Holds tt;
     Loading.item_user_file := DemandMore.Holds interactions;
     Loading.tfidf_matrix_file := DemandMore.Unreadable;
     Loading.mappings_file := DemandMore.Holds twins_maps;
     Loading.metadata_file := Some meta_rows |}.

(** a series on a threshold: the second-half mean 15 is exactly 0.9 times
    the first-half mean 50/3 *)
Definition threshold_weeks : list WeeklyDemandRecord :=
  weeks_from "T" 1 [16; 17; 17; 15; 15; 15]%N.

Definition threshold_service : DemandService :=
  {| weekly_demand := Some threshold_weeks;
     forecast_model := None;
     model_info := None |}.

(** a response model that insists on a text title *)
Definition title_is_text (d : Details) : bool :=
  match d_title d with
  | PStr _ => true
  | _ => false
  end.

End MoreExamples.

(** * Facts about the numeric helpers *)

Lemma py_max_lb a b : a <= py_max a b.
Proof. unfold py_max. destruct (Qlt_le_dec a b); lra. Qed.

Lemma py_max_ub a b : b <= py_max a b.
Proof. unfold py_max. destruct (Qlt_le_dec a b); lra. Qed.

Lemma round_half_even_range q :
  round_half_even q = Qfloor q \/ round_half_even q = (Qfloor q + 1)%Z.
Proof.
  unfold round_half_even.
  destruct (Qcompare _ _); [destruct (Z.even _)|..]; auto.
Qed.

Lemma round_half_even_mono a b :
  a <= b -> (round_half_even a <= round_half_even b)%Z.
Proof.
  intros Hab.
  pose proof (Qfloor_resp_le _ _ Hab) as Hf.
  destruct (Z.eq_dec (Qfloor a) (Qfloor b)) as [E|NE].
  - unfold round_half_even. rewrite <- E.
    destruct (Qcompare_spec (a - inject_Z (Qfloor a)) (1#2)) as [Ea|La|Ga];
    destruct (Qcompare_spec (b - inject_Z (Qfloor a)) (1#2)) as [Eb|Lb|Gb];
    try destruct (Z.even (Qfloor a)); try lia; lra.
  - destruct (round_half_even_range a) as [-> | ->],
             (round_half_even_range b) as [-> | ->]; lia.
Qed.

Lemma round_half_even_inject z : round_half_even (inject_Z z) = z.
Proof.
  unfold round_half_even. rewrite Qfloor_Z.
  destruct (Qcompare_spec (inject_Z z - inject_Z z) (1#2)); try lra; reflexivity.
Qed.

Lemma scale_pos n : 0 < inject_Z (10 ^ Z.of_nat n).
Proof.
  replace 0 with (inject_Z 0) by reflexivity. rewrite <- Zlt_Qlt.
  apply Z.pow_pos_nonneg; lia.
Qed.

Lemma py_round_mono n a b : a <= b -> py_round n a <= py_round n b.
Proof.
  intros Hab. unfold py_round, Qdiv.
  pose proof (scale_pos n) as Hs.
  apply Qmult_le_compat_r.
  - rewrite <- Zle_Qle. apply round_half_even_mono.
    apply Qmult_le_compat_r; lra.
  - apply Qlt_le_weak, Qinv_lt_0_compat, Hs.
Qed.

Lemma py_round_comp n a b : a == b -> py_round n a == py_round n b.
Proof.
  intros E. apply Qle_antisym; apply py_round_mono; lra.
Qed.

Lemma py_round_inject n z : py_round n (inject_Z z) == inject_Z z.
Proof.
  unfold py_round. pose proof (scale_pos n) as Hs.
  assert (E : round_half_even (inject_Z z * inject_Z (10 ^ Z.of_nat n))
              = (z * 10 ^ Z.of_nat n)%Z).
  { rewrite <- (round_half_even_inject (z * 10 ^ Z.of_nat n)).
    apply Z.le_antisymm; apply round_half_even_mono;
      rewrite inject_Z_mult; lra. }
  rewrite E, inject_Z_mult. field. lra.
Qed.

Lemma py_round_nonneg n a : 0 <= a -> 0 <= py_round n a.
Proof.
  intros Ha. rewrite <- (py_round_inject n 0). now apply py_round_mono.
Qed.

Lemma py_round_floor a : 0.1 <= a -> 0.1 <= py_round 2 a.
Proof.
  intros Ha. assert (E : py_round 2 0.1 == 0.1) by reflexivity.
  rewrite <- E. now apply py_round_mono.
Qed.

(** * Facts about rounding to double precision *)

Lemma round_half_even_near q :
  q - (1 # 2) <= inject_Z (round_half_even q) <= q + (1 # 2).
Proof.
  unfold round_half_even.
  pose proof (Qfloor_le q) as Hlo. pose proof (Qlt_floor q) as Hhi.
  rewrite inject_Z_plus in Hhi. change (inject_Z 1) with 1 in Hhi.
  destruct (Qcompare (q - inject_Z (Qfloor q)) (1 # 2)) eqn:E.
  - apply Qeq_alt in E.
    destruct (Z.even (Qfloor q));
      [|rewrite inject_Z_plus; change (inject_Z 1) with 1]; lra.
  - apply Qlt_alt in E. lra.
  - apply Qgt_alt in E. rewrite inject_Z_plus. change (inject_Z 1) with 1. lra.
Qed.

Lemma pow2_pos e : 0 < 2 ^ e.
Proof. apply Qpower_0_lt. reflexivity. Qed.

Lemma Qeqb0_spec q : Qeqb0 q = true <-> q == 0.
Proof.
  unfold Qeqb0, Qeq. simpl. rewrite Z.eqb_eq. lia.
Qed.


Lemma scaled_bounds (A P nq dq aq bq : Q) :
  0 < nq -> 0 < dq -> 0 < aq -> 0 < bq -> 0 < P -> 0 < A ->
  aq <= nq -> nq < 2 * aq -> bq <= dq -> dq < 2 * bq ->
  A * dq == nq -> P * (inject_Z (2 ^ 52) * bq) == aq ->
  inject_Z (2 ^ 51) * P < A /\ A < inject_Z (2 ^ 53) * P.
Proof.
  intros Hn Hd Ha Hb HP HA Han Hna Hbd Hdb EA EP.
  change (inject_Z (2 ^ 52)) with 4503599627370496 in EP.
  change (inject_Z (2 ^ 51)) with 2251799813685248.
  change (inject_Z (2 ^ 53)) with 9007199254740992.
  split.
  - destruct (Qlt_le_dec (2251799813685248 * P) A) as [H|H]; [exact H|exfalso].
    assert (H1 : A * dq * (4503599627370496 * bq)
                 <= 2251799813685248 * P * dq * (4503599627370496 * bq)).
    { apply Qmult_le_compat_r; [|nra]. apply Qmult_le_compat_r; [exact H | lra]. }
    assert (H2 : 2251799813685248 * P * dq * (4503599627370496 * bq)
                 == 2251799813685248 * aq * dq) by (rewrite <- EP; ring).
    assert (H3 : aq * dq < aq * (2 * bq)).
    { rewrite !(Qmult_comm aq). apply Qmult_lt_compat_r; assumption. }
    assert (H4 : aq * bq <= nq * bq).
    { apply Qmult_le_compat_r; [assumption | lra]. }
    rewrite EA, H2 in H1. nra.
  - destruct (Qlt_le_dec A (9007199254740992 * P)) as [H|H]; [exact H|exfalso].
    assert (H1 : 9007199254740992 * P * dq * (4503599627370496 * bq)
                 <= A * dq * (4503599627370496 * bq)).
    { apply Qmult_le_compat_r; [|nra]. apply Qmult_le_compat_r; [exact H | lra]. }
    assert (H2 : 9007199254740992 * P * dq * (4503599627370496 * bq)
                 == 9007199254740992 * aq * dq) by (rewrite <- EP; ring).
    assert (H3 : nq * bq < 2 * aq * bq).
    { apply Qmult_lt_compat_r; assumption. }
    assert (H4 : aq * bq <= aq * dq).
    { rewrite !(Qmult_comm aq). apply Qmult_le_compat_r; [assumption | lra]. }
    rewrite EA, H2 in H1. nra.
Qed.
(** the scaled value has 53 binary digits *)
Lemma b64_significand q :
  ~ q == 0 ->
  inject_Z (2 ^ 52) <= Qabs q / 2 ^ b64_exponent q < inject_Z (2 ^ 53).
Proof.
  intros Hq. unfold b64_exponent.
  set (n := Z.abs (Qnum q)). set (d := Zpos (Qden q)).
  set (e := (Z.log2 n - Z.log2 d - 52)%Z).
  assert (Hn : (0 < n)%Z).
  { unfold n. assert (Qnum q <> 0)%Z; [|lia].
    intros E. apply Hq. unfold Qeq. simpl. lia. }
  assert (Hd : (0 < d)%Z) by (unfold d; lia).
  destruct (Z.log2_spec n Hn) as [Hn1 Hn2].
  destruct (Z.log2_spec d Hd) as [Hd1 Hd2].
  pose proof (Z.log2_nonneg n) as Hln. pose proof (Z.log2_nonneg d) as Hld.
  assert (Habs : Qabs q == inject_Z n / inject_Z d).
  { unfold Qabs, n, d. destruct q as [a b]. simpl. unfold Qeq, Qdiv, Qmult, Qinv.
    simpl. lia. }
  assert (H2 : ~ (2:Q) == 0) by (intros E; discriminate E).
  assert (HP : 2 ^ e * (inject_Z (2 ^ 52) * inject_Z (2 ^ Z.log2 d))
               == inject_Z (2 ^ Z.log2 n)).
  { unfold e. rewrite !Qpower_minus by exact H2.
    rewrite !Zpower_Qpower by lia.
    change (inject_Z 2) with (2:Q).
    field. apply Qpower_not_0; exact H2. }
  assert (Hpos : 0 < Qabs q).
  { rewrite Habs. apply Qlt_shift_div_l; [|rewrite Qmult_0_l];
      (replace 0 with (inject_Z 0) by reflexivity); rewrite <- Zlt_Qlt; lia. }
  destruct (scaled_bounds (Qabs q) (2 ^ e) (inject_Z n) (inject_Z d)
              (inject_Z (2 ^ Z.log2 n)) (inject_Z (2 ^ Z.log2 d)))
    as [F1 F2];
    try ((replace 0 with (inject_Z 0) by reflexivity); rewrite <- Zlt_Qlt; lia).
  - apply pow2_pos.
  - exact Hpos.
  - rewrite <- Zle_Qle. exact Hn1.
  - change 2 with (inject_Z 2). rewrite <- inject_Z_mult, <- Zlt_Qlt.
    rewrite Z.pow_succ_r in Hn2 by lia. exact Hn2.
  - rewrite <- Zle_Qle. exact Hd1.
  - change 2 with (inject_Z 2). rewrite <- inject_Z_mult, <- Zlt_Qlt.
    rewrite Z.pow_succ_r in Hd2 by lia. exact Hd2.
  - rewrite Habs. field. intros E.
    assert (inject_Z 0 < inject_Z d) by (rewrite <- Zlt_Qlt; lia).
    change (inject_Z 0) with 0 in *. lra.
  - exact HP.
  - pose proof (pow2_pos e) as Hpe.
    destruct (Qlt_le_dec (Qabs q) (inject_Z (2 ^ 52) * 2 ^ e)) as [Hlt|Hge].
    + assert (E1 : 2 ^ (e - 1) == 2 ^ e * (1 # 2)).
      { rewrite Qpower_minus by exact H2. reflexivity. }
      rewrite E1. clear E1 HP. set (P := 2 ^ e) in *. clearbody P.
      change (inject_Z (2 ^ 52)) with 4503599627370496 in *.
      change (inject_Z (2 ^ 51)) with 2251799813685248 in *.
      change (inject_Z (2 ^ 53)) with 9007199254740992 in *.
      split.
      * apply Qle_shift_div_l; lra.
      * apply Qlt_shift_div_r; lra.
    + split.
      * apply Qle_shift_div_l; [exact Hpe | exact Hge].
      * apply Qlt_shift_div_r; [exact Hpe | exact F2].
Qed.

Lemma b64_error q : Qabs (b64 q - q) <= b64_eps * Qabs q.
Proof.
  unfold b64. destruct (Qeqb0 q) eqn:E0.
  - apply Qeqb0_spec in E0. rewrite E0. vm_compute. discriminate.
  - assert (Hq : ~ q == 0).
    { intros E. apply Qeqb0_spec in E. congruence. }
    cbv zeta. pose proof (b64_significand q Hq) as [Hs _].
    set (u := 2 ^ b64_exponent q) in *.
    assert (Hu : 0 < u) by apply pow2_pos.
    pose proof (round_half_even_near (q / u)) as [Hlo Hhi].
    set (r := inject_Z (round_half_even (q / u))) in *.
    assert (Eq' : q == q / u * u) by (field; lra).
    assert (Hd : Qabs (r * u - q) == Qabs (r - q / u) * u).
    { transitivity (Qabs ((r - q / u) * u)).
      - apply Qabs_wd. field. lra.
      - rewrite Qabs_Qmult, (Qabs_pos u) by lra. reflexivity. }
    rewrite Hd.
    assert (Hr : Qabs (r - q / u) <= 1 # 2) by (apply Qabs_Qle_condition; lra).
    assert (Hau : Qabs q == Qabs q / u * u) by (field; lra).
    change (inject_Z (2 ^ 52)) with 4503599627370496 in Hs.
    assert (Hx : (1 # 2) * u <= b64_eps * (Qabs q / u) * u).
    { apply Qmult_le_compat_r; [|lra]. unfold b64_eps. lra. }
    rewrite Hau at 1.
    apply Qle_trans with ((1 # 2) * u).
    + apply Qmult_le_compat_r; [exact Hr | lra].
    + rewrite Qmult_assoc. exact Hx.
Qed.

Lemma b64_bounds q : 0 <= q -> q * (1 - b64_eps) <= b64 q <= q * (1 + b64_eps).
Proof.
  intros Hq. pose proof (b64_error q) as He.
  rewrite (Qabs_pos q) in He by exact Hq.
  apply Qabs_Qle_condition in He. lra.
Qed.

(** * Facts about the stable sorts *)

Section SortFacts.
Import Spec.
Context {A : Type} (key : A -> Q).

Lemma descending_cons x l :
  descending l -> Forall (fun y => y <= x) l -> descending (x :: l).
Proof. intros. now constructor. Qed.

Lemma descending_inv x l :
  descending (x :: l) -> descending l /\ Forall (fun y => y <= x) l.
Proof. intros Hd. inversion Hd; subst. auto. Qed.

Lemma in_insert_desc x y l : In y (insert_desc key x l) <-> y = x \/ In y l.
Proof.
  induction l as [|z l IH]; simpl.
  - intuition.
  - destruct (Qle_bool (key z) (key x)); simpl; [intuition|].
    rewrite IH. intuition.
Qed.

Lemma in_stable_sort_desc y l : In y (stable_sort_desc key l) <-> In y l.
Proof.
  induction l as [|x l IH]; simpl; [reflexivity|].
  rewrite in_insert_desc, IH. intuition.
Qed.

Lemma insert_desc_sorted x l :
  descending (map key l) -> descending (map key (insert_desc key x l)).
Proof.
  induction l as [|z l IH]; simpl; intros Hd.
  - repeat constructor.
  - apply descending_inv in Hd as [Hl Hz].
    destruct (Qle_bool (key z) (key x)) eqn:E; simpl.
    + apply Qle_bool_iff in E. apply descending_cons.
      * now apply descending_cons.
      * constructor; [exact E|].
        eapply List.Forall_impl; [|exact Hz]. simpl. intros; lra.
    + assert (Hlt : key x < key z).
      { apply Qnot_le_lt. intros Hc. apply Qle_bool_iff in Hc. congruence. }
      apply descending_cons; [auto|].
      apply List.Forall_forall. intros q Hq.
      apply in_map_iff in Hq as [y [<- Hy]].
      apply in_insert_desc in Hy as [-> | Hy]; [lra|].
      rewrite List.Forall_forall in Hz. apply Hz, in_map, Hy.
Qed.

Lemma stable_sort_desc_sorted l : descending (map key (stable_sort_desc key l)).
Proof.
  induction l as [|x l IH]; simpl; [constructor|].
  now apply insert_desc_sorted.
Qed.

(** a list already in descending order is left as it is *)
Lemma stable_sort_desc_id l :
  descending (map key l) -> stable_sort_desc key l = l.
Proof.
  induction l as [|x l IH]; simpl; [reflexivity|]. intros Hd.
  apply descending_inv in Hd as [Hl Hx]. rewrite (IH Hl).
  destruct l as [|y l]; [reflexivity|]. simpl.
  inversion Hx as [|? ? Hy _]; subst.
  apply Qle_bool_iff in Hy. now rewrite Hy.
Qed.

Lemma in_insert_asc x y l : In y (insert_asc key x l) <-> y = x \/ In y l.
Proof.
  induction l as [|z l IH]; simpl.
  - intuition.
  - destruct (Qle_bool (key x) (key z)); simpl; [intuition|].
    rewrite IH. intuition.
Qed.

Lemma in_stable_sort_asc y l : In y (stable_sort_asc key l) <-> In y l.
Proof.
  induction l as [|x l IH]; simpl; [reflexivity|].
  rewrite in_insert_asc, IH. intuition.
Qed.

Lemma insert_asc_sorted x l :
  ascending (map key l) -> ascending (map key (insert_asc key x l)).
Proof.
  induction l as [|z l IH]; simpl; intros Hd.
  - repeat constructor.
  - inversion Hd as [|? ? Hl Hz]; subst.
    destruct (Qle_bool (key x) (key z)) eqn:E; simpl.
    + apply Qle_bool_iff in E. constructor; [exact Hd|].
      constructor; [exact E|].
      eapply List.Forall_impl; [|exact Hz]. simpl. intros; lra.
    + assert (Hlt : key z < key x).
      { apply Qnot_le_lt. intros Hc. apply Qle_bool_iff in Hc. congruence. }
      constructor; [apply IH, Hl|].
      apply List.Forall_forall. intros q Hq.
      apply in_map_iff in Hq as [y [<- Hy]].
      apply in_insert_asc in Hy as [-> | Hy]; [lra|].
      rewrite List.Forall_forall in Hz. apply Hz, in_map, Hy.
Qed.

Lemma insert_asc_perm x l : Permutation (insert_asc key x l) (x :: l).
Proof.
  induction l as [|z l IH]; simpl; [reflexivity|].
  destruct (Qle_bool (key x) (key z)); [reflexivity|].
  rewrite IH. apply perm_swap.
Qed.

Lemma stable_sort_asc_perm l : Permutation (stable_sort_asc key l) l.
Proof.
  induction l as [|x l IH]; simpl; [constructor|].
  rewrite insert_asc_perm. now constructor.
Qed.

Lemma stable_sort_asc_sorted l : ascending (map key (stable_sort_asc key l)).
Proof.
  induction l as [|x l IH]; simpl; [constructor|].
  now apply insert_asc_sorted.
Qed.

End SortFacts.

Lemma in_firstn {A : Type} (x : A) n l : In x (firstn n l) -> In x l.
Proof.
  revert l. induction n as [|n IH]; intros [|y l]; simpl; intuition.
Qed.

Lemma in_skipn {A : Type} (x : A) n l : In x (skipn n l) -> In x l.
Proof.
  revert l. induction n as [|n IH]; intros [|y l]; simpl; intuition.
Qed.

Section OrderFacts.
Import Spec.

Lemma descending_snoc r x :
  descending r -> Forall (fun y => x <= y) r -> descending (r ++ [x]).
Proof.
  induction 1 as [|y r Hr IH Hy]; simpl; intros Hx.
  - repeat constructor.
  - inversion Hx as [|? ? Hxy Hxr]; subst.
    apply descending_cons; [auto|].
    apply List.Forall_app. split; [exact Hy|]. now repeat constructor.
Qed.

Lemma descending_rev l : ascending l -> descending (rev l).
Proof.
  induction 1 as [|x l Hl IH Hx]; simpl; [constructor|].
  apply descending_snoc; [exact IH|].
  apply List.Forall_forall. intros y Hy. apply in_rev in Hy.
  rewrite List.Forall_forall in Hx. auto.
Qed.

Lemma descending_skipn n l : descending l -> descending (skipn n l).
Proof.
  revert l. induction n as [|n IH]; intros l Hd; [exact Hd|].
  destruct l as [|x l]; [exact Hd|]. simpl.
  apply IH. now inversion Hd.
Qed.

Lemma descending_firstn n l : descending l -> descending (firstn n l).
Proof.
  revert l. induction n as [|n IH]; intros l Hd; [constructor|].
  destruct l as [|x l]; [constructor|]. simpl.
  apply descending_inv in Hd as [Hl Hx].
  apply descending_cons; [auto|].
  rewrite List.Forall_forall in *. intros y Hy. apply Hx.
  eapply in_firstn; eauto.
Qed.

Lemma descending_map_mono (f : Q -> Q) l :
  (forall a b, a <= b -> f a <= f b) ->
  descending l -> descending (map f l).
Proof.
  intros Hf. induction 1 as [|x l Hl IH Hx]; simpl; [constructor|].
  apply descending_cons; [exact IH|].
  rewrite List.Forall_forall in *. intros y Hy.
  apply in_map_iff in Hy as [z [<- Hz]]. auto.
Qed.

End OrderFacts.

(** * [_parse_price] *)

Module PriceFacts.
Import Price Spec.

Lemma has_char_remove_same c s : has_char c (remove_char c s) = false.
Proof.
  induction s as [|a s IH]; simpl; [reflexivity|].
  destruct (Ascii.eqb a c) eqn:E; simpl; [exact IH|]. now rewrite E.
Qed.

Lemma has_char_remove_other c d s :
  has_char c s = false -> has_char c (remove_char d s) = false.
Proof.
  induction s as [|a s IH]; simpl; [reflexivity|].
  intros Hs. apply orb_false_iff in Hs as [Ha Hs].
  destruct (Ascii.eqb a d); simpl; [auto|]. rewrite Ha. auto.
Qed.

Lemma has_char_lstrip c s : has_char c s = false -> has_char c (lstrip s) = false.
Proof.
  induction s as [|a s IH]; simpl; [reflexivity|].
  intros Hs. destruct (is_space a); [|exact Hs].
  apply orb_false_iff in Hs as [_ Hs]. auto.
Qed.

Lemma has_char_rstrip c s : has_char c s = false -> has_char c (rstrip s) = false.
Proof.
  induction s as [|a s IH]; simpl; [reflexivity|].
  intros Hs. apply orb_false_iff in Hs as [Ha Hs]. specialize (IH Hs).
  destruct (rstrip s) eqn:E.
  - destruct (is_space a); simpl; [reflexivity|]. now rewrite Ha.
  - simpl in *. now rewrite Ha.
Qed.

Lemma first_char_lstrip s : not_space (first_char (lstrip s)).
Proof.
  induction s as [|a s IH]; simpl; [exact I|].
  destruct (is_space a) eqn:E; [exact IH|]. exact E.
Qed.

Lemma first_char_rstrip s :
  not_space (first_char s) -> not_space (first_char (rstrip s)).
Proof.
  destruct s as [|a s]; simpl; [auto|].
  intros Ha. destruct (rstrip s); [rewrite Ha|]; exact Ha.
Qed.

Lemma last_char_rstrip s : not_space (last_char (rstrip s)).
Proof.
  induction s as [|a s IH]; simpl; [exact I|].
  destruct (rstrip s) as [|b t] eqn:E.
  - destruct (is_space a) eqn:Ea; simpl; [exact I | exact Ea].
  - exact IH.
Qed.

Lemma clean_price_shape s :
  has_char "$" (clean_price s) = false /\
  has_char "," (clean_price s) = false /\
  trimmed (clean_price s).
Proof.
  unfold clean_price, strip. repeat split.
  - apply has_char_rstrip, has_char_lstrip, has_char_remove_other,
      has_char_remove_same.
  - apply has_char_rstrip, has_char_lstrip, has_char_remove_same.
  - apply first_char_rstrip, first_char_lstrip.
  - apply last_char_rstrip.
Qed.

Section WithLibs.
Context `{Libs}.

Lemma float_of_int_in_range z :
  (Z.abs z < float_overflow_bound)%Z -> float_of_int z = Ok (Fin (inject_Z z)).
Proof.
  intros Hz. unfold float_of_int.
  destruct (Z.ltb_spec (Z.abs z) float_overflow_bound); [reflexivity | lia].
Qed.

Lemma parse_price_in_range (v : pyval) :
  in_float_range v -> exists r, _parse_price v = Ok r.
Proof.
  intros Hv. destruct v as [|b|z|f|s|l|d]; simpl in *; try (eexists; reflexivity).
  - destruct b; eexists; reflexivity.
  - rewrite (float_of_int_in_range z Hv). eexists. reflexivity.
  - destruct (String.eqb (clean_price s) ""); [eexists; reflexivity|].
    destruct (float_of_str (clean_price s)); eexists; reflexivity.
Qed.

Lemma parse_price_beyond_range z :
  (float_overflow_bound <= Z.abs z)%Z -> _parse_price (PInt z) = Raise OverflowError.
Proof.
  intros Hz. simpl. unfold float_of_int.
  destruct (Z.ltb_spec (Z.abs z) float_overflow_bound); [lia | reflexivity].
Qed.

End WithLibs.

(** C10.  [_parse_price] raises where the claim, and its own docstring
    ("or return None if invalid"), promise [None] or a float: on an int
    beyond the range of a double, 10^400 for one, [float(price_value)]
    raises [OverflowError], and the numeric path has no [try] around the
    conversion.  The string path has one, and on every other value the
    function returns. *)
Theorem parse_price_overflow :
  @_parse_price Examples.reference_libs (PInt (10 ^ 400)) = Raise OverflowError /\
  (forall (L : Libs) (z : Z),
     (float_overflow_bound <= Z.abs z)%Z ->
     @_parse_price L (PInt z) = Raise OverflowError) /\
  (forall (L : Libs) (v : pyval),
     in_float_range v -> exists r, @_parse_price L v = Ok r).
Proof.
  split; [vm_compute; reflexivity|]. split.
  - intros L z. apply parse_price_beyond_range.
  - intros L v. apply parse_price_in_range.
Qed.

End PriceFacts.

(** * More on [_parse_price]: what the cleaning step forgets *)

Module PriceMore.
Import Price Spec PriceFacts.

Lemma remove_char_app c s1 s2 :
  remove_char c (s1 ++ s2)%string = (remove_char c s1 ++ remove_char c s2)%string.
Proof.
  induction s1 as [|a s1 IH]; simpl; [reflexivity|].
  destruct (Ascii.eqb a c); simpl; now rewrite IH.
Qed.

Lemma remove_char_absent c s : has_char c s = false -> remove_char c s = s.
Proof.
  induction s as [|a s IH]; simpl; [reflexivity|].
  intros Hs. apply orb_false_iff in Hs as [-> Hs]. now rewrite IH.
Qed.

Lemma lstrip_fixed s : not_space (first_char s) -> lstrip s = s.
Proof. destruct s as [|a s]; simpl; [reflexivity|]. now intros ->. Qed.

Lemma rstrip_fixed s : not_space (last_char s) -> rstrip s = s.
Proof.
  induction s as [|a s IH]; [reflexivity|].
  destruct s as [|b s].
  - simpl. now intros ->.
  - intros Hs. change (last_char (String a (String b s)))
      with (last_char (String b s)) in Hs.
    change (rstrip (String a (String b s)))
      with (match rstrip (String b s) with
            | EmptyString => if is_space a then EmptyString else String a EmptyString
            | t => String a t
            end).
    now rewrite (IH Hs).
Qed.

Lemma clean_price_fixed s : clean_price (clean_price s) = clean_price s.
Proof.
  destruct (clean_price_shape s) as (Hd & Hc & Hf & Hl).
  unfold clean_price at 1.
  rewrite (remove_char_absent _ _ Hd), (remove_char_absent _ _ Hc).
  unfold strip. now rewrite (lstrip_fixed _ Hf), (rstrip_fixed _ Hl).
Qed.

Lemma clean_price_drops_dollar s1 s2 :
  clean_price (s1 ++ String "$" s2) = clean_price (s1 ++ s2).
Proof.
  unfold clean_price. rewrite !remove_char_app. reflexivity.
Qed.

Lemma clean_price_drops_comma s1 s2 :
  clean_price (s1 ++ String "," s2) = clean_price (s1 ++ s2).
Proof.
  unfold clean_price. rewrite !remove_char_app. reflexivity.
Qed.

Section WithLibs.
Context `{Libs}.

Lemma parse_price_by_cleaned s t :
  clean_price s = clean_price t -> _parse_price (PStr s) = _parse_price (PStr t).
Proof. intros E. simpl. now rewrite E. Qed.

(** X14.  [_parse_price] on text depends on the cleaned text only: a
    dollar sign or a comma is ignored wherever it stands, also in the
    middle of the digits, and a text that was already cleaned parses to
    the same result as the original. *)
Theorem parse_price_ignores_symbols s1 s2 :
  _parse_price (PStr (s1 ++ String "$" s2)) = _parse_price (PStr (s1 ++ s2)) /\
  _parse_price (PStr (s1 ++ String "," s2)) = _parse_price (PStr (s1 ++ s2)) /\
  _parse_price (PStr (clean_price (s1 ++ s2))) = _parse_price (PStr (s1 ++ s2)).
Proof.
  repeat split; apply parse_price_by_cleaned.
  - apply clean_price_drops_dollar.
  - apply clean_price_drops_comma.
  - apply clean_price_fixed.
Qed.

End WithLibs.
End PriceMore.

(** * The recommenders *)

Module RecommenderFacts.
Import Recommender Spec.

(** closes the goal of a guard that answers the empty list *)
Ltac returns_empty := intros E; inversion E; constructor.

Lemma bind_ok {A B : Type} (m : result A) (k : A -> result B) (b : B) :
  m ≫= k = Ok b -> exists a, m = Ok a /\ k a = Ok b.
Proof. destruct m as [a|e]; simpl; [eauto | discriminate]. Qed.

Lemma truthy_not_null v : truthy v = true -> v <> PNone /\ v <> PStr "".
Proof. intros Hv. split; intros ->; discriminate. Qed.

Lemma descending_filter {A : Type} (f : A -> Q) (p : A -> bool) l :
  descending (map f l) -> descending (map f (List.filter p l)).
Proof.
  induction l as [|x l IH]; simpl; intros Hd; [constructor|].
  apply descending_inv in Hd as [Hl Hx].
  destruct (p x); simpl; [|auto].
  apply descending_cons; [auto|].
  rewrite List.Forall_forall in *. intros y Hy.
  apply in_map_iff in Hy as [z [<- Hz]].
  apply List.filter_In in Hz as [Hz _]. apply Hx, in_map, Hz.
Qed.

Lemma descending_of_ascending (f : Q -> Q) l :
  (forall a b, a <= b -> f b <= f a) ->
  ascending l -> descending (map f l).
Proof.
  intros Hf. induction 1 as [|x l Hl IH Hx]; simpl; [constructor|].
  apply descending_cons; [exact IH|].
  rewrite List.Forall_forall in *. intros y Hy.
  apply in_map_iff in Hy as [z [<- Hz]]. auto.
Qed.

Lemma ascending_skipn n l : ascending l -> ascending (skipn n l).
Proof.
  revert l. induction n as [|n IH]; intros l Hd; [exact Hd|].
  destruct l as [|x l]; [exact Hd|]. simpl.
  apply IH. now inversion Hd.
Qed.

Lemma ascending_firstn n l : ascending l -> ascending (firstn n l).
Proof.
  revert l. induction n as [|n IH]; intros l Hd; [constructor|].
  destruct l as [|x l]; [constructor|]. simpl.
  inversion Hd as [|? ? Hl Hx]; subst.
  constructor; [apply IH, Hl|].
  rewrite List.Forall_forall in *. intros y Hy. apply Hx.
  eapply in_firstn; eauto.
Qed.

Lemma in_combine_seq (l : list Q) s i v :
  In (i, v) (combine (seq s (length l)) l) ->
  (s <= i)%nat /\ nth_error l (i - s) = Some v.
Proof.
  revert s. induction l as [|x l IH]; simpl; intros s Hin; [contradiction|].
  destruct Hin as [E | Hin].
  - inversion E; subst. rewrite Nat.sub_diag. auto.
  - apply IH in Hin as [Hs Hn]. split; [lia|].
    replace (i - s)%nat with (S (i - S s)) by lia. exact Hn.
Qed.

(** the reference [argsort] meets both halves of numpy's contract *)
Lemma insertion_argsort_sorts (a : list Q) :
  ascending (map (fun i => nth i a 0) (Examples.insertion_argsort a)).
Proof.
  unfold Examples.insertion_argsort. rewrite map_map.
  erewrite map_ext_in; [apply (stable_sort_asc_sorted snd)|].
  intros [i v] Hin. simpl.
  apply in_stable_sort_asc, in_combine_seq in Hin as [_ Hn].
  rewrite Nat.sub_0_r in Hn. now apply nth_error_nth.
Qed.

Lemma insertion_argsort_permutes (a : list Q) :
  Permutation (Examples.insertion_argsort a) (seq 0 (length a)).
Proof.
  unfold Examples.insertion_argsort.
  rewrite (stable_sort_asc_perm snd).
  generalize 0%nat. induction a as [|x a IH]; intros s; simpl; [constructor|].
  constructor. apply IH.
Qed.

Section WithLibs.
Context `{Libs}.

(** a price that enrichment stored is read back unchanged *)
Lemma parse_price_of_price p : Price._parse_price (price_as_py p) = Ok p.
Proof. destruct p; reflexivity. Qed.

(** what [_enrich_recommendations] returns, when it returns *)
Lemma enrich_ok svc recs l :
  _enrich_recommendations svc recs = Ok l ->
  map asin l = map c_asin (List.filter (image_resolves svc) recs) /\
  map value l = map c_similarity (List.filter (image_resolves svc) recs) /\
  Forall (fun it => truthy (image_url it) = true /\ key it = similarity_key) l.
Proof.
  revert l. induction recs as [|rec rest IH]; simpl; intros l Hl.
  - inversion Hl; subst. simpl. auto.
  - apply bind_ok in Hl as (details & Hd & Hl).
    apply bind_ok in Hl as (tail & Ht & Hl).
    destruct (IH tail Ht) as (Ha & Hv & Hf).
    assert (Hr : image_resolves svc rec = truthy (d_image_url details))
      by (unfold image_resolves; now rewrite Hd).
    rewrite Hr.
    destruct (truthy (d_image_url details)) eqn:E;
      inversion Hl; subst; simpl; [|auto].
    rewrite Ha, Hv. repeat split. constructor; auto.
Qed.

Lemma enrich_descending svc recs l :
  _enrich_recommendations svc recs = Ok l ->
  descending (map c_similarity recs) -> descending (map value l).
Proof.
  intros Hl Hd. apply enrich_ok in Hl as (_ & -> & _).
  now apply descending_filter.
Qed.

Lemma collaborative_descending svc a n l :
  knn_ascending svc ->
  get_collaborative_recommendations svc a n = Ok l ->
  descending (map value l).
Proof.
  intros Hknn. unfold get_collaborative_recommendations.
  destruct (knn_model svc) as [knn|] eqn:Ek;
    [|returns_empty].
  destruct (item_user_matrix svc) as [m|];
    [|returns_empty].
  destruct (mappings svc) as [maps|];
    [|returns_empty].
  destruct (product_to_idx maps !! a) as [idx|];
    [|returns_empty].
  intros Hl. apply bind_ok in Hl as (row & _ & Hl).
  apply bind_ok in Hl as (neighbours & Hn & Hl).
  apply (enrich_descending _ _ _ Hl).
  rewrite map_map.
  erewrite map_ext with (g := fun p => py_round 3 (1 - fst p));
    [|intros [d i]; reflexivity].
  rewrite <- (map_map fst (fun d => py_round 3 (1 - d))).
  apply descending_of_ascending.
  - intros x y Hxy. apply py_round_mono. lra.
  - rewrite <- skipn_map. apply ascending_skipn. eapply Hknn; eauto.
Qed.

Lemma content_descending svc a n l :
  argsort_sorts ->
  get_content_recommendations svc a n = Ok l ->
  descending (map value l).
Proof.
  intros Hsort. unfold get_content_recommendations.
  destruct (tfidf_matrix svc) as [m|];
    [|returns_empty].
  destruct (mappings svc) as [maps|];
    [|returns_empty].
  destruct (cb_product_to_idx maps !! a) as [idx|];
    [|returns_empty].
  intros Hl. apply bind_ok in Hl as (row & _ & Hl).
  apply (enrich_descending _ _ _ Hl).
  rewrite map_map. simpl.
  rewrite <- (map_map (fun i => nth i (map (cosine row) m) 0) (py_round 3)).
  apply descending_map_mono; [apply py_round_mono|].
  rewrite <- firstn_map, <- skipn_map, map_rev.
  apply descending_firstn, descending_skipn, descending_rev, Hsort.
Qed.

(** what the last loop of the hybrid recommender returns *)
Lemma hybrid_results_ok product_data sorted_recs :
  exists l,
    hybrid_results product_data sorted_recs = Ok l /\
    map asin l = map fst (List.filter (shown product_data) sorted_recs) /\
    map value l = map (fun e => py_round 3 (snd e))
                      (List.filter (shown product_data) sorted_recs) /\
    Forall (fun it => truthy (image_url it) = true /\ key it = score_key) l.
Proof.
  induction sorted_recs as [|[a score] rest (l & Hl & Ha & Hv & Hf)]; simpl.
  - exists []. auto.
  - assert (Hs : shown product_data (a, score)
                 = match product_data !! a with
                   | Some data => truthy (image_url data)
                   | None => false
                   end) by reflexivity.
    rewrite Hs.
    destruct (product_data !! a) as [data|]; [|eauto].
    destruct (truthy (image_url data)) eqn:E; [|eauto].
    rewrite parse_price_of_price. simpl. rewrite Hl. simpl.
    eexists. split; [reflexivity|]. simpl. rewrite Ha, Hv.
    repeat split. constructor; auto.
Qed.

Lemma hybrid_descending svc a n w l :
  knn_ascending svc -> argsort_sorts ->
  get_hybrid_recommendations svc a n w = Ok l ->
  descending (map value l).
Proof.
  intros Hknn Hsort Hl. unfold get_hybrid_recommendations in Hl.
  apply bind_ok in Hl as (cf_recs & Hcf & Hl).
  apply bind_ok in Hl as (cb_recs & Hcb & Hl).
  apply collaborative_descending in Hcf; [|exact Hknn].
  apply content_descending in Hcb; [|exact Hsort].
  destruct cf_recs as [|c cf], cb_recs as [|b cb].
  - inversion Hl. constructor.
  - inversion Hl; subst. rewrite <- firstn_map. now apply descending_firstn.
  - inversion Hl; subst. rewrite <- firstn_map. now apply descending_firstn.
  - destruct (fuse (c :: cf) (b :: cb) w) as [scores product_data].
    destruct (hybrid_results_ok product_data
                (firstn n (stable_sort_desc snd scores)))
      as (l' & Hl' & _ & Hv & _).
    rewrite Hl' in Hl. inversion Hl; subst l'. rewrite Hv.
    apply descending_filter.
    rewrite <- (map_map snd (py_round 3)).
    apply descending_map_mono; [apply py_round_mono|].
    rewrite <- firstn_map.
    apply descending_firstn, stable_sort_desc_sorted.
Qed.

(** C9.  When the nearest-neighbour index lists neighbours by increasing
    distance and [argsort] sorts, as both libraries document, every list a
    recommender returns (collaborative, content or hybrid) carries its
    similarity or combined scores in descending order, enrichment having
    removed candidates or not. *)
Theorem returned_scores_descending svc a n w :
  knn_ascending svc -> argsort_sorts ->
  (forall l, get_collaborative_recommendations svc a n = Ok l ->
             descending (map value l)) /\
  (forall l, get_content_recommendations svc a n = Ok l ->
             descending (map value l)) /\
  (forall l, get_hybrid_recommendations svc a n w = Ok l ->
             descending (map value l)).
Proof.
  intros Hknn Hsort. repeat split; intros l Hl.
  - eapply collaborative_descending; eauto.
  - eapply content_descending; eauto.
  - eapply hybrid_descending; eauto.
Qed.

End WithLibs.

Lemma brute_knn_ascending m : forall row k res,
  Examples.brute_knn m row k = Ok res -> ascending (map fst res).
Proof.
  intros row k res. unfold Examples.brute_knn.
  destruct (length m <? k)%nat; [discriminate|].
  intros E. inversion E; subst. rewrite <- firstn_map.
  apply ascending_firstn. apply (stable_sort_asc_sorted fst).
Qed.

Lemma shop_knn_ascending : knn_ascending Examples.shop.
Proof.
  intros knn row k res Hk. simpl in Hk. inversion Hk; subst.
  apply brute_knn_ascending.
Qed.

(** C9 on the sample shop: the three lists for product A. *)
Lemma returned_scores_descending_witness :
  knn_ascending Examples.shop /\
  @argsort_sorts Examples.reference_libs /\
  (exists l, @get_collaborative_recommendations Examples.reference_libs
               Examples.shop "A" 2 = Ok l /\
             length l <> 0%nat /\ descending (map value l)) /\
  (exists l, @get_content_recommendations Examples.reference_libs
               Examples.shop "A" 2 = Ok l /\
             length l <> 0%nat /\ descending (map value l)) /\
  (exists l, @get_hybrid_recommendations Examples.reference_libs
               Examples.shop "A" 2 0.6 = Ok l /\
             descending (map value l)).
Proof.
  split; [exact shop_knn_ascending|].
  split; [exact insertion_argsort_sorts|].
  destruct (@returned_scores_descending Examples.reference_libs
              Examples.shop "A" 2%nat 0.6 shop_knn_ascending
              insertion_argsort_sorts)
    as (Hcf & Hcb & Hhy).
  repeat split.
  - eexists. split; [vm_compute; reflexivity|].
    split; [discriminate|]. apply Hcf. vm_compute. reflexivity.
  - eexists. split; [vm_compute; reflexivity|].
    split; [discriminate|]. apply Hcb. vm_compute. reflexivity.
  - destruct (@get_hybrid_recommendations Examples.reference_libs
                Examples.shop "A" 2 0.6) as [l|e] eqn:E.
    + exists l. split; [reflexivity|]. now apply Hhy.
    + vm_compute in E. discriminate.
Defined.

(** C8.  Enrichment returns exactly the candidates for which the catalog
    resolves an image, in their order, so every returned item carries a
    non-null, non-empty image reference and the list may be shorter than
    the candidate list; on the sample shop two neighbours of A are found
    and one is returned, without any exception. *)
Theorem enrichment_drops_imageless :
  (forall (L : Libs) svc recs l,
      @_enrich_recommendations L svc recs = Ok l ->
      map asin l = map c_asin (List.filter (@image_resolves L svc) recs) /\
      Forall (fun it => image_url it <> PNone /\ image_url it <> PStr "") l /\
      (length l <= length recs)%nat) /\
  (exists neighbours l,
      Examples.brute_knn Examples.interactions [1; 1; 0; 0] 3%nat = Ok neighbours /\
      length (skipn 1 neighbours) = 2%nat /\
      @get_collaborative_recommendations Examples.reference_libs
        Examples.shop "A" 2 = Ok l /\
      length l = 1%nat).
Proof.
  split.
  - intros L svc recs l Hl.
    apply enrich_ok in Hl as (Ha & _ & Hf).
    split; [exact Ha|]. split.
    + eapply List.Forall_impl; [|exact Hf].
      intros it [Hi _]. now apply truthy_not_null.
    + rewrite <- (length_map asin l), Ha, length_map.
      apply List.filter_length_le.
  - eexists. eexists. split; [vm_compute; reflexivity|].
    split; [reflexivity|]. split; [vm_compute; reflexivity|]. reflexivity.
Qed.

(** ** Two products with one text vector *)

Lemma twins_details (L : Libs) name :
  name = "A" \/ name = "B" ->
  exists d, @get_product_details L Examples.twins name = Ok d /\
            truthy (d_image_url d) = true.
Proof.
  assert (Hp : exists p, Price._parse_price (PStr "$13.99") = Ok p).
  { unfold Price._parse_price.
    replace (Price.clean_price "$13.99") with "13.99" by (vm_compute; reflexivity).
    cbn. destruct (float_of_str "13.99"); eexists; reflexivity. }
  destruct Hp as [p Hp].
  intros [-> | ->]; unfold get_product_details.
  - replace (product_metadata Examples.twins !! "A")
      with (Some [("title", PStr "item"); ("price", PStr "$13.99");
                  ("imageURLHighRes", PList [PStr "a.jpg"])])
      by (vm_compute; reflexivity).
    replace (dict_get _ "price" PNone) with (PStr "$13.99") by reflexivity.
    rewrite Hp. eexists. split; reflexivity.
  - replace (product_metadata Examples.twins !! "B")
      with (Some [("title", PStr "item"); ("price", PStr "$13.99");
                  ("imageURLHighRes", PList [PStr "b.jpg"])])
      by (vm_compute; reflexivity).
    replace (dict_get _ "price" PNone) with (PStr "$13.99") by reflexivity.
    rewrite Hp. eexists. split; reflexivity.
Qed.

(** whichever position survives the slice, its product is returned *)
Lemma twins_content (L : Libs) (q : string) (i j k : nat) name :
  cb_product_to_idx Examples.twins_maps !! q = Some i ->
  (i < 2)%nat ->
  argsort [cosine [1; 0] [1; 0]; cosine [1; 0] [1; 0]] = [k; j] ->
  (k = 0%nat /\ name = "A") \/ (k = 1%nat /\ name = "B") ->
  exists l, @get_content_recommendations L Examples.twins q 1 = Ok l /\
            map asin l = [name].
Proof.
  intros Hq Hi Hsort Hj. unfold get_content_recommendations.
  change (tfidf_matrix Examples.twins) with (Some [[1; 0]; [1; 0]]).
  change (mappings Examples.twins) with (Some Examples.twins_maps).
  cbn beta iota. rewrite Hq.
  assert (Hrow : matrix_row [[1; 0]; [1; 0]] i = Ok [1; 0]).
  { destruct i as [|[|i]]; [reflexivity | reflexivity | lia]. }
  rewrite Hrow. cbn [mbind result_bind rbind map].
  rewrite Hsort. cbn [rev app skipn firstn map].
  assert (Hname : cb_idx_to_product Examples.twins_maps !! str_of_nat k
                  = Some name).
  { destruct Hj as [[-> ->] | [-> ->]]; vm_compute; reflexivity. }
  rewrite Hname. cbn [default from_option _enrich_recommendations c_asin].
  unfold id.
  destruct (twins_details L name) as (d & Hd & Himg).
  { destruct Hj as [[_ ->] | [_ ->]]; auto. }
  rewrite Hd. cbn [mbind result_bind rbind]. rewrite Himg.
  eexists. split; reflexivity.
Qed.

(** C1 at its failing input.  Products A and B have the same text vector,
    so whatever [cosine] computes, the two similarities tie.  Whatever
    order [argsort] gives the tie, one of the two products is recommended
    to itself; with the stable order of the reference instance it is A. *)
Theorem content_returns_query_on_tie :
  (forall L : Libs, @argsort_permutes L ->
     (exists l, @get_content_recommendations L Examples.twins "A" 1 = Ok l /\
                map asin l = ["A"]) \/
     (exists l, @get_content_recommendations L Examples.twins "B" 1 = Ok l /\
                map asin l = ["B"])) /\
  (exists l, @get_content_recommendations Examples.reference_libs
               Examples.twins "A" 1 = Ok l /\
             map asin l = ["A"]).
Proof.
  split.
  - intros L Hperm.
    set (c := cosine [1; 0] [1; 0]).
    pose proof (Hperm [c; c]) as Hp. simpl in Hp.
    apply Permutation_sym, Permutation_length_2_inv in Hp as [Hp | Hp].
    + left. apply (twins_content L "A" 0 1 0 "A");
        [vm_compute; reflexivity | lia | exact Hp | auto].
    + right. apply (twins_content L "B" 1 0 1 "B");
        [vm_compute; reflexivity | lia | exact Hp | auto].
  - eexists. split; [vm_compute; reflexivity | reflexivity].
Qed.

(** ** When the query is ranked first

    Away from ties the positional skip does exclude the query. *)

Section WithLibs.
Context `{Libs}.

Lemma enrich_asins svc recs l a :
  _enrich_recommendations svc recs = Ok l ->
  In a (map asin l) -> In a (map c_asin recs).
Proof.
  intros Hl Ha. apply enrich_ok in Hl as (E & _ & _). rewrite E in Ha.
  apply in_map_iff in Ha as (r & <- & Hr).
  apply List.filter_In in Hr as [Hr _]. now apply in_map.
Qed.

Lemma nth_of_map (f : list Q -> Q) (m : list (list Q)) j r :
  nth_error m j = Some r -> nth j (map f m) 0 = f r.
Proof.
  intros Hj. apply nth_error_nth. rewrite nth_error_map, Hj. reflexivity.
Qed.

(** the content recommender leaves the query out when its self-similarity
    is strictly the largest entry and no other row is mapped to its ID *)
Lemma content_excludes_dominant_query svc m maps a idx n l :
  argsort_permutes -> argsort_sorts ->
  tfidf_matrix svc = Some m -> mappings svc = Some maps ->
  cb_product_to_idx maps !! a = Some idx ->
  a <> "" ->
  (forall j row rowj,
      nth_error m idx = Some row -> nth_error m j = Some rowj -> j <> idx ->
      cosine row rowj < cosine row row) ->
  (forall j, (j < length m)%nat ->
      cb_idx_to_product maps !! str_of_nat j = Some a -> j = idx) ->
  get_content_recommendations svc a n = Ok l ->
  ~ In a (map asin l).
Proof.
  intros Hperm Hsort Hm Hmaps Hidx Hne Hdom Hinj Hl Hin.
  unfold get_content_recommendations in Hl. rewrite Hm, Hmaps, Hidx in Hl.
  apply bind_ok in Hl as (row & Hrow & Hl).
  unfold matrix_row in Hrow.
  destruct (nth_error m idx) as [row'|] eqn:Eidx; [|discriminate].
  inversion Hrow; subst row'; clear Hrow.
  set (sims := map (cosine row) m) in *.
  pose proof (Hperm sims) as Hp.
  assert (Hlen : length sims = length m) by apply length_map.
  assert (Hrange : forall j, In j (argsort sims) -> (j < length m)%nat).
  { intros j Hj. apply (Permutation_in _ Hp), in_seq in Hj. lia. }
  apply (enrich_asins _ _ _ _ Hl) in Hin.
  rewrite map_map in Hin. simpl in Hin.
  apply in_map_iff in Hin as (j & Hj & Hjin).
  apply in_firstn in Hjin.
  assert (Hjr : In j (rev (argsort sims))) by (eapply in_skipn; eauto).
  assert (j = idx) as ->.
  { apply Hinj; [apply Hrange, in_rev, Hjr|].
    destruct (cb_idx_to_product maps !! str_of_nat j) as [x|];
      simpl in Hj; congruence. }
  pose proof (descending_rev _ (Hsort sims)) as Hdesc.
  rewrite <- map_rev in Hdesc.
  assert (Hnd : List.NoDup (rev (argsort sims))).
  { apply (Permutation_NoDup (l := seq 0 (length sims))); [|apply seq_NoDup].
    rewrite <- (Permutation_rev (argsort sims)). now apply Permutation_sym. }
  destruct (rev (argsort sims)) as [|x r] eqn:Er; [contradiction|].
  simpl in Hjin, Hdesc.
  apply descending_inv in Hdesc as [_ Hx].
  apply List.NoDup_cons_iff in Hnd as [Hxr _].
  assert (Hxi : x <> idx) by (intros ->; contradiction).
  assert (Hxm : (x < length m)%nat).
  { apply Hrange, in_rev. rewrite Er. now left. }
  destruct (nth_error m x) as [rowx|] eqn:Ex;
    [|apply nth_error_None in Ex; lia].
  rewrite List.Forall_forall in Hx.
  specialize (Hx (nth idx sims 0) (in_map (fun i => nth i sims 0) _ _ Hjin)).
  unfold sims in Hx.
  rewrite (nth_of_map _ _ _ _ Eidx), (nth_of_map _ _ _ _ Ex) in Hx.
  specialize (Hdom x row rowx eq_refl Ex Hxi). lra.
Qed.

(** the collaborative recommender leaves the query out when the index
    answers with the query row first and nowhere else, and no other row is
    mapped to its ID *)
Lemma collaborative_excludes_first_query svc knn maps a idx n l :
  knn_model svc = Some knn -> mappings svc = Some maps ->
  product_to_idx maps !! a = Some idx ->
  a <> "" ->
  (forall row k res d j, knn row k = Ok res -> In (d, j) (skipn 1 res) -> j <> idx) ->
  (forall j, idx_to_product maps !! str_of_nat j = Some a -> j = idx) ->
  get_collaborative_recommendations svc a n = Ok l ->
  ~ In a (map asin l).
Proof.
  intros Hk Hmaps Hidx Hne Hfirst Hinj Hl Hin.
  unfold get_collaborative_recommendations in Hl. rewrite Hk, Hmaps in Hl.
  destruct (item_user_matrix svc) as [m|]; [|inversion Hl; subst; contradiction].
  rewrite Hidx in Hl.
  apply bind_ok in Hl as (row & _ & Hl).
  apply bind_ok in Hl as (neighbours & Hn & Hl).
  apply (enrich_asins _ _ _ _ Hl) in Hin.
  rewrite map_map in Hin.
  apply in_map_iff in Hin as ([d j] & Hj & Hjin). simpl in Hj.
  apply (Hfirst _ _ _ _ _ Hn Hjin), Hinj.
  destruct (idx_to_product maps !! str_of_nat j) as [x|]; simpl in Hj; congruence.
Qed.

End WithLibs.

(** ** The fused scores *)

Lemma scores_get_set_same scores a v :
  scores_get (scores_set scores a v) a = Some v.
Proof.
  induction scores as [|[b s] rest IH]; simpl.
  - now rewrite String.eqb_refl.
  - destruct (String.eqb b a) eqn:E; simpl; rewrite E; auto.
Qed.

Lemma scores_get_set_other scores a b v :
  a <> b -> scores_get (scores_set scores a v) b = scores_get scores b.
Proof.
  intros Hab. induction scores as [|[c s] rest IH]; simpl.
  - apply String.eqb_neq in Hab. now rewrite Hab.
  - destruct (String.eqb c a) eqn:E; simpl.
    + apply String.eqb_eq in E. subst c.
      apply String.eqb_neq in Hab. now rewrite Hab.
    + destruct (String.eqb c b); auto.
Qed.

Lemma add_cf_scores w st rec :
  fst (add_cf w st rec)
  = scores_set (fst st) (asin rec) (item_similarity rec * w).
Proof. destruct st. reflexivity. Qed.

Lemma add_cb_scores w st rec :
  fst (add_cb w st rec)
  = scores_set (fst st) (asin rec)
      (match scores_get (fst st) (asin rec) with
       | Some s => s + item_similarity rec * w
       | None => item_similarity rec * w
       end).
Proof. destruct st as [scores pd]. simpl. now destruct (scores_get _ _). Qed.

(** the collaborative loop on distinct product IDs *)
Lemma cf_loop_scores w cf : List.NoDup (map asin cf) -> forall st,
  (forall r, In r cf ->
     scores_get (fst (fold_left (add_cf w) cf st)) (asin r)
     = Some (item_similarity r * w)) /\
  (forall a, ~ In a (map asin cf) ->
     scores_get (fst (fold_left (add_cf w) cf st)) a = scores_get (fst st) a).
Proof.
  induction cf as [|r cf IH]; simpl; intros Hnd st.
  - split; [contradiction | reflexivity].
  - apply List.NoDup_cons_iff in Hnd as [Hr Hnd].
    destruct (IH Hnd (add_cf w st r)) as [Hin Hout]. split.
    + intros r' [<- | Hr']; [|auto].
      rewrite (Hout _ Hr), add_cf_scores. apply scores_get_set_same.
    + intros a Ha. rewrite Hout by tauto.
      rewrite add_cf_scores. apply scores_get_set_other. tauto.
Qed.

(** the content loop on distinct product IDs *)
Lemma cb_loop_scores w cb : List.NoDup (map asin cb) -> forall st,
  (forall r, In r cb ->
     scores_get (fst (fold_left (add_cb w) cb st)) (asin r)
     = Some (match scores_get (fst st) (asin r) with
             | Some s => s + item_similarity r * w
             | None => item_similarity r * w
             end)) /\
  (forall a, ~ In a (map asin cb) ->
     scores_get (fst (fold_left (add_cb w) cb st)) a = scores_get (fst st) a).
Proof.
  induction cb as [|r cb IH]; simpl; intros Hnd st.
  - split; [contradiction | reflexivity].
  - apply List.NoDup_cons_iff in Hnd as [Hr Hnd].
    destruct (IH Hnd (add_cb w st r)) as [Hin Hout]. split.
    + intros r' [<- | Hr'].
      * rewrite (Hout _ Hr), add_cb_scores. apply scores_get_set_same.
      * rewrite (Hin _ Hr'), add_cb_scores.
        rewrite scores_get_set_other; [reflexivity|].
        intros E. apply Hr. rewrite E. now apply in_map.
    + intros a Ha. rewrite Hout by tauto.
      rewrite add_cb_scores. apply scores_get_set_other. tauto.
Qed.

(** C3.  With distinct product IDs inside each list, the fused score of a
    product found in both lists is cfWeight*simCF + (1-cfWeight)*simCB; the
    score of a product found only in the collaborative list is its
    similarity times cfWeight, and of one found only in the content list
    its similarity times 1-cfWeight. *)
Theorem hybrid_score_formula (cf cb : list Item) (w : Q) (a : string) :
  List.NoDup (map asin cf) -> List.NoDup (map asin cb) ->
  (forall rcf rcb, In rcf cf -> In rcb cb -> asin rcf = a -> asin rcb = a ->
     exists s, scores_get (hybrid_scores cf cb w) a = Some s /\
               s == w * item_similarity rcf + (1 - w) * item_similarity rcb) /\
  (forall rcf, In rcf cf -> asin rcf = a -> ~ In a (map asin cb) ->
     exists s, scores_get (hybrid_scores cf cb w) a = Some s /\
               s == item_similarity rcf * w) /\
  (forall rcb, In rcb cb -> asin rcb = a -> ~ In a (map asin cf) ->
     exists s, scores_get (hybrid_scores cf cb w) a = Some s /\
               s == item_similarity rcb * (1 - w)).
Proof.
  intros Hcf Hcb. unfold hybrid_scores, fuse.
  set (st := fold_left (add_cf w) cf ([], ∅)).
  destruct (cf_loop_scores w cf Hcf ([], ∅)) as [Hcf_in Hcf_out].
  destruct (cb_loop_scores (1 - w) cb Hcb st) as [Hcb_in Hcb_out].
  fold st in Hcf_in, Hcf_out.
  split; [|split].
  - intros rcf rcb Hf Hb <- Ea.
    rewrite <- Ea, (Hcb_in _ Hb), Ea, (Hcf_in _ Hf).
    eexists. split; [reflexivity|]. ring.
  - intros rcf Hf <- Hb.
    rewrite (Hcb_out _ Hb), (Hcf_in _ Hf).
    eexists. split; [reflexivity|]. reflexivity.
  - intros rcb Hb <- Hf.
    rewrite (Hcb_in _ Hb), (Hcf_out _ Hf). simpl.
    eexists. split; [reflexivity|]. reflexivity.
Qed.

(** C3 on sample lists: B is in both lists, F only in the collaborative
    one, E only in the content one. *)
Lemma hybrid_score_formula_witness :
  List.NoDup (map asin Examples.sample_cf) /\
  List.NoDup (map asin Examples.sample_cb) /\
  (exists s, scores_get (hybrid_scores Examples.sample_cf Examples.sample_cb 0.6) "B"
             = Some s /\ s == 0.6 * 0.816 + (1 - 0.6) * 0.8) /\
  (exists s, scores_get (hybrid_scores Examples.sample_cf Examples.sample_cb 0.6) "F"
             = Some s /\ s == 0.5 * 0.6) /\
  (exists s, scores_get (hybrid_scores Examples.sample_cf Examples.sample_cb 0.6) "E"
             = Some s /\ s == 0.913 * (1 - 0.6)).
Proof.
  assert (Hcf : List.NoDup (map asin Examples.sample_cf)).
  { simpl. repeat constructor; simpl; intuition discriminate. }
  assert (Hcb : List.NoDup (map asin Examples.sample_cb)).
  { simpl. repeat constructor; simpl; intuition discriminate. }
  split; [exact Hcf|]. split; [exact Hcb|].
  split; [|split].
  - destruct (hybrid_score_formula Examples.sample_cf Examples.sample_cb 0.6 "B"
                Hcf Hcb) as (Hboth & _ & _).
    apply (Hboth (Examples.sample_item "B" 0.816 collaborative)
                 (Examples.sample_item "B" 0.8 content));
      simpl; auto.
  - destruct (hybrid_score_formula Examples.sample_cf Examples.sample_cb 0.6 "F"
                Hcf Hcb) as (_ & Hleft & _).
    apply (Hleft (Examples.sample_item "F" 0.5 collaborative));
      simpl; [auto | reflexivity | intuition discriminate].
  - destruct (hybrid_score_formula Examples.sample_cf Examples.sample_cb 0.6 "E"
                Hcf Hcb) as (_ & _ & Hright).
    apply (Hright (Examples.sample_item "E" 0.913 content));
      simpl; [auto | reflexivity | intuition discriminate].
Defined.

(** *** The scores carried by the returned items *)

Lemma in_scores_set_keys scores a v x :
  In x (map fst (scores_set scores a v)) -> x = a \/ In x (map fst scores).
Proof.
  induction scores as [|[b s] rest IH]; simpl.
  - intuition.
  - destruct (String.eqb b a); simpl; intuition.
Qed.

Lemma scores_set_nodup scores a v :
  List.NoDup (map fst scores) -> List.NoDup (map fst (scores_set scores a v)).
Proof.
  induction scores as [|[b s] rest IH]; simpl; intros Hnd.
  - repeat constructor. intros [].
  - apply List.NoDup_cons_iff in Hnd as [Hb Hnd].
    destruct (String.eqb b a) eqn:E; simpl.
    + now constructor.
    + apply String.eqb_neq in E. constructor; [|auto].
      intros Hin. apply in_scores_set_keys in Hin as [-> | Hin]; auto.
Qed.

Lemma scores_get_in scores a v :
  List.NoDup (map fst scores) -> In (a, v) scores -> scores_get scores a = Some v.
Proof.
  induction scores as [|[b s] rest IH]; simpl; intros Hnd Hin; [contradiction|].
  apply List.NoDup_cons_iff in Hnd as [Hb Hnd].
  destruct Hin as [E | Hin].
  - inversion E; subst. now rewrite String.eqb_refl.
  - destruct (String.eqb b a) eqn:E; [|auto].
    apply String.eqb_eq in E. subst b.
    exfalso. apply Hb. apply (in_map fst) in Hin. exact Hin.
Qed.

Lemma fuse_nodup cf cb w : List.NoDup (map fst (hybrid_scores cf cb w)).
Proof.
  unfold hybrid_scores, fuse.
  assert (Hcf : forall l st, List.NoDup (map fst (fst st)) ->
            List.NoDup (map fst (fst (fold_left (add_cf w) l st)))).
  { induction l as [|r l IH]; simpl; intros st Hst; [exact Hst|].
    apply IH. rewrite add_cf_scores. now apply scores_set_nodup. }
  assert (Hcb : forall l st, List.NoDup (map fst (fst st)) ->
            List.NoDup (map fst (fst (fold_left (add_cb (1 - w)) l st)))).
  { induction l as [|r l IH]; simpl; intros st Hst; [exact Hst|].
    apply IH. rewrite add_cb_scores. now apply scores_set_nodup. }
  apply Hcb, Hcf. constructor.
Qed.

Section WithLibs.
Context `{Libs}.

Lemma hybrid_results_entries product_data sorted_recs l :
  hybrid_results product_data sorted_recs = Ok l ->
  Forall (fun it =>
            key it = score_key /\
            exists s, In (asin it, s) sorted_recs /\ value it = py_round 3 s) l.
Proof.
  revert l. induction sorted_recs as [|[a score] rest IH]; simpl; intros l Hl.
  - inversion Hl. constructor.
  - assert (Hrest : forall l', hybrid_results product_data rest = Ok l' ->
              Forall (fun it => key it = score_key /\
                        exists s, In (asin it, s) ((a, score) :: rest) /\
                                  value it = py_round 3 s) l').
    { intros l' Hl'. eapply List.Forall_impl; [|apply IH, Hl'].
      intros it (Hk & s & Hs & Hv). split; [exact Hk|]. exists s. simpl. auto. }
    destruct (product_data !! a) as [data|]; [|auto].
    destruct (truthy (image_url data)); [|auto].
    rewrite parse_price_of_price in Hl. simpl in Hl.
    apply bind_ok in Hl as (tail & Ht & Hl). inversion Hl; subst.
    constructor; [|auto]. simpl. split; [reflexivity|].
    exists score. auto.
Qed.

(** every item of a fused hybrid answer carries, rounded to 3 decimals, the
    entry its product ID has in the [scores] dict *)
Lemma hybrid_items_carry_scores svc a n w cf cb l :
  get_collaborative_recommendations svc a (n * 2) = Ok cf ->
  get_content_recommendations svc a (n * 2) = Ok cb ->
  cf <> [] -> cb <> [] ->
  get_hybrid_recommendations svc a n w = Ok l ->
  Forall (fun it =>
            key it = score_key /\
            exists s, scores_get (hybrid_scores cf cb w) (asin it) = Some s /\
                      value it = py_round 3 s) l.
Proof.
  intros Hcf Hcb Hcfne Hcbne Hl.
  unfold get_hybrid_recommendations in Hl. rewrite Hcf in Hl. simpl in Hl.
  rewrite Hcb in Hl. simpl in Hl.
  destruct cf as [|c cf']; [contradiction|].
  destruct cb as [|b cb']; [contradiction|].
  pose proof (fuse_nodup (c :: cf') (b :: cb') w) as Hnd.
  unfold hybrid_scores in *.
  destruct (fuse (c :: cf') (b :: cb') w) as [scores pd]. simpl in *.
  apply hybrid_results_entries in Hl.
  eapply List.Forall_impl; [|exact Hl].
  intros it (Hk & s & Hs & Hv). split; [exact Hk|]. exists s. split; [|exact Hv].
  apply scores_get_in; [exact Hnd|].
  apply in_firstn in Hs. now apply in_stable_sort_desc in Hs.
Qed.

End WithLibs.

(** ** Fusion under weight 1 *)

Lemma same_scores_refl s : same_scores s s.
Proof. induction s; constructor; auto. split; [reflexivity | apply Qeq_refl]. Qed.

Lemma same_scores_trans s1 s2 s3 :
  same_scores s1 s2 -> same_scores s2 s3 -> same_scores s1 s3.
Proof.
  intros H12. revert s3. induction H12 as [|p q l1 l2 [Hk Hv] _ IH]; intros s3 H23.
  - inversion H23. constructor.
  - inversion H23 as [|? r ? l3 [Hk' Hv'] Hrest]; subst.
    constructor; [|apply IH; exact Hrest]. split; [congruence|].
    eapply Qeq_trans; eauto.
Qed.

Lemma same_scores_keys s1 s2 : same_scores s1 s2 -> map fst s1 = map fst s2.
Proof. induction 1 as [|p q l1 l2 [Hk _] _ IH]; simpl; congruence. Qed.

Lemma same_scores_app s1 s2 t :
  same_scores s1 s2 -> same_scores (s1 ++ t) (s2 ++ t).
Proof. induction 1; simpl; [apply same_scores_refl | constructor; auto]. Qed.

Lemma scores_get_none scores a :
  scores_get scores a = None <-> ~ In a (map fst scores).
Proof.
  induction scores as [|[b s] rest IH]; simpl; [tauto|].
  destruct (String.eqb b a) eqn:E.
  - apply String.eqb_eq in E. split; [discriminate | tauto].
  - apply String.eqb_neq in E. rewrite IH. tauto.
Qed.

Lemma scores_set_new scores a v :
  scores_get scores a = None -> scores_set scores a v = scores ++ [(a, v)].
Proof.
  induction scores as [|[b s] rest IH]; simpl; [reflexivity|].
  destruct (String.eqb b a); [discriminate|]. intros Hn. now rewrite IH.
Qed.

Lemma scores_set_same_value scores a v v' :
  scores_get scores a = Some v -> v' == v ->
  same_scores (scores_set scores a v') scores.
Proof.
  intros Hg Hv. induction scores as [|[b s] rest IH]; simpl in *; [discriminate|].
  destruct (String.eqb b a).
  - inversion Hg; subst.
    constructor; [split; [reflexivity | exact Hv] | apply same_scores_refl].
  - constructor; [split; [reflexivity | apply Qeq_refl] | apply IH, Hg].
Qed.

(** the collaborative loop appends one entry per item *)
Lemma cf_loop_exact w cf : List.NoDup (map asin cf) -> forall scores pd,
  (forall r, In r cf -> ~ In (asin r) (map fst scores)) ->
  fst (fold_left (add_cf w) cf (scores, pd)) = scores ++ map (cf_entry w) cf /\
  (forall r, In r cf ->
     snd (fold_left (add_cf w) cf (scores, pd)) !! asin r = Some r).
Proof.
  induction cf as [|r cf IH]; simpl; intros Hnd scores pd Hfresh.
  - split; [now rewrite app_nil_r | contradiction].
  - apply List.NoDup_cons_iff in Hnd as [Hr Hnd].
    assert (Hnone : scores_get scores (asin r) = None)
      by (apply scores_get_none; auto).
    rewrite (scores_set_new _ _ _ Hnone).
    destruct (IH Hnd (scores ++ [(asin r, item_similarity r * w)])
                (<[asin r := r]> pd)) as [Hs Hp].
    { intros r' Hr'. rewrite map_app, in_app_iff. simpl.
      intros [Hin | [E | []]]; [now apply (Hfresh r'); auto|].
      apply Hr. rewrite E. now apply in_map. }
    split.
    + rewrite Hs, <- app_assoc. reflexivity.
    + intros r' [<- | Hr']; [|auto].
      clear Hs Hp IH.
      assert (Hkeep : forall l st, ~ In (asin r) (map asin l) ->
                snd (fold_left (add_cf w) l st) !! asin r = snd st !! asin r).
      { induction l as [|x l IHl]; simpl; intros st Hx; [reflexivity|].
        rewrite IHl by tauto. destruct st as [s p]. simpl.
        apply lookup_insert_ne. tauto. }
      rewrite Hkeep by exact Hr. simpl. apply lookup_insert_eq.
Qed.

Lemma add_cb_zero cf w st rec :
  w == 0 -> fused_on cf st -> fused_on cf (add_cb w st rec).
Proof.
  intros Hw (post & Hs & Hz & Hp). destruct st as [scores pd]. simpl in *.
  destruct (scores_get scores (asin rec)) as [s|] eqn:Hg.
  - exists post. simpl. split; [|auto].
    eapply same_scores_trans; [|exact Hs].
    apply (scores_set_same_value _ _ s); [exact Hg|]. rewrite Hw. ring.
  - exists (post ++ [(asin rec, item_similarity rec * w)]). simpl.
    rewrite (scores_set_new _ _ _ Hg), app_assoc.
    split; [now apply same_scores_app|]. split.
    + apply List.Forall_app. split; [exact Hz|].
      constructor; [|constructor]. simpl. rewrite Hw. ring.
    + intros r Hr. rewrite lookup_insert_ne; [auto|].
      intros E. apply scores_get_none in Hg. apply Hg.
      rewrite (same_scores_keys _ _ Hs), map_app, in_app_iff. left.
      rewrite map_map. simpl. rewrite E. now apply in_map.
Qed.

Lemma cb_loop_zero cf w cb : w == 0 -> forall st,
  fused_on cf st -> fused_on cf (fold_left (add_cb w) cb st).
Proof.
  intros Hw. induction cb as [|r cb IH]; simpl; intros st Hst; [exact Hst|].
  apply IH. now apply add_cb_zero.
Qed.

Lemma fuse_weight_one cf cb :
  List.NoDup (map asin cf) -> fused_on cf (fuse cf cb 1).
Proof.
  intros Hnd. unfold fuse. apply cb_loop_zero; [ring|].
  destruct (cf_loop_exact 1 cf Hnd [] ∅) as [Hs Hp]; [auto|].
  exists []. rewrite app_nil_r. simpl in Hs.
  split; [rewrite Hs; apply same_scores_refl|]. split; [constructor | exact Hp].
Qed.

(** the content loop when it brings no product of its own *)
Lemma add_cb_inside cf w st rec :
  w == 0 ->
  same_scores (fst st) (map (cf_entry 1) cf) ->
  In (asin rec) (map asin cf) ->
  same_scores (fst (add_cb w st rec)) (map (cf_entry 1) cf) /\
  snd (add_cb w st rec) = snd st.
Proof.
  intros Hw Hs Hin. destruct st as [scores pd]. simpl in *.
  destruct (scores_get scores (asin rec)) as [s|] eqn:Hg.
  - simpl. split; [|reflexivity].
    eapply same_scores_trans; [|exact Hs].
    apply (scores_set_same_value _ _ s); [exact Hg|]. rewrite Hw. ring.
  - exfalso. apply scores_get_none in Hg. apply Hg.
    rewrite (same_scores_keys _ _ Hs), map_map. exact Hin.
Qed.

Lemma fuse_weight_one_inside cf cb :
  List.NoDup (map asin cf) ->
  (forall r, In r cb -> In (asin r) (map asin cf)) ->
  fused_on cf (fuse cf cb 1) /\
  same_scores (fst (fuse cf cb 1)) (map (cf_entry 1) cf).
Proof.
  intros Hnd Hin. unfold fuse.
  destruct (cf_loop_exact 1 cf Hnd [] ∅) as [Hs Hp]; [auto|].
  simpl in Hs.
  assert (Hloop : forall l st,
            (forall r, In r l -> In (asin r) (map asin cf)) ->
            same_scores (fst st) (map (cf_entry 1) cf) ->
            same_scores (fst (fold_left (add_cb (1 - 1)) l st)) (map (cf_entry 1) cf) /\
            snd (fold_left (add_cb (1 - 1)) l st) = snd st).
  { induction l as [|r l IH]; simpl; intros st Hl Hst; [auto|].
    destruct (add_cb_inside cf (1 - 1) st r) as [Hs' Hp'];
      [ring | exact Hst | apply Hl; now left |].
    destruct (IH (add_cb (1 - 1) st r)) as [Hs'' Hp''];
      [intros x Hx; apply Hl; now right | exact Hs' |].
    split; [exact Hs'' | congruence]. }
  destruct (Hloop cb (fold_left (add_cf 1) cf ([], ∅)) Hin) as [Hs' Hp'].
  { rewrite Hs. apply same_scores_refl. }
  split; [|exact Hs'].
  exists []. rewrite app_nil_r. split; [exact Hs'|].
  split; [constructor|]. intros r Hr. rewrite Hp'. now apply Hp.
Qed.

Lemma descending_same l1 l2 :
  Forall2 Qeq l1 l2 -> descending l2 -> descending l1.
Proof.
  induction 1 as [|x y l1 l2 Hxy Hl IH]; intros Hd; [constructor|].
  apply descending_inv in Hd as [Hd Hy].
  apply descending_cons; [auto|].
  clear IH Hd. induction Hl as [|a b l1 l2 Hab _ IH]; [constructor|].
  inversion Hy; subst. constructor; [lra | auto].
Qed.

Lemma descending_then_zeros l1 l2 :
  descending l1 -> Forall (fun x => 0 <= x) l1 -> Forall (fun x => x == 0) l2 ->
  descending (l1 ++ l2).
Proof.
  intros Hd Hp Hz. induction Hd as [|x l Hl IH Hx]; simpl.
  - induction Hz as [|z l Hz0 Hz IH]; [constructor|].
    apply descending_cons; [exact IH|].
    eapply List.Forall_impl; [|exact Hz]. simpl. intros; lra.
  - inversion Hp; subst. apply descending_cons; [auto|].
    apply List.Forall_app. split; [exact Hx|].
    eapply List.Forall_impl; [|exact Hz]. simpl. intros; lra.
Qed.

Lemma same_scores_values s1 s2 :
  same_scores s1 s2 -> Forall2 Qeq (map snd s1) (map snd s2).
Proof. induction 1 as [|p q l1 l2 [_ Hv] _ IH]; simpl; constructor; auto. Qed.

Lemma shown_all pd (l : list (string * Q)) (rs : list Item) :
  Forall2 (fun p r => fst p = asin r) l rs ->
  (forall r, In r rs -> pd !! asin r = Some r /\ truthy (image_url r) = true) ->
  map fst (List.filter (shown pd) l) = map asin rs.
Proof.
  induction 1 as [|p r l rs Hk _ IH]; simpl; intros Hall; [reflexivity|].
  destruct (Hall r (or_introl eq_refl)) as [Hp Hi].
  unfold shown at 1. rewrite Hk, Hp, Hi. simpl. rewrite Hk, IH; auto.
Qed.

Lemma Forall2_map_right {A B C : Type} (P : A -> C -> Prop) (f : B -> C) l rs :
  Forall2 P l (map f rs) -> Forall2 (fun x r => P x (f r)) l rs.
Proof.
  revert l. induction rs as [|r rs IH]; simpl; intros l Hl;
    inversion Hl; subst; constructor; auto.
Qed.

Section WithLibs.
Context `{Libs}.

Lemma collaborative_items svc a n l :
  get_collaborative_recommendations svc a n = Ok l ->
  Forall (fun it => truthy (image_url it) = true /\ key it = similarity_key) l.
Proof.
  unfold get_collaborative_recommendations.
  destruct (knn_model svc) as [knn|];
    [|returns_empty].
  destruct (item_user_matrix svc) as [m|];
    [|returns_empty].
  destruct (mappings svc) as [maps|];
    [|returns_empty].
  destruct (product_to_idx maps !! a) as [idx|];
    [|returns_empty].
  intros Hl. apply bind_ok in Hl as (row & _ & Hl).
  apply bind_ok in Hl as (neighbours & _ & Hl).
  now apply enrich_ok in Hl.
Qed.

(** C5, amended.  Let the collaborative pool drawn for the hybrid call
    (2n requested, enriched) be listed in descending similarity under
    distinct product IDs.  If the content pool brings no product outside
    that pool, or if the pool holds at least n candidates and none has a
    negative similarity, the hybrid recommender at cfWeight = 1 returns the
    product IDs of the first n candidates of the collaborative pool, in the
    same order. *)
Theorem hybrid_weight_one svc a n cf cb :
  get_collaborative_recommendations svc a (n * 2) = Ok cf ->
  get_content_recommendations svc a (n * 2) = Ok cb ->
  descending (map value cf) ->
  List.NoDup (map asin cf) ->
  (forall r, In r cb -> In (asin r) (map asin cf)) \/
  ((n <= length cf)%nat /\ Forall (fun it => 0 <= value it) cf) ->
  exists res,
    get_hybrid_recommendations svc a n 1 = Ok res /\
    map asin res = map asin (firstn n cf).
Proof.
  intros Hcf Hcb Hdesc Hnd Hcase.
  pose proof (collaborative_items _ _ _ _ Hcf) as Hitems.
  unfold get_hybrid_recommendations. rewrite Hcf. simpl. rewrite Hcb. simpl.
  destruct cf as [|c cf'] eqn:Ecf.
  { destruct cb as [|b cb'];
      [exists []; split; [reflexivity | now rewrite firstn_nil]|].
    destruct Hcase as [Hin | [Hn _]].
    - destruct (Hin b (or_introl eq_refl)).
    - assert (n = 0)%nat as -> by (simpl in Hn; lia).
      eexists; split; reflexivity. }
  destruct cb as [|b cb'] eqn:Ecb.
  { eexists; split; reflexivity. }
  rewrite <- Ecf in *. rewrite <- Ecb in *. clear Ecb Hcb.
  assert (Hsim : forall r, In r cf -> item_similarity r = value r).
  { intros r Hr. rewrite List.Forall_forall in Hitems.
    destruct (Hitems r Hr) as [_ Hk]. unfold item_similarity. now rewrite Hk. }
  assert (Hvals : Forall2 Qeq (map snd (map (cf_entry 1) cf)) (map value cf)).
  { clear -Hsim. induction cf as [|r l IH]; simpl; constructor.
    - rewrite (Hsim r) by (left; reflexivity). ring.
    - apply IH. intros x Hx. apply Hsim. now right. }
  assert (Hfused : exists post,
            same_scores (fst (fuse cf cb 1)) (map (cf_entry 1) cf ++ post) /\
            (forall r, In r cf -> snd (fuse cf cb 1) !! asin r = Some r) /\
            descending (map snd (map (cf_entry 1) cf ++ post)) /\
            firstn n (map (cf_entry 1) cf ++ post)
              = map (cf_entry 1) (firstn n cf)).
  { destruct Hcase as [Hin | [Hn Hpos]].
    - destruct (fuse_weight_one_inside cf cb Hnd Hin)
        as [(post & _ & _ & Hp) Hs].
      exists []. rewrite app_nil_r. repeat split; [exact Hs | exact Hp | |].
      + eapply descending_same; [exact Hvals | exact Hdesc].
      + now rewrite firstn_map.
    - destruct (fuse_weight_one cf cb Hnd) as (post & Hs & Hz & Hp).
      exists post. repeat split; [exact Hs | exact Hp | |].
      + rewrite map_app. apply descending_then_zeros.
        * eapply descending_same; [exact Hvals | exact Hdesc].
        * clear -Hpos Hsim. induction cf as [|r l IH]; simpl; constructor.
          -- inversion Hpos; subst. rewrite (Hsim r) by (left; reflexivity). lra.
          -- inversion Hpos; subst. apply IH; [auto|].
             intros x Hx. apply Hsim. now right.
        * clear -Hz. induction Hz; simpl; constructor; auto.
      + rewrite firstn_app.
        replace (n - length (map (cf_entry 1) cf))%nat with 0%nat
          by (rewrite length_map; lia).
        simpl. now rewrite app_nil_r, firstn_map. }
  destruct Hfused as (post & Hs & Hp & Hd & Hfirst).
  destruct (fuse cf cb 1) as [scores pd]. simpl in Hs, Hp.
  assert (Hsorted : stable_sort_desc snd scores = scores).
  { apply stable_sort_desc_id.
    eapply descending_same; [apply same_scores_values, Hs | exact Hd]. }
  rewrite Hsorted.
  destruct (hybrid_results_ok pd (firstn n scores)) as (res & Hres & Ha & _).
  exists res. split; [exact Hres|]. rewrite Ha.
  apply shown_all.
  - apply (Forall2_take _ _ _ n) in Hs. rewrite Hfirst in Hs.
    apply Forall2_map_right in Hs.
    eapply Forall2_impl; [exact Hs|]. simpl. intros p r [Hk _]. exact Hk.
  - intros r Hr. apply in_firstn in Hr. split; [auto|].
    rewrite List.Forall_forall in Hitems. now apply Hitems.
Qed.

End WithLibs.

(** C5 on the sample shop, product A, two recommendations. *)
Lemma hybrid_weight_one_witness :
  @get_collaborative_recommendations Examples.reference_libs
    Examples.shop "A" (2 * 2) = Ok Examples.shop_cf_pool /\
  @get_content_recommendations Examples.reference_libs
    Examples.shop "A" (2 * 2) = Ok Examples.shop_cb_pool /\
  descending (map value Examples.shop_cf_pool) /\
  List.NoDup (map asin Examples.shop_cf_pool) /\
  ((2 <= length Examples.shop_cf_pool)%nat /\
   Forall (fun it => 0 <= value it) Examples.shop_cf_pool) /\
  exists res,
    @get_hybrid_recommendations Examples.reference_libs
      Examples.shop "A" 2 1 = Ok res /\
    map asin res = ["B"; "F"].
Proof.
  assert (H1 : @get_collaborative_recommendations Examples.reference_libs
                 Examples.shop "A" (2 * 2) = Ok Examples.shop_cf_pool)
    by (vm_compute; reflexivity).
  assert (H2 : @get_content_recommendations Examples.reference_libs
                 Examples.shop "A" (2 * 2) = Ok Examples.shop_cb_pool)
    by (vm_compute; reflexivity).
  assert (H3 : (2 <= length Examples.shop_cf_pool)%nat) by (simpl; lia).
  assert (H4 : Forall (fun it => 0 <= value it) Examples.shop_cf_pool)
    by (repeat constructor; discriminate).
  assert (H5 : descending (map value Examples.shop_cf_pool))
    by (repeat constructor; discriminate).
  assert (H6 : List.NoDup (map asin Examples.shop_cf_pool))
    by (simpl; repeat constructor; simpl; intuition discriminate).
  repeat (split; [assumption|]). split; [split; assumption|].
  destruct (@hybrid_weight_one Examples.reference_libs Examples.shop "A" 2%nat
              _ _ H1 H2 H5 H6 (or_intror (conj H3 H4))) as (res & Hres & Hids).
  exists res. split; [exact Hres|]. rewrite Hids. reflexivity.
Defined.

(** C5 as first stated fails where only the content index knows the
    product: for E the collaborative recommender returns nothing, for any
    count, while the hybrid one at cfWeight = 1 returns content neighbours. *)
Lemma hybrid_weight_one_differs :
  @get_collaborative_recommendations Examples.reference_libs
    Examples.shop "E" 2 = Ok [] /\
  @get_collaborative_recommendations Examples.reference_libs
    Examples.shop "E" (2 * 2) = Ok [] /\
  exists res,
    @get_hybrid_recommendations Examples.reference_libs
      Examples.shop "E" 2 1 = Ok res /\
    map asin res = ["B"; "A"].
Proof.
  split; [vm_compute; reflexivity|]. split; [vm_compute; reflexivity|].
  eexists. split; [vm_compute; reflexivity|]. reflexivity.
Qed.

End RecommenderFacts.

(** * The demand service *)

Module DemandFacts.
Import Demand Spec.

Lemma Qsum_nonneg l : Forall (fun x => 0 <= x) l -> 0 <= Qsum l.
Proof. induction 1; simpl; lra. Qed.

Lemma np_mean_nonneg l : Forall (fun x => 0 <= x) l -> 0 <= np_mean l.
Proof.
  intros Hl. unfold np_mean, Qdiv.
  apply Qmult_le_0_compat; [now apply Qsum_nonneg|].
  apply Qinv_le_0_compat.
  replace 0 with (inject_Z 0) by reflexivity. rewrite <- Zle_Qle. lia.
Qed.

Lemma Forall_firstn {A : Type} (P : A -> Prop) n l :
  Forall P l -> Forall P (firstn n l).
Proof.
  rewrite !List.Forall_forall. intros Hl x Hx. eapply Hl, in_firstn, Hx.
Qed.

Lemma Forall_skipn {A : Type} (P : A -> Prop) n l :
  Forall P l -> Forall P (skipn n l).
Proof.
  rewrite !List.Forall_forall. intros Hl x Hx. eapply Hl, in_skipn, Hx.
Qed.

Lemma half_zero n : (0 <? n / 2)%nat = false <-> (n < 2)%nat.
Proof.
  rewrite Nat.ltb_ge. split; intros Hn.
  - assert (E : (n / 2 = 0)%nat) by lia.
    apply Nat.div_small_iff in E; lia.
  - rewrite Nat.div_small; lia.
Qed.

Lemma b64_nonneg q : 0 <= q -> 0 <= b64 q.
Proof.
  intros Hq. destruct (b64_bounds q Hq) as [Hlo _].
  unfold b64_eps in Hlo. lra.
Qed.

(** the two literals as doubles *)
Lemma double_1_1 : b64 1.1 == 2476979795053773 # 2251799813685248.
Proof. vm_compute. reflexivity. Qed.

Lemma double_0_9 : b64 0.9 == 8106479329266893 # 9007199254740992.
Proof. vm_compute. reflexivity. Qed.

(** where the two products lie, for a first-half mean [m] and its double [M] *)
Lemma threshold_bounds m :
  0 <= m ->
  let M := b64 m in
  0 <= M /\
  m * (1 - b64_eps) <= M <= m * (1 + b64_eps) /\
  M * (2476979795053773 # 2251799813685248) * (1 - b64_eps)
    <= b64 (M * b64 1.1)
    <= M * (2476979795053773 # 2251799813685248) * (1 + b64_eps) /\
  M * (8106479329266893 # 9007199254740992) * (1 - b64_eps)
    <= b64 (M * b64 0.9)
    <= M * (8106479329266893 # 9007199254740992) * (1 + b64_eps).
Proof.
  intros Hm M. pose proof (b64_nonneg m Hm) as HM. fold M in HM.
  split; [exact HM|]. split; [exact (b64_bounds m Hm)|].
  assert (H11 : 0 <= M * b64 1.1).
  { apply Qmult_le_0_compat; [exact HM | rewrite double_1_1; discriminate]. }
  assert (H09 : 0 <= M * b64 0.9).
  { apply Qmult_le_0_compat; [exact HM | rewrite double_0_9; discriminate]. }
  pose proof (b64_bounds _ H11) as B11. pose proof (b64_bounds _ H09) as B09.
  assert (E11 : M * b64 1.1 == M * (2476979795053773 # 2251799813685248))
    by (rewrite double_1_1; reflexivity).
  assert (E09 : M * b64 0.9 == M * (8106479329266893 # 9007199254740992))
    by (rewrite double_0_9; reflexivity).
  set (P11 := b64 (M * b64 1.1)) in *. set (P09 := b64 (M * b64 0.9)) in *.
  set (X11 := M * b64 1.1) in *. set (X09 := M * b64 0.9) in *.
  unfold b64_eps in *. split; lra.
Qed.

Lemma half_means_nonneg demands :
  Forall (fun x => 0 <= x) demands ->
  0 <= first_half_mean demands /\ 0 <= second_half_mean demands.
Proof.
  intros Hpos. split.
  - apply np_mean_nonneg, Forall_firstn, Hpos.
  - apply np_mean_nonneg, Forall_skipn, Hpos.
Qed.

(** on a series of non-negative demands the computed label is the one of
    the double-precision rule, and the only one *)
Lemma classify_trend_spec64 demands :
  Forall (fun x => 0 <= x) demands ->
  forall t, TrendSpec64 demands t <-> classify_trend demands = t.
Proof.
  intros Hpos t.
  destruct (half_means_nonneg demands Hpos) as [Hm1 Hm2].
  destruct (threshold_bounds _ Hm1) as (HM & _ & B11 & B09).
  unfold classify_trend, f64_mean, f64_mul.
  fold (first_half_mean demands). fold (second_half_mean demands).
  assert (Hord : b64 (b64 (first_half_mean demands) * b64 0.9)
                 <= b64 (b64 (first_half_mean demands) * b64 1.1))
    by (unfold b64_eps in *; lra).
  clear B11 B09.
  destruct (0 <? length demands / 2)%nat eqn:Emid.
  - assert (Hlen : (2 <= length demands)%nat).
    { destruct (Nat.lt_ge_cases (length demands) 2) as [Hlt|]; [|assumption].
      apply half_zero in Hlt. congruence. }
    destruct (Qlt_le_dec (b64 (b64 (first_half_mean demands) * b64 1.1))
                         (b64 (second_half_mean demands))) as [Hinc|Hninc];
    [|destruct (Qlt_le_dec (b64 (second_half_mean demands))
                           (b64 (b64 (first_half_mean demands) * b64 0.9)))
        as [Hdec|Hndec]];
    (split; [intros Hs; inversion Hs; subst; try reflexivity; try lia;
             unfold first_half_mean64, second_half_mean64 in *; lra
            |intros <-]).
    + now apply ts64_increasing.
    + now apply ts64_decreasing.
    + apply ts64_stable; [assumption | |];
        unfold first_half_mean64, second_half_mean64; lra.
  - apply half_zero in Emid. split.
    + intros Hs. inversion Hs; subst; try reflexivity; lia.
    + intros <-. now apply ts64_insufficient.
Qed.

(** a label the exact rule gives with a margin is the label of the exact
    rule, and the one the double-precision rule gives *)
Lemma trend_clear_both demands t :
  Forall (fun x => 0 <= x) demands ->
  TrendClear demands t -> TrendSpec demands t /\ TrendSpec64 demands t.
Proof.
  intros Hpos Hc.
  destruct (half_means_nonneg demands Hpos) as [Hm1 Hm2].
  destruct (threshold_bounds _ Hm1) as (HM & B1 & B11 & B09).
  pose proof (b64_bounds _ Hm2) as B2.
  unfold b64_eps in *.
  destruct Hc as [Hlen | Hlen Hinc | Hlen Hdec | Hlen Hlo Hhi];
    unfold trend_margin in *.
  - split; now constructor.
  - split.
    + apply ts_increasing; [exact Hlen | lra].
    + apply ts64_increasing; [exact Hlen|].
      unfold first_half_mean64, second_half_mean64. lra.
  - split.
    + apply ts_decreasing; [exact Hlen | lra].
    + apply ts64_decreasing; [exact Hlen|].
      unfold first_half_mean64, second_half_mean64. lra.
  - split.
    + apply ts_stable; [exact Hlen | lra | lra].
    + apply ts64_stable; [exact Hlen | |];
        unfold first_half_mean64, second_half_mean64; lra.
Qed.

Lemma series_demand_nonneg rows :
  Forall (fun x => 0 <= x) (map sp_demand (map series_point rows)).
Proof.
  induction rows as [|r rows IH]; simpl; constructor; [|exact IH].
  apply py_round_nonneg. unfold float_of_count.
  replace 0 with (inject_Z 0) by reflexivity. rewrite <- Zle_Qle. lia.
Qed.

(** C7, amended.  The trend label of a product's weekly series follows
    the midpoint rule with every operation in double precision: the two
    half means, the literals 1.1 and 0.9 and the two products are rounded
    to the nearest double before they are compared.  It is the label of
    the exact rule whenever the second-half mean is not within a relative
    2^-50 of a threshold; a series of fewer than two points is labelled
    "insufficient_data". *)
Theorem trend_classification svc wd a pd :
  weekly_demand svc = Some wd ->
  counts_exact wd a ->
  get_product_demand svc a = Some pd ->
  (forall t, TrendSpec64 (map sp_demand (pd_time_series pd)) t <-> pd_trend pd = t) /\
  (forall t, TrendClear (map sp_demand (pd_time_series pd)) t ->
     TrendSpec (map sp_demand (pd_time_series pd)) t /\ pd_trend pd = t).
Proof.
  intros Hwd _. unfold get_product_demand. rewrite Hwd.
  destruct (product_rows wd a) as [|r rows] eqn:E; [discriminate|].
  intros Hpd. inversion Hpd; subst; clear Hpd. cbn [pd_trend pd_time_series].
  pose proof (series_demand_nonneg (r :: rows)) as Hpos.
  split.
  - apply classify_trend_spec64, Hpos.
  - intros t Ht. destruct (trend_clear_both _ t Hpos Ht) as [Hx H64].
    split; [exact Hx|]. now apply classify_trend_spec64.
Qed.

(** C7 on the two series of the description: 10,10,10,10,20,20,20,20 is
    increasing and eight times 10 is stable, both clear of the
    thresholds. *)
Lemma trend_classification_witness :
  (exists pd, get_product_demand Examples.demand_service "P" = Some pd /\
     map Qred (map sp_demand (pd_time_series pd))
       = [10; 10; 10; 10; 20; 20; 20; 20] /\
     TrendSpec (map sp_demand (pd_time_series pd)) increasing /\
     pd_trend pd = increasing) /\
  (exists pd, get_product_demand Examples.demand_service "Q" = Some pd /\
     TrendSpec (map sp_demand (pd_time_series pd)) stable /\
     pd_trend pd = stable).
Proof.
  assert (HP : counts_exact Examples.sample_weeks "P") by (vm_compute; reflexivity).
  assert (HQ : counts_exact Examples.sample_weeks "Q") by (vm_compute; reflexivity).
  split.
  - destruct (get_product_demand Examples.demand_service "P") as [pd|] eqn:E;
      [|vm_compute in E; discriminate].
    exists pd. split; [reflexivity|].
    split; [vm_compute in E; inversion E; reflexivity|].
    apply (trend_classification Examples.demand_service Examples.sample_weeks
             "P" pd eq_refl HP E).
    vm_compute in E. inversion E; subst pd; clear E.
    apply tc_increasing; [simpl; lia | vm_compute; reflexivity].
  - destruct (get_product_demand Examples.demand_service "Q") as [pd|] eqn:E;
      [|vm_compute in E; discriminate].
    exists pd. split; [reflexivity|].
    apply (trend_classification Examples.demand_service Examples.sample_weeks
             "Q" pd eq_refl HQ E).
    vm_compute in E. inversion E; subst pd; clear E.
    apply tc_stable; [simpl; lia | vm_compute; discriminate
                     | vm_compute; discriminate].
Defined.

(** C7 as first stated fails on a threshold.  For the weekly counts
    16, 17, 17, 15, 15, 15 the second-half mean 15 equals 0.9 times the
    first-half mean 50/3, so the exact rule says "stable" and not
    "decreasing"; in double precision the product is 15.000000000000002
    and the label is "decreasing". *)
Lemma trend_threshold_rounds_down :
  exists pd,
    get_product_demand MoreExamples.threshold_service "T" = Some pd /\
    map Qred (map sp_demand (pd_time_series pd)) = [16; 17; 17; 15; 15; 15] /\
    pd_trend pd = decreasing /\
    TrendSpec (map sp_demand (pd_time_series pd)) stable /\
    ~ TrendSpec (map sp_demand (pd_time_series pd)) decreasing.
Proof.
  destruct (get_product_demand MoreExamples.threshold_service "T") as [pd|] eqn:E;
    [|vm_compute in E; discriminate].
  exists pd. split; [reflexivity|].
  vm_compute in E. inversion E; subst pd; clear E.
  cbn [pd_time_series pd_trend].
  split; [reflexivity|]. split; [reflexivity|]. split.
  - apply ts_stable; [simpl; lia | |]; vm_compute; intros H; discriminate H.
  - intros H. inversion H as [| |_ Hd|]. vm_compute in Hd. discriminate Hd.
Qed.


(** ** The forecaster *)

Lemma length_insert_week r l : length (insert_week r l) = S (length l).
Proof.
  induction l as [|x l IH]; simpl; [reflexivity|].
  destruct (String.leb _ _); simpl; [reflexivity | now rewrite IH].
Qed.

Lemma length_sort_by_week l : length (sort_by_week l) = length l.
Proof.
  induction l as [|x l IH]; simpl; [reflexivity|].
  now rewrite length_insert_week, IH.
Qed.

Lemma length_product_rows wd a : length (product_rows wd a) = recorded_weeks wd a.
Proof. unfold product_rows, recorded_weeks. apply length_sort_by_week. Qed.

Lemma length_last_n {A : Type} n (l : list A) :
  length (last_n n l) = Nat.min n (length l).
Proof. unfold last_n. rewrite length_skipn. lia. Qed.

Section WithLibs.
Context `{Libs}.

Lemma corrected_floor stats i rm4 : 0.1 <= corrected stats i rm4.
Proof. apply py_max_lb. Qed.

Lemma forced_floor i last_pred : 0.1 <= forced i last_pred.
Proof. apply py_max_lb. Qed.

Lemma add_variation_floor stats i rm4 pred last_pred :
  0.1 <= pred -> 0.1 <= add_variation stats i rm4 pred last_pred.
Proof.
  intros Hp. unfold add_variation.
  destruct (Qlt_le_dec _ _); [apply corrected_floor|].
  destruct (Qlt_le_dec _ _); [apply forced_floor | exact Hp].
Qed.

(** every branch of the loop body floors its prediction *)
Lemma predict_step_floor model cols stats i hist forecasts :
  0.1 <= predict_step model cols stats i hist forecasts.
Proof.
  unfold predict_step.
  destruct (length hist <? 4)%nat; [apply py_max_lb|].
  destruct (select_columns _ cols ≫= model) as [p|]; [|apply py_max_lb].
  destruct (0 <? i)%nat; [|apply py_max_lb].
  destruct (list.last forecasts); [|apply py_max_lb].
  apply add_variation_floor, py_max_lb.
Qed.

Lemma forecast_step_history model cols stats st i :
  length (fst (forecast_step model cols stats st i))
  = Nat.min 20 (length (fst st) + 1).
Proof.
  destruct st as [hist forecasts]. unfold forecast_step. cbn [fst].
  set (hist' := hist ++ [predict_step model cols stats i hist forecasts]).
  assert (Hl : length hist' = (length hist + 1)%nat)
    by (unfold hist'; rewrite length_app; reflexivity).
  destruct (Nat.ltb_spec 20 (length hist')) as [Hlt|Hge].
  - rewrite length_last_n. lia.
  - lia.
Qed.

Lemma forecast_step_forecasts model cols stats st i :
  exists fp,
    snd (forecast_step model cols stats st i) = snd st ++ [fp] /\
    0.1 <= fp_demand fp.
Proof.
  destruct st as [hist forecasts]. simpl. eexists. split; [reflexivity|].
  simpl. apply py_round_floor, predict_step_floor.
Qed.

Lemma run_steps_succ model cols stats hist0 k :
  run_steps model cols stats hist0 (S k)
  = forecast_step model cols stats (run_steps model cols stats hist0 k) k.
Proof.
  unfold run_steps. rewrite seq_S, fold_left_app. reflexivity.
Qed.

Lemma run_steps_history model cols stats hist0 k :
  length (fst (run_steps model cols stats hist0 k))
  = (if (k =? 0)%nat then length hist0 else Nat.min 20 (length hist0 + k)).
Proof.
  induction k as [|k IH]; [reflexivity|].
  rewrite run_steps_succ, forecast_step_history, IH.
  destruct k; cbn [Nat.eqb]; lia.
Qed.

Lemma run_steps_forecasts model cols stats hist0 k :
  length (snd (run_steps model cols stats hist0 k)) = k /\
  Forall (fun fp => 0.1 <= fp_demand fp) (snd (run_steps model cols stats hist0 k)).
Proof.
  induction k as [|k [IHn IHf]]; [split; [reflexivity | constructor]|].
  rewrite run_steps_succ.
  destruct (forecast_step_forecasts model cols stats
              (run_steps model cols stats hist0 k) k) as (fp & -> & Hfp).
  split.
  - rewrite length_app, IHn. simpl. lia.
  - apply List.Forall_app. split; [exact IHf | now repeat constructor].
Qed.

(** C4, amended.  The history buffer holds the whole seeded history while
    the first step runs, which can be more than 20 entries; after k >= 1
    completed steps it holds min(20, seed + k) entries, so at most 20.  One
    forecast point is emitted per step and each has a demand value of at
    least 0.1. *)
Theorem forecast_buffer_and_floor model cols stats hist0 k :
  length (fst (run_steps model cols stats hist0 k))
    = (if (k =? 0)%nat then length hist0 else Nat.min 20 (length hist0 + k)) /\
  (k = 0%nat \/ (length (fst (run_steps model cols stats hist0 k)) <= 20)%nat) /\
  length (snd (run_steps model cols stats hist0 k)) = k /\
  Forall (fun fp => 0.1 <= fp_demand fp) (snd (run_steps model cols stats hist0 k)).
Proof.
  split; [apply run_steps_history|]. split; [|apply run_steps_forecasts].
  destruct k; [now left | right]. rewrite run_steps_history. cbn [Nat.eqb]. lia.
Qed.

(** the forecast a call returns is floored as well *)
Lemma generate_forecast_floor svc a weeks f :
  generate_forecast svc a weeks = Ok (Some f) ->
  length (forecast f) = weeks /\
  Forall (fun fp => 0.1 <= fp_demand fp) (forecast f).
Proof.
  unfold generate_forecast.
  destruct (weekly_demand svc) as [wd|]; [|discriminate].
  destruct (forecast_model svc) as [model|]; [|discriminate].
  destruct (length (product_rows wd a) <? 10)%nat; [discriminate|].
  destruct (model_info svc) as [info|]; [|discriminate].
  set (cols := default default_feature_cols (info_features info)).
  set (hist0 := map _ (product_rows wd a)).
  destruct (run_steps_forecasts model cols (history_stats hist0) hist0 weeks)
    as (Hn & Hf).
  destruct (run_steps model cols (history_stats hist0) hist0 weeks) as [h fc].
  intros E. inversion E; subst. simpl in *. auto.
Qed.

End WithLibs.

(** C4 as first stated fails before the first trim: a product with 21
    weekly records seeds a buffer of 21 entries, and the first step runs on
    it. *)
Lemma forecast_buffer_exceeds_cap :
  let hist0 := Examples.history_of "L" in
  let stats := @history_stats Examples.reference_libs hist0 in
  length (fst (@run_steps Examples.reference_libs Examples.flat_model
                 default_feature_cols stats hist0 0)) = 21%nat /\
  ~ (length (fst (@run_steps Examples.reference_libs Examples.flat_model
                    default_feature_cols stats hist0 0)) <= 20)%nat.
Proof.
  assert (E : length (Examples.history_of "L") = 21%nat)
    by (vm_compute; reflexivity).
  intros hist0 stats.
  change (length hist0 = 21%nat /\ ~ (length hist0 <= 20)%nat).
  subst hist0. rewrite E. split; [reflexivity | lia].
Qed.

Section WithLibs.
Context `{Libs}.


(** the [elif] of the variation step is never taken *)
Lemma add_variation_two_way stats i rm4 pred last_pred :
  add_variation stats i rm4 pred last_pred
  = if Qlt_le_dec (Qabs (pred - last_pred)) 0.15 then corrected stats i rm4
    else pred.
Proof.
  unfold add_variation.
  destruct (Qlt_le_dec (Qabs (pred - last_pred)) 0.15) as [Hlt|Hge];
    [reflexivity|].
  destruct (Qlt_le_dec (Qabs (pred - last_pred)) 0.05) as [Hlt'|Hge'];
    [lra | reflexivity].
Qed.

End WithLibs.


(** C2 at its failing input.  The [elif] that would force a gap of 0.15 is
    dead code; on ten weeks of 10 with a regressor that answers 9.69, step
    1 replaces the prediction by 9.6925, which lies within 0.05 of the
    previous point 9.69, and keeps it instead of moving to 9.54: the
    forecast starts 9.69, 9.69. *)
Theorem variation_never_forced :
  let L := Examples.reference_libs in
  let hist0 := Examples.history_of "S" in
  let stats := @history_stats L hist0 in
  let st1 := @run_steps L Examples.flat_model default_feature_cols stats hist0 1 in
  let pred := @predict_step L Examples.flat_model default_feature_cols stats 1
                (fst st1) (snd st1) in
  (forall stats i rm4 pred last_pred,
      add_variation stats i rm4 pred last_pred
      = if Qlt_le_dec (Qabs (pred - last_pred)) 0.15 then corrected stats i rm4
        else pred) /\
  map (fun fp => Qred (fp_demand fp)) (snd st1) = [Qred 9.69] /\
  pred == 9.6925 /\
  Qabs (pred - 9.69) < 0.05 /\
  forced 1 9.69 == 9.54 /\
  (exists f,
     @generate_forecast L Examples.demand_service "S" 2 = Ok (Some f) /\
     map (fun fp => Qred (fp_demand fp)) (forecast f) = [Qred 9.69; Qred 9.69]).
Proof.
  split; [intros; apply add_variation_two_way|].
  split; [vm_compute; reflexivity|].
  split; [vm_compute; reflexivity|].
  split; [vm_compute; reflexivity|].
  split; [vm_compute; reflexivity|].
  eexists. split; vm_compute; reflexivity.
Qed.

(** ** More on [generate_forecast] *)

Import SpecMore.

Lemma insert_week_sorted r l :
  Sorted (fun x y => week_le (year_week x) (year_week y)) l ->
  Sorted (fun x y => week_le (year_week x) (year_week y)) (insert_week r l).
Proof.
  induction l as [|x l IH]; simpl; intros Hl.
  - repeat constructor.
  - destruct (String.leb (year_week r) (year_week x)) eqn:E.
    + constructor; [exact Hl|]. constructor. exact E.
    + apply Sorted_inv in Hl as [Hl Hhd]. constructor; [now apply IH|].
      assert (Hxr : week_le (year_week x) (year_week r)).
      { destruct (String.leb_total (year_week r) (year_week x)) as [E'|E'];
          [congruence | exact E']. }
      destruct l as [|y l]; simpl.
      * constructor. exact Hxr.
      * destruct (String.leb (year_week r) (year_week y));
          constructor; [exact Hxr|]. now inversion Hhd.
Qed.

Lemma sort_by_week_sorted l :
  Sorted (fun x y => week_le (year_week x) (year_week y)) (sort_by_week l).
Proof.
  induction l as [|x l IH]; simpl; [constructor|]. now apply insert_week_sorted.
Qed.

Lemma Sorted_skipn {A : Type} (R : A -> A -> Prop) n l :
  Sorted R l -> Sorted R (skipn n l).
Proof.
  revert l. induction n as [|n IH]; intros l Hl; [exact Hl|].
  destruct l as [|x l]; [constructor|]. simpl. apply IH.
  now apply Sorted_inv in Hl as [Hl _].
Qed.

Lemma Sorted_map {A B : Type} (R : B -> B -> Prop) (f : A -> B) l :
  Sorted (fun x y => R (f x) (f y)) l -> Sorted R (map f l).
Proof.
  induction 1 as [|x l Hl IH Hhd]; simpl; constructor; [exact IH|].
  destruct Hhd; simpl; constructor; assumption.
Qed.



Lemma last_n_map {A B : Type} (f : A -> B) n l :
  last_n n (map f l) = map f (last_n n l).
Proof. unfold last_n. now rewrite length_map, skipn_map. Qed.

Section MoreWithLibs.
Context `{Libs}.

Lemma forecast_step_snd model cols stats st i :
  snd (forecast_step model cols stats st i)
  = snd st ++ [{| week := forecast_label i;
                  fp_demand := py_round 2 (predict_step model cols stats i
                                             (fst st) (snd st));
                  is_forecast := true |}].
Proof. destruct st as [hist forecasts]. reflexivity. Qed.

Lemma run_steps_labels model cols stats hist0 k :
  map week (snd (run_steps model cols stats hist0 k)) = map forecast_label (seq 0 k) /\
  Forall (fun p => is_forecast p = true) (snd (run_steps model cols stats hist0 k)).
Proof.
  induction k as [|k [IHw IHf]]; [split; [reflexivity | constructor]|].
  rewrite run_steps_succ, forecast_step_snd, seq_S, !map_app, IHw. split.
  - reflexivity.
  - apply List.Forall_app. split; [exact IHf|]. repeat constructor.
Qed.

Lemma run_steps_extend model cols stats hist0 k j :
  exists rest,
    snd (run_steps model cols stats hist0 (k + j))
    = snd (run_steps model cols stats hist0 k) ++ rest.
Proof.
  induction j as [|j [rest IH]].
  - exists []. now rewrite Nat.add_0_r, app_nil_r.
  - rewrite Nat.add_succ_r, run_steps_succ, forecast_step_snd, IH.
    eexists. rewrite <- app_assoc. reflexivity.
Qed.

Lemma run_steps_never_short model cols stats hist0 k :
  (10 <= length hist0)%nat ->
  (10 <= length (fst (run_steps model cols stats hist0 k)))%nat.
Proof.
  intros Hlen. rewrite run_steps_history.
  destruct k; cbn [Nat.eqb]; lia.
Qed.

Lemma column_unknown f c : ~ In c default_feature_cols -> column f c = None.
Proof.
  intros Hc. unfold column.
  repeat match goal with
         | |- context [String.eqb c ?n] =>
             destruct (String.eqb_spec c n) as [->|_];
             [exfalso; apply Hc; simpl; tauto|]
         end.
  reflexivity.
Qed.

Lemma select_columns_unknown f cols c :
  In c cols -> ~ In c default_feature_cols -> select_columns f cols = None.
Proof.
  intros Hin Hc. induction cols as [|d cols IH]; [destruct Hin|].
  simpl. destruct Hin as [->|Hin].
  - now rewrite column_unknown.
  - rewrite (IH Hin). now destruct (column f d).
Qed.

Lemma predict_step_unknown m1 m2 cols c stats i hist forecasts :
  In c cols -> ~ In c default_feature_cols ->
  predict_step m1 cols stats i hist forecasts
  = predict_step m2 cols stats i hist forecasts.
Proof.
  intros Hin Hc. unfold predict_step.
  destruct (length hist <? 4)%nat; [reflexivity|].
  now rewrite (select_columns_unknown _ cols c Hin Hc).
Qed.

Lemma run_steps_unknown m1 m2 cols c stats hist0 k :
  In c cols -> ~ In c default_feature_cols ->
  run_steps m1 cols stats hist0 k = run_steps m2 cols stats hist0 k.
Proof.
  intros Hin Hc. induction k as [|k IH]; [reflexivity|].
  rewrite !run_steps_succ, IH.
  destruct (run_steps m2 cols stats hist0 k) as [hist forecasts].
  unfold forecast_step.
  now rewrite (predict_step_unknown m1 m2 cols c stats k hist forecasts Hin Hc).
Qed.

(** X15.  Inside [generate_forecast] the two short-history fallbacks are
    never taken: a product that passes the ten-week test has its variation
    statistics computed from the last eight weeks, and at every pass of
    the loop the buffer holds at least ten values, so the branch for fewer
    than four values is not entered. *)
Theorem forecast_fallbacks_unreachable wd a model cols k :
  (10 <= recorded_weeks wd a)%nat ->
  let hist0 := map (fun r => float_of_count (demand r)) (product_rows wd a) in
  let stats := history_stats hist0 in
  stats = {| historical_std := np_std (last_n 8 hist0);
             historical_mean := np_mean (last_n 8 hist0);
             trend := np_mean (last_n 4 hist0) - np_mean (slice_neg 8 4 hist0) |} /\
  (length (fst (run_steps model cols stats hist0 k)) <? 4)%nat = false.
Proof.
  intros Hw hist0 stats.
  assert (Hlen : (10 <= length hist0)%nat).
  { subst hist0. now rewrite length_map, length_product_rows. }
  split.
  - subst stats. unfold history_stats.
    destruct (Nat.leb_spec 8 (length hist0)); [reflexivity | lia].
  - apply Nat.ltb_ge.
    pose proof (run_steps_never_short model cols stats hist0 k Hlen). lia.
Qed.

(** X16.  Asking for more weeks never changes the earlier points: when a
    forecast of [k] weeks is returned, so is one of [k + j] weeks, its
    first [k] points are the points of the shorter forecast, and the
    historical part is the same. *)
Theorem forecast_prefix_stable svc a k j f1 :
  generate_forecast svc a k = Ok (Some f1) ->
  exists f2,
    generate_forecast svc a (k + j) = Ok (Some f2) /\
    firstn k (forecast f2) = forecast f1 /\
    historical f2 = historical f1.
Proof.
  unfold generate_forecast.
  destruct (weekly_demand svc) as [wd|]; [|discriminate].
  destruct (forecast_model svc) as [model|]; [|discriminate].
  destruct (length (product_rows wd a) <? 10)%nat; [discriminate|].
  destruct (model_info svc) as [info|]; [|discriminate].
  set (cols := default default_feature_cols (info_features info)).
  set (hist0 := map _ (product_rows wd a)).
  set (stats := history_stats hist0).
  destruct (run_steps_extend model cols stats hist0 k j) as [rest Hrest].
  destruct (run_steps_forecasts model cols stats hist0 k) as [Hk _].
  destruct (run_steps model cols stats hist0 k) as [h1 fc1].
  destruct (run_steps model cols stats hist0 (k + j)) as [h2 fc2].
  simpl in Hrest, Hk. intros E. inversion E; subst f1; clear E.
  eexists. split; [reflexivity|]. cbn [forecast historical]. split; [|reflexivity].
  subst fc2. rewrite firstn_app, Hk, Nat.sub_diag, firstn_all2 by lia.
  simpl. apply app_nil_r.
Qed.

(** X17.  Layout of a returned forecast: the forecast points are labelled
    "Forecast-1" to "Forecast-weeks" in order and flagged as forecasts;
    the historical part shows the last twelve weekly records of the
    product (all of them when it has fewer), one point per record in
    ascending week order, each with the week and the event count of its
    record and flagged as history; and the combined list is the
    historical part followed by the forecast. *)
Theorem forecast_layout svc wd a weeks f :
  weekly_demand svc = Some wd ->
  generate_forecast svc a weeks = Ok (Some f) ->
  map week (forecast f) = map forecast_label (seq 0 weeks) /\
  Forall (fun p => is_forecast p = true) (forecast f) /\
  (10 <= length (historical f) <= 12)%nat /\
  Forall2 (fun p r => week p = year_week r /\
                      fp_demand p == inject_Z (Z.of_N (demand r)) /\
                      is_forecast p = false)
          (historical f) (last_n 12 (product_rows wd a)) /\
  weeks_ascending (map week (historical f)) /\
  combined f = historical f ++ forecast f.
Proof.
  intros Hwd. unfold generate_forecast. rewrite Hwd.
  destruct (forecast_model svc) as [model|]; [|discriminate].
  destruct (Nat.ltb_spec (length (product_rows wd a)) 10) as [|Hlen];
    [discriminate|].
  destruct (model_info svc) as [info|]; [|discriminate].
  set (cols := default default_feature_cols (info_features info)).
  set (hist0 := map _ (product_rows wd a)).
  set (stats := history_stats hist0).
  destruct (run_steps_labels model cols stats hist0 weeks) as [Hw Hf].
  destruct (run_steps model cols stats hist0 weeks) as [h fc].
  simpl in Hw, Hf. intros E. inversion E; subst f; clear E.
  cbn [forecast historical combined].
  split; [exact Hw|]. split; [exact Hf|]. split; [|split; [|split]].
  - rewrite length_map, length_last_n. lia.
  - induction (last_n 12 (product_rows wd a)) as [|r rows IH]; simpl;
      constructor; [|exact IH].
    split; [reflexivity|]. split; [apply py_round_inject | reflexivity].
  - unfold weeks_ascending. rewrite map_map. cbn [week history_point].
    apply Sorted_map. unfold last_n. apply Sorted_skipn, sort_by_week_sorted.
  - reflexivity.
Qed.

(** X19.  When the sidecar lists a feature column that the service does
    not compute, selecting the columns fails at every pass and the
    regressor is never consulted: the answer is the same whatever
    regressor is loaded. *)
Theorem unknown_feature_bypasses_model svc info cols c m1 m2 a weeks :
  model_info svc = Some info ->
  info_features info = Some cols ->
  In c cols -> ~ In c default_feature_cols ->
  generate_forecast (with_model svc m1) a weeks
  = generate_forecast (with_model svc m2) a weeks.
Proof.
  intros Hi Hc Hin Hun. unfold generate_forecast, with_model.
  cbn [weekly_demand forecast_model model_info]. rewrite Hi, Hc.
  destruct (weekly_demand svc) as [wd|]; [|reflexivity].
  destruct (length (product_rows wd a) <? 10)%nat; [reflexivity|].
  unfold default, id.
  now rewrite (run_steps_unknown m1 m2 cols c _ _ weeks Hin Hun).
Qed.




(** X29.  The two demand endpoints agree on the past: on a table with
    one record per product and week, when a forecast is returned,
    [get_product_demand] returns the series of the product, and the
    historical part of the forecast is the last twelve points of that
    series, week by week and demand by demand. *)
Theorem forecast_history_matches_series svc wd a weeks f :
  weekly_demand svc = Some wd ->
  one_record_per_week wd a ->
  generate_forecast svc a weeks = Ok (Some f) ->
  exists pd,
    get_product_demand svc a = Some pd /\
    map (fun p => (week p, fp_demand p)) (historical f)
    = last_n 12 (map (fun p => (sp_week p, sp_demand p)) (pd_time_series pd)).
Proof.
  intros Hwd _. unfold generate_forecast, get_product_demand. rewrite Hwd.
  destruct (forecast_model svc) as [model|]; [|discriminate].
  destruct (Nat.ltb_spec (length (product_rows wd a)) 10) as [|Hlen];
    [discriminate|].
  destruct (model_info svc) as [info|]; [|discriminate].
  destruct (run_steps _ _ _ _ _) as [h fc].
  intros E. inversion E; subst f; clear E. cbn [historical].
  destruct (product_rows wd a) as [|r rows] eqn:Er; [simpl in Hlen; lia|].
  eexists. split; [reflexivity|]. cbn [pd_time_series].
  rewrite !map_map, last_n_map. reflexivity.
Qed.

End MoreWithLibs.

(** X15 on the sample table: S has ten weeks. *)
Lemma forecast_fallbacks_unreachable_witness :
  recorded_weeks Examples.sample_weeks "S" = 10%nat /\
  (length (fst (@run_steps Examples.reference_libs Examples.flat_model
                  default_feature_cols
                  (@history_stats Examples.reference_libs (Examples.history_of "S"))
                  (Examples.history_of "S") 5)) <? 4)%nat = false.
Proof.
  assert (HS : recorded_weeks Examples.sample_weeks "S" = 10%nat)
    by (vm_compute; reflexivity).
  split; [exact HS|].
  assert (Hw : (10 <= recorded_weeks Examples.sample_weeks "S")%nat)
    by (rewrite HS; lia).
  exact (proj2 (@forecast_fallbacks_unreachable Examples.reference_libs
                  Examples.sample_weeks "S" Examples.flat_model
                  default_feature_cols 5%nat Hw)).
Defined.

(** X16 on the sample table: three and five weeks for S. *)
Lemma forecast_prefix_stable_witness :
  exists f1 f2,
    @generate_forecast Examples.reference_libs Examples.demand_service "S" 3
      = Ok (Some f1) /\
    @generate_forecast Examples.reference_libs Examples.demand_service "S" (3 + 2)
      = Ok (Some f2) /\
    firstn 3 (forecast f2) = forecast f1.
Proof.
  destruct (@generate_forecast Examples.reference_libs Examples.demand_service
              "S" 3) as [[f1|]|e] eqn:E;
    [|vm_compute in E; discriminate|vm_compute in E; discriminate].
  destruct (@forecast_prefix_stable Examples.reference_libs
              Examples.demand_service "S" 3%nat 2%nat f1 E) as (f2 & E2 & Hp & _).
  exists f1, f2. repeat split; assumption.
Defined.

(** X17 on the sample table: four weeks for L, which has 21 records of
    ten events each. *)
Lemma forecast_layout_witness :
  exists f,
    @generate_forecast Examples.reference_libs Examples.demand_service "L" 4
      = Ok (Some f) /\
    map week (forecast f) = ["Forecast-1"; "Forecast-2"; "Forecast-3"; "Forecast-4"] /\
    length (historical f) = 12%nat /\
    weeks_ascending (map week (historical f)).
Proof.
  destruct (@generate_forecast Examples.reference_libs Examples.demand_service
              "L" 4) as [[f|]|e] eqn:E;
    [|vm_compute in E; discriminate|vm_compute in E; discriminate].
  destruct (@forecast_layout Examples.reference_libs
              Examples.demand_service Examples.sample_weeks "L" 4%nat f eq_refl E)
    as (Hw & _ & _ & Hh & Hs & _).
  exists f. split; [reflexivity|].
  split; [rewrite Hw; vm_compute; reflexivity|].
  pose proof Hh as Hlen. apply Forall2_length in Hlen.
  split; [rewrite Hlen; vm_compute; reflexivity | exact Hs].
Defined.

(** X19 on the sample table: the sidecar lists "price". *)
Lemma unknown_feature_bypasses_model_witness :
  @generate_forecast Examples.reference_libs
     (with_model MoreExamples.strange_sidecar Examples.flat_model) "S" 3
  = @generate_forecast Examples.reference_libs
      (with_model MoreExamples.strange_sidecar MoreExamples.low_model) "S" 3
  /\ Examples.flat_model [10] <> MoreExamples.low_model [10].
Proof.
  split; [|discriminate].
  apply (@unknown_feature_bypasses_model Examples.reference_libs
           MoreExamples.strange_sidecar
           {| info_features := Some ["lag_1"; "price"] |}
           ["lag_1"; "price"] "price").
  - reflexivity.
  - reflexivity.
  - simpl. tauto.
  - simpl. intros [E|[E|[E|[E|[E|[]]]]]]; discriminate.
Defined.


(** X29 on the sample table: L has 21 weeks, of which the forecast shows
    the last twelve. *)
Lemma forecast_history_matches_series_witness :
  exists f pd,
    @generate_forecast Examples.reference_libs Examples.demand_service "L" 4
      = Ok (Some f) /\
    get_product_demand Examples.demand_service "L" = Some pd /\
    length (pd_time_series pd) = 21%nat /\
    map (fun p => (week p, fp_demand p)) (historical f)
    = last_n 12 (map (fun p => (sp_week p, sp_demand p)) (pd_time_series pd)).
Proof.
  destruct (@generate_forecast Examples.reference_libs Examples.demand_service
              "L" 4) as [[f|]|e] eqn:E;
    [|vm_compute in E; discriminate|vm_compute in E; discriminate].
  assert (Hone : one_record_per_week Examples.sample_weeks "L").
  { unfold one_record_per_week.
    set (weeks := map year_week _).
    assert (Ew : nodup string_dec weeks = weeks) by (vm_compute; reflexivity).
    rewrite <- Ew. apply NoDup_nodup. }
  destruct (@forecast_history_matches_series Examples.reference_libs
              Examples.demand_service Examples.sample_weeks "L" 4%nat f
              eq_refl Hone E) as (pd & Hpd & Hh).
  exists f, pd. split; [reflexivity|]. split; [exact Hpd|]. split; [|exact Hh].
  vm_compute in Hpd. inversion Hpd. reflexivity.
Defined.

End DemandFacts.

(** * The catalog operations *)

Module CatalogFacts.
Import Recommender Catalog Spec RecommenderFacts.

Lemma first_if_str_text field cur :
  truthy cur = false -> truthy (first_if_str field cur) = first_is_text field.
Proof.
  intros Hcur. destruct field as [| | | | |l|]; simpl; try exact Hcur.
  destruct l as [|x l]; [exact Hcur|].
  destruct x; reflexivity.
Qed.

(** the image [get_product_details] resolves is usable exactly when
    [_has_image] says so *)
Lemma resolve_image_has_image data :
  truthy (resolve_image data) = _has_image data.
Proof.
  unfold resolve_image, _has_image. cbv zeta.
  set (f1 := dict_get data "imageURLHighRes" (PList [])).
  set (f2 := dict_get data "imageURL" (PList [])).
  set (u1 := first_if_str f1 PNone).
  pose proof (first_if_str_text f1 PNone eq_refl) as H1. fold u1 in H1.
  rewrite <- H1.
  destruct (truthy u1) eqn:E1; [rewrite E1; exact E1|].
  pose proof (first_if_str_text f2 u1 E1) as H2. rewrite <- H2.
  destruct (truthy (first_if_str f2 u1)) eqn:E2; [exact E2|].
  destruct (dict_get data "images" (PList [])) as [| | | | |l|]; try exact E2.
  destruct l as [|x l]; [exact E2|].
  destruct x; try exact E2; reflexivity.
Qed.

Lemma string_length_append s1 s2 :
  String.length (s1 ++ s2) = (String.length s1 + String.length s2)%nat.
Proof. induction s1 as [|c s1 IH]; simpl; [reflexivity | now rewrite IH]. Qed.

Lemma string_length_prefix n s :
  (n <= String.length s)%nat -> String.length (substring 0 n s) = n.
Proof.
  revert s. induction n as [|n IH]; intros [|c s]; simpl; intros Hn;
    try reflexivity; try lia.
  rewrite IH; [reflexivity | lia].
Qed.

Lemma lower_char_idem c : lower_char (lower_char c) = lower_char c.
Proof. destruct c as [[] [] [] [] [] [] [] []]; reflexivity. Qed.

Lemma py_lower_idem s : py_lower (py_lower s) = py_lower s.
Proof.
  induction s as [|c s IH]; simpl; [reflexivity|].
  now rewrite lower_char_idem, IH.
Qed.

Section WithLibs.
Context `{Libs}.

Lemma details_cases svc a :
  (product_metadata svc !! a = None \/ product_metadata svc !! a = Some []) /\
    get_product_details svc a = Ok (minimal_details a)
  \/ exists data,
       product_metadata svc !! a = Some data /\ data <> [] /\
       get_product_details svc a
       = (p ← Price._parse_price (dict_get data "price" PNone);
          Ok {| d_asin := a;
                d_title := dict_get data "title" (PStr ("Product " ++ a));
                d_image_url := resolve_image data;
                d_price := p;
                d_rating := dict_get data "average_rating" PNone;
                d_rating_count := dict_get data "rating_number" PNone;
                d_store := dict_get data "store" PNone;
                d_categories := resolve_categories data |}).
Proof.
  unfold get_product_details.
  destruct (product_metadata svc !! a) as [[|e data]|]; [left; auto | | left; auto].
  right. exists (e :: data). repeat split. discriminate.
Qed.

Lemma resolve_categories_length data : (length (resolve_categories data) <= 3)%nat.
Proof.
  unfold resolve_categories.
  destruct (dict_get data "categories" (PList [])); simpl; try lia.
  rewrite length_firstn. lia.
Qed.

Lemma details_asin svc a d : get_product_details svc a = Ok d -> d_asin d = a.
Proof.
  destruct (details_cases svc a) as [[_ E] | (data & _ & _ & E)]; rewrite E.
  - intros Hd. inversion Hd. reflexivity.
  - intros Hd. apply bind_ok in Hd as (p & _ & Hd). inversion Hd. reflexivity.
Qed.

Lemma details_image svc a data d :
  product_metadata svc !! a = Some data ->
  get_product_details svc a = Ok d ->
  truthy (d_image_url d) = _has_image data.
Proof.
  intros Hdata.
  destruct (details_cases svc a) as [[Hnone E] | (data' & Hd' & _ & E)]; rewrite E.
  - destruct Hnone as [Hn | Hn]; [congruence|].
    rewrite Hn in Hdata. inversion Hdata; subst.
    intros Hd. inversion Hd. reflexivity.
  - rewrite Hd' in Hdata. inversion Hdata; subst.
    intros Hd. apply bind_ok in Hd as (p & _ & Hd). inversion Hd. simpl.
    apply resolve_image_has_image.
Qed.

End WithLibs.

Lemma firstn_plus {A : Type} (a b : nat) (l : list A) :
  firstn (a + b) l = firstn a l ++ firstn b (skipn a l).
Proof.
  revert l. induction a as [|a IH]; intros [|x l]; simpl;
    try reflexivity; [now rewrite firstn_nil | now rewrite IH].
Qed.

Lemma skipn_plus {A : Type} (a b : nat) (l : list A) :
  skipn (a + b) l = skipn b (skipn a l).
Proof.
  revert l. induction a as [|a IH]; intros [|x l]; simpl;
    try reflexivity; [now rewrite skipn_nil | apply IH].
Qed.

Section WithLibs.
Context `{Libs}.

(** X1.  For a product the catalog holds, the image [get_product_details]
    resolves is usable (truthy) exactly when [_has_image] accepts the
    catalog row: the two image tests never disagree. *)
Theorem has_image_agrees_with_details svc a data d :
  product_metadata svc !! a = Some data ->
  get_product_details svc a = Ok d ->
  truthy (d_image_url d) = _has_image data.
Proof. apply details_image. Qed.

Lemma parse_price_raise v e :
  Price._parse_price v = Raise e ->
  e = OverflowError /\
  exists z, (v = PInt z \/ exists b, v = PBool b /\ z = if b then 1 else 0)%Z /\
            (float_overflow_bound <= Z.abs z)%Z.
Proof.
  destruct v as [|b|z|f|s|l|d]; simpl; try discriminate.
  - destruct b; discriminate.
  - unfold float_of_int.
    destruct (Z.ltb_spec (Z.abs z) float_overflow_bound); simpl; [discriminate|].
    intros E. inversion E. split; [reflexivity|]. exists z. auto.
  - destruct (String.eqb _ _); [discriminate|].
    destruct (float_of_str _); discriminate.
Qed.

(** X2.  [get_product_details] echoes the product ID and keeps at most
    three categories; the only way it fails is [OverflowError], raised
    when the catalog row stores an int price beyond the range of a double.
    A product the catalog does not hold gets the placeholder entry. *)
Theorem details_total_but_for_huge_price svc a :
  (exists d, get_product_details svc a = Ok d /\
             d_asin d = a /\ (length (d_categories d) <= 3)%nat /\
             (product_metadata svc !! a = None -> d = minimal_details a)) \/
  (get_product_details svc a = Raise OverflowError /\
   exists data z, product_metadata svc !! a = Some data /\
                  dict_get data "price" PNone = PInt z /\
                  (float_overflow_bound <= Z.abs z)%Z).
Proof.
  destruct (details_cases svc a) as [[Hnone E] | (data & Hd & _ & E)].
  - left. exists (minimal_details a). repeat split; auto; simpl; lia.
  - rewrite E.
    destruct (Price._parse_price (dict_get data "price" PNone)) as [p|e] eqn:Ep.
    + left. eexists. split; [reflexivity|]. simpl.
      split; [reflexivity|]. split; [apply resolve_categories_length|].
      intros Hn. congruence.
    + right. apply parse_price_raise in Ep as (-> & z & [Hz | (b & Hb & ->)] & Hbig).
      * split; [reflexivity|]. eauto.
      * exfalso. destruct b; vm_compute in Hbig; apply Hbig; reflexivity.
Qed.

End WithLibs.

(** X3.  The description entry of a product never exceeds 200 characters:
    a text of at most 200 characters is kept as it is, a longer one is cut
    to its first 197 characters followed by three dots. *)
Theorem description_at_most_200 (str_other : pyval -> string) data :
  let raw := raw_description str_other data in
  let shown := description_of str_other data in
  (String.length shown <= 200)%nat /\
  ((String.length raw <= 200)%nat -> shown = raw) /\
  ((200 < String.length raw)%nat ->
     shown = (substring 0 197 raw ++ "...")%string /\
     String.length shown = 200%nat).
Proof.
  intros raw shown. unfold shown, description_of, cut_description. fold raw.
  destruct (Nat.ltb_spec 200 (String.length raw)) as [Hlong | Hshort].
  - assert (Hlen : String.length (substring 0 197 raw ++ "...")%string = 200%nat).
    { rewrite string_length_append, string_length_prefix by lia. reflexivity. }
    rewrite Hlen. split; [lia|]. split; [lia | auto].
  - split; [lia|]. split; [auto | lia].
Qed.

Section WithLibs.
Context `{Libs}.

Lemma listed_has_image svc keys a :
  In a (products_with_images svc keys) ->
  In a keys /\
  exists data, product_metadata svc !! a = Some data /\ _has_image data = true.
Proof.
  unfold products_with_images. intros Ha.
  apply List.filter_In in Ha as [Hk Hi]. split; [exact Hk|].
  destruct (product_metadata svc !! a) as [data|]; [eauto | discriminate].
Qed.

(** the second filter of [get_available_products] drops nothing *)
Lemma page_details_listed svc l ps :
  (forall a, In a l ->
     exists data, product_metadata svc !! a = Some data /\ _has_image data = true) ->
  page_details svc l = Ok ps ->
  map d_asin ps = l /\ Forall (fun d => truthy (d_image_url d) = true) ps.
Proof.
  revert ps. induction l as [|a l IH]; simpl; intros ps Hl Hps.
  - inversion Hps. auto.
  - apply bind_ok in Hps as (d & Hd & Hps).
    apply bind_ok in Hps as (tail & Ht & Hps).
    destruct (Hl a (or_introl eq_refl)) as (data & Hdata & Himg).
    rewrite (details_image _ _ _ _ Hdata Hd), Himg in Hps.
    inversion Hps; subst.
    destruct (IH tail) as [Ha Hf]; [auto | exact Ht |].
    simpl. rewrite Ha, (details_asin _ _ _ Hd). split; [reflexivity|].
    constructor; [|exact Hf].
    now rewrite (details_image _ _ _ _ Hdata Hd).
Qed.

Lemma page_details_app svc l1 l2 p1 p2 :
  page_details svc l1 = Ok p1 -> page_details svc l2 = Ok p2 ->
  page_details svc (l1 ++ l2) = Ok (p1 ++ p2).
Proof.
  revert p1. induction l1 as [|a l1 IH]; simpl; intros p1 H1 H2.
  - inversion H1. exact H2.
  - apply bind_ok in H1 as (d & Hd & H1).
    apply bind_ok in H1 as (tail & Ht & H1).
    rewrite Hd. simpl. rewrite (IH tail Ht H2). simpl.
    destruct (truthy (d_image_url d)); inversion H1; reflexivity.
Qed.

Lemma page_slice_listed svc keys limit offset a :
  In a (firstn limit (skipn offset (products_with_images svc keys))) ->
  exists data, product_metadata svc !! a = Some data /\ _has_image data = true.
Proof.
  intros Ha. apply in_firstn, in_skipn in Ha.
  now apply listed_has_image in Ha.
Qed.

(** X4.  A page of [get_available_products] holds exactly the products
    at positions offset .. offset+limit-1 of the list of mapped products
    that have a catalog row with an image: min(limit, total - offset)
    entries, in the order of the mapping, everyone with a usable image.
    [total] is the length of that list, the number of mapped products
    whose catalog row has an image (0 when no mapping is loaded). *)
Theorem available_products_page svc keys limit offset page :
  get_available_products svc keys limit offset = Ok page ->
  length (products page) = Nat.min limit (total page - offset) /\
  Forall (fun d => truthy (d_image_url d) = true) (products page) /\
  (total page <= length keys)%nat /\
  (mappings svc <> None ->
     map d_asin (products page)
     = firstn limit (skipn offset (products_with_images svc keys))) /\
  total page
  = match mappings svc with
    | Some _ => length (products_with_images svc keys)
    | None => 0%nat
    end /\
  (forall a, In a (products_with_images svc keys) <->
             In a keys /\
             exists data, product_metadata svc !! a = Some data /\
                          _has_image data = true).
Proof.
  intros Hp.
  assert (Hlisted : forall a, In a (products_with_images svc keys) <->
             In a keys /\
             exists data, product_metadata svc !! a = Some data /\
                          _has_image data = true).
  { intros a. unfold products_with_images. rewrite List.filter_In.
    split; intros [Ha Hd]; (split; [exact Ha|]).
    - destruct (product_metadata svc !! a) as [data|]; [|discriminate].
      now exists data.
    - destruct Hd as (data & -> & Hd). exact Hd. }
  revert Hp. unfold get_available_products.
  destruct (mappings svc) as [maps|].
  - intros Hp. apply bind_ok in Hp as (ps & Hps & Hp). inversion Hp; subst; simpl.
    apply page_details_listed in Hps as [Ha Hf];
      [|intros a Ha; eapply page_slice_listed; eauto].
    split; [|split; [|split; [|split; [|split]]]];
      [| exact Hf | apply List.filter_length_le | auto | reflexivity
       | exact Hlisted].
    rewrite <- (length_map d_asin), Ha, length_firstn, length_skipn. reflexivity.
  - intros Hp. inversion Hp; subst; simpl.
    split; [|split; [|split; [|split; [|split]]]];
      [lia | constructor | lia | congruence | reflexivity | exact Hlisted].
Qed.

(** X5.  Consecutive pages join: the page of [l1] products at [offset]
    followed by the page of [l2] products at [offset + l1] is the page of
    [l1 + l2] products at [offset], and the total is the same on all. *)
Theorem available_products_pages_join svc keys l1 l2 offset p1 p2 :
  get_available_products svc keys l1 offset = Ok p1 ->
  get_available_products svc keys l2 (offset + l1) = Ok p2 ->
  exists p,
    get_available_products svc keys (l1 + l2) offset = Ok p /\
    products p = products p1 ++ products p2 /\
    total p = total p1 /\ total p = total p2.
Proof.
  unfold get_available_products.
  destruct (mappings svc) as [maps|].
  - intros H1 H2.
    apply bind_ok in H1 as (ps1 & Hps1 & H1). inversion H1; subst.
    apply bind_ok in H2 as (ps2 & Hps2 & H2). inversion H2; subst.
    rewrite firstn_plus, <- skipn_plus.
    rewrite (page_details_app _ _ _ _ _ Hps1 Hps2). simpl.
    eexists. split; [reflexivity|]. auto.
  - intros H1 H2. inversion H1; inversion H2; subst.
    eexists. split; [reflexivity|]. auto.
Qed.

End WithLibs.

Section WithLibs.
Context `{Libs}.

Lemma search_loop_ok svc q limit items acc rs :
  search_loop svc q limit items acc = Ok rs ->
  exists new,
    rs = acc ++ new /\
    map d_asin new
    = firstn (length new) (map fst (List.filter (row_matches q) items)) /\
    (new = [] \/ (length rs <= Nat.max limit (length acc + 1))%nat) /\
    ((length rs < limit)%nat ->
       map d_asin new = map fst (List.filter (row_matches q) items)).
Proof.
  revert acc. induction items as [|[a data] rest IH]; simpl; intros acc Hrs.
  - inversion Hrs. exists []. rewrite app_nil_r. auto.
  - destruct (dict_get data "title" (PStr "")) as [| | | |t| |] eqn:Et;
      try discriminate.
    assert (Hm : row_matches q (a, data) = contains q (py_lower t))
      by (unfold row_matches; simpl; now rewrite Et).
    rewrite Hm.
    destruct (contains q (py_lower t)).
    + apply bind_ok in Hrs as (d & Hd & Hrs).
      pose proof (details_asin _ _ _ Hd) as Ha.
      destruct (Nat.leb_spec limit (length (acc ++ [d]))) as [Hstop | Hgo].
      * injection Hrs as <-. exists [d]. simpl. rewrite Ha.
        rewrite length_app in *. simpl in *.
        repeat split; [right; lia | intros; lia].
      * apply IH in Hrs as (new & -> & Hn & Hb & Hc).
        exists (d :: new). rewrite <- app_assoc. simpl. rewrite Ha.
        rewrite !length_app in *. simpl in *.
        split; [reflexivity|]. split; [now rewrite Hn|]. split.
        -- right. destruct Hb as [-> | Hb]; simpl; lia.
        -- intros Hlt. rewrite Hc; [reflexivity | lia].
    + now apply IH.
Qed.

(** X6.  A search returns at most max(limit, 1) products: the first ones,
    in catalog order, whose title holds the query when both are put in
    lower case; when fewer than [limit] come back they are all of them. *)
Theorem search_returns_first_matches svc items query limit rs :
  search_products svc items query limit = Ok rs ->
  (length rs <= Nat.max limit 1)%nat /\
  map d_asin rs
  = firstn (length rs)
      (map fst (List.filter (row_matches (py_lower query)) items)) /\
  ((length rs < limit)%nat ->
     map d_asin rs = map fst (List.filter (row_matches (py_lower query)) items)).
Proof.
  unfold search_products. destruct items as [|row items].
  - intros Hrs. inversion Hrs. simpl. repeat split; auto. lia.
  - intros Hrs. apply search_loop_ok in Hrs as (new & -> & Hn & Hb & Hc).
    simpl in *. repeat split; [|exact Hn | exact Hc].
    destruct Hb as [-> | Hb]; simpl; lia.
Qed.

Lemma search_loop_raises svc q limit pre a data rest acc :
  (forall t, dict_get data "title" (PStr "") <> PStr t) ->
  (forall row, In row pre -> row_matches q row = true ->
     exists d, get_product_details svc (fst row) = Ok d) ->
  (length (List.filter (row_matches q) pre) = 0%nat \/
   (length acc + length (List.filter (row_matches q) pre) < limit)%nat) ->
  search_loop svc q limit (pre ++ (a, data) :: rest) acc = Raise AttributeError.
Proof.
  intros Hbad. revert acc.
  induction pre as [|[b row] pre IH]; intros acc Hdet Hcount.
  - simpl. destruct (dict_get data "title" (PStr "")) as [| | | |t| |];
      try reflexivity. destruct (Hbad t eq_refl).
  - cbn [app search_loop].
    assert (Hm : row_matches q (b, row)
                 = match dict_get row "title" (PStr "") with
                   | PStr t => contains q (py_lower t)
                   | _ => false
                   end) by reflexivity.
    cbn [List.filter] in Hcount.
    destruct (dict_get row "title" (PStr "")) as [| | | |t| |];
      try reflexivity.
    destruct (contains q (py_lower t)) eqn:Ec.
    + rewrite Hm in Hcount. cbn [length] in Hcount.
      destruct (Hdet (b, row) (or_introl eq_refl)) as [d Hd];
        [rewrite Hm; reflexivity|].
      cbn [fst] in Hd. rewrite Hd. simpl.
      rewrite length_app. cbn [length].
      destruct (Nat.leb_spec limit (length acc + 1)) as [Hle|Hgt]; [lia|].
      apply IH.
      * intros r Hr. apply Hdet. now right.
      * rewrite length_app. cbn [length].
        destruct (length (List.filter (row_matches q) pre)); [now left | right; lia].
    + rewrite Hm in Hcount. apply IH; [|exact Hcount].
      intros r Hr. apply Hdet. now right.
Qed.

(** X7.  A search fails with [AttributeError] when the scan reaches a
    catalog row whose title is not a string (a null title, say), that
    is, when fewer than max(limit, 1) of the rows before it match the
    query; the matches found before it are lost with the exception. *)
Theorem search_raises_on_missing_title svc pre a data rest query limit :
  (forall t, dict_get data "title" (PStr "") <> PStr t) ->
  (length (List.filter (row_matches (py_lower query)) pre) < Nat.max limit 1)%nat ->
  (forall row, In row pre -> row_matches (py_lower query) row = true ->
     exists d, get_product_details svc (fst row) = Ok d) ->
  search_products svc (pre ++ (a, data) :: rest) query limit
  = Raise AttributeError.
Proof.
  intros Hbad Hcount Hdet. unfold search_products.
  destruct (pre ++ (a, data) :: rest) eqn:E;
    [destruct pre; discriminate|].
  rewrite <- E. apply search_loop_raises; [exact Hbad | exact Hdet|].
  destruct (length (List.filter (row_matches (py_lower query)) pre));
    [now left | right; simpl; lia].
Qed.

End WithLibs.

(** X4 on the sample shop: two products from position 1. *)
Lemma available_products_page_witness :
  exists page,
    @get_available_products Examples.reference_libs Examples.shop
      MoreExamples.shop_keys 2 1 = Ok page /\
    map d_asin (products page) = ["B"; "D"] /\ total page = 5%nat /\
    length (products page) = Nat.min 2 (total page - 1).
Proof.
  destruct (@get_available_products Examples.reference_libs Examples.shop
              MoreExamples.shop_keys 2 1) as [page|e] eqn:E;
    [|vm_compute in E; discriminate].
  exists page. split; [reflexivity|].
  destruct (@available_products_page Examples.reference_libs Examples.shop
              MoreExamples.shop_keys 2%nat 1%nat page E)
    as (Hlen & _ & _ & _ & Htotal & _).
  split; [vm_compute in E; inversion E; reflexivity|].
  split; [rewrite Htotal; vm_compute; reflexivity | exact Hlen].
Defined.

(** X5 on the sample shop: two pages of two make the page of four. *)
Lemma available_products_pages_join_witness :
  exists p1 p2 p,
    @get_available_products Examples.reference_libs Examples.shop
      MoreExamples.shop_keys 2 0 = Ok p1 /\
    @get_available_products Examples.reference_libs Examples.shop
      MoreExamples.shop_keys 2 (0 + 2) = Ok p2 /\
    @get_available_products Examples.reference_libs Examples.shop
      MoreExamples.shop_keys (2 + 2) 0 = Ok p /\
    products p = products p1 ++ products p2 /\
    map d_asin (products p) = ["A"; "B"; "D"; "F"].
Proof.
  destruct (@get_available_products Examples.reference_libs Examples.shop
              MoreExamples.shop_keys 2 0) as [p1|e] eqn:E1;
    [|vm_compute in E1; discriminate].
  destruct (@get_available_products Examples.reference_libs Examples.shop
              MoreExamples.shop_keys 2 (0 + 2)) as [p2|e] eqn:E2;
    [|vm_compute in E2; discriminate].
  destruct (@available_products_pages_join Examples.reference_libs Examples.shop
              MoreExamples.shop_keys 2%nat 2%nat 0%nat p1 p2 E1 E2)
    as (p & Hp & Hprod & _).
  exists p1, p2, p. repeat split; [exact Hp | exact Hprod |].
  vm_compute in Hp. inversion Hp; subst. reflexivity.
Defined.

(** X6 on the sample catalog: "KETTLE" with limit 2. *)
Lemma search_returns_first_matches_witness :
  exists rs,
    @search_products Examples.reference_libs MoreExamples.kitchen
      MoreExamples.kitchen_items "KETTLE" 2 = Ok rs /\
    map d_asin rs = ["K1"; "K2"] /\ (length rs <= Nat.max 2 1)%nat.
Proof.
  destruct (@search_products Examples.reference_libs MoreExamples.kitchen
              MoreExamples.kitchen_items "KETTLE" 2) as [rs|e] eqn:E;
    [|vm_compute in E; discriminate].
  exists rs. split; [reflexivity|].
  destruct (@search_returns_first_matches Examples.reference_libs
              MoreExamples.kitchen MoreExamples.kitchen_items "KETTLE" 2%nat rs E)
    as (Hlen & _ & _).
  split; [|exact Hlen]. vm_compute in E. inversion E; subst. reflexivity.
Defined.

(** X7 on the sample catalog: "KETTLE" matches the first two titles, and
    the fourth row has a null title; with room for three results the scan
    reaches it. *)
Lemma search_raises_on_missing_title_witness :
  @search_products Examples.reference_libs MoreExamples.kitchen
    MoreExamples.kitchen_items "KETTLE" 3 = Raise AttributeError /\
  length (List.filter (row_matches (py_lower "KETTLE"))
            (firstn 3 MoreExamples.kitchen_items)) = 2%nat.
Proof.
  split; [|vm_compute; reflexivity].
  apply (@search_raises_on_missing_title Examples.reference_libs
           MoreExamples.kitchen
           [("K1", MoreExamples.titled (PStr "Red Kettle"));
            ("K2", MoreExamples.titled (PStr "kettle descaler"));
            ("K3", MoreExamples.titled (PStr "Blue Mug"))]
           "K4" (MoreExamples.titled PNone) [] "KETTLE" 3%nat).
  - intros t Ht. vm_compute in Ht. discriminate.
  - vm_compute. lia.
  - intros row [<- | [<- | [<- | []]]] _; vm_compute; eexists; reflexivity.
Defined.

(** X1 on the sample shop: D has a nested image, C has none. *)
Lemma has_image_agrees_with_details_witness :
  (exists data d,
     product_metadata Examples.shop !! "D" = Some data /\
     @get_product_details Examples.reference_libs Examples.shop "D" = Ok d /\
     truthy (d_image_url d) = _has_image data /\ _has_image data = true) /\
  (exists data d,
     product_metadata Examples.shop !! "C" = Some data /\
     @get_product_details Examples.reference_libs Examples.shop "C" = Ok d /\
     truthy (d_image_url d) = _has_image data /\ _has_image data = false).
Proof.
  split.
  - destruct (product_metadata Examples.shop !! "D") as [data|] eqn:Em;
      [|vm_compute in Em; discriminate].
    destruct (@get_product_details Examples.reference_libs Examples.shop "D")
      as [d|e] eqn:Ed; [|vm_compute in Ed; discriminate].
    exists data, d. repeat split.
    + apply (@has_image_agrees_with_details Examples.reference_libs
               Examples.shop "D" data d Em Ed).
    + vm_compute in Em. inversion Em; subst. reflexivity.
  - destruct (product_metadata Examples.shop !! "C") as [data|] eqn:Em;
      [|vm_compute in Em; discriminate].
    destruct (@get_product_details Examples.reference_libs Examples.shop "C")
      as [d|e] eqn:Ed; [|vm_compute in Ed; discriminate].
    exists data, d. repeat split.
    + apply (@has_image_agrees_with_details Examples.reference_libs
               Examples.shop "C" data d Em Ed).
    + vm_compute in Em. inversion Em; subst. reflexivity.
Defined.

End CatalogFacts.

(** * More on the recommenders *)

Module RecommenderMore.
Import Recommender Spec RecommenderFacts.

Lemma NoDup_firstn {A : Type} n (l : list A) :
  List.NoDup l -> List.NoDup (firstn n l).
Proof.
  revert l. induction n as [|n IH]; intros [|x l] Hnd; simpl; try constructor.
  - apply List.NoDup_cons_iff in Hnd as [Hx Hnd].
    intros Hin. apply Hx. eapply in_firstn; eauto.
  - apply IH. now apply List.NoDup_cons_iff in Hnd.
Qed.

Lemma NoDup_map_filter {A B : Type} (f : A -> B) (p : A -> bool) l :
  List.NoDup (map f l) -> List.NoDup (map f (List.filter p l)).
Proof.
  induction l as [|x l IH]; simpl; intros Hnd; [constructor|].
  apply List.NoDup_cons_iff in Hnd as [Hx Hnd].
  destruct (p x); simpl; [|auto].
  constructor; [|auto]. intros Hin. apply Hx.
  apply in_map_iff in Hin as (y & Hy & Hin).
  apply List.filter_In in Hin as [Hin _].
  rewrite <- Hy. now apply in_map.
Qed.

Lemma insert_desc_perm {A : Type} (key : A -> Q) x l :
  Permutation (insert_desc key x l) (x :: l).
Proof.
  induction l as [|z l IH]; simpl; [reflexivity|].
  destruct (Qle_bool (key z) (key x)); [reflexivity|].
  rewrite IH. apply perm_swap.
Qed.

Lemma stable_sort_desc_perm {A : Type} (key : A -> Q) l :
  Permutation (stable_sort_desc key l) l.
Proof.
  induction l as [|x l IH]; simpl; [constructor|].
  rewrite insert_desc_perm. now constructor.
Qed.

(** the keys of the fused scores come from the two pools *)
Lemma fuse_keys cf cb w a :
  In a (map fst (hybrid_scores cf cb w)) ->
  In a (map asin cf) \/ In a (map asin cb).
Proof.
  unfold hybrid_scores, fuse.
  assert (Hcf : forall l st,
            In a (map fst (fst (fold_left (add_cf w) l st))) ->
            In a (map fst (fst st)) \/ In a (map asin l)).
  { induction l as [|r l IH]; simpl; intros st Hin; [auto|].
    apply IH in Hin as [Hin | Hin]; [|auto].
    rewrite add_cf_scores in Hin.
    apply in_scores_set_keys in Hin as [-> | Hin]; auto. }
  assert (Hcb : forall l st,
            In a (map fst (fst (fold_left (add_cb (1 - w)) l st))) ->
            In a (map fst (fst st)) \/ In a (map asin l)).
  { induction l as [|r l IH]; simpl; intros st Hin; [auto|].
    apply IH in Hin as [Hin | Hin]; [|auto].
    rewrite add_cb_scores in Hin.
    apply in_scores_set_keys in Hin as [-> | Hin]; auto. }
  intros Hin. apply Hcb in Hin as [Hin | Hin]; [|auto].
  apply Hcf in Hin as [[] | Hin]. auto.
Qed.

Section WithLibs.
Context `{Libs}.

Lemma enrich_methods svc recs l m :
  (forall rec, In rec recs -> c_method rec = m) ->
  _enrich_recommendations svc recs = Ok l ->
  Forall (fun it => method it = m) l /\ (length l <= length recs)%nat.
Proof.
  revert l. induction recs as [|rec rest IH]; simpl; intros l Hm Hl.
  - inversion Hl. split; [constructor | simpl; lia].
  - apply bind_ok in Hl as (details & _ & Hl).
    apply bind_ok in Hl as (tail & Ht & Hl).
    destruct (IH tail) as [Hf Hlen]; [auto | exact Ht |].
    destruct (truthy (d_image_url details)); inversion Hl; subst; simpl.
    + split; [|lia]. constructor; [|exact Hf]. simpl. auto.
    + split; [exact Hf | lia].
Qed.

Lemma content_items svc a n l :
  get_content_recommendations svc a n = Ok l ->
  (length l <= n)%nat /\
  Forall (fun it => truthy (image_url it) = true /\ key it = similarity_key /\
                    method it = content) l.
Proof.
  unfold get_content_recommendations.
  destruct (tfidf_matrix svc) as [m|];
    [|intros E; inversion E; split; [simpl; lia | constructor]].
  destruct (mappings svc) as [maps|];
    [|intros E; inversion E; split; [simpl; lia | constructor]].
  destruct (cb_product_to_idx maps !! a) as [idx|];
    [|intros E; inversion E; split; [simpl; lia | constructor]].
  intros Hl. apply bind_ok in Hl as (row & _ & Hl).
  pose proof (enrich_ok _ _ _ Hl) as (_ & _ & Hi).
  apply enrich_methods with (m := content) in Hl as [Hm Hlen].
  - split.
    + rewrite length_map, length_firstn in Hlen. lia.
    + rewrite List.Forall_forall in *. intros it Hit.
      destruct (Hi it Hit). auto.
  - intros rec Hrec. apply in_map_iff in Hrec as (i & <- & _). reflexivity.
Qed.

Lemma collaborative_tags svc a n l :
  get_collaborative_recommendations svc a n = Ok l ->
  Forall (fun it => truthy (image_url it) = true /\ key it = similarity_key /\
                    method it = collaborative) l.
Proof.
  intros Hl. pose proof (collaborative_items _ _ _ _ Hl) as Hi.
  revert Hl. unfold get_collaborative_recommendations.
  destruct (knn_model svc) as [knn|]; [|returns_empty].
  destruct (item_user_matrix svc) as [m|]; [|returns_empty].
  destruct (mappings svc) as [maps|]; [|returns_empty].
  destruct (product_to_idx maps !! a) as [idx|]; [|returns_empty].
  intros Hl. apply bind_ok in Hl as (row & _ & Hl).
  apply bind_ok in Hl as (neighbours & _ & Hl).
  apply enrich_methods with (m := collaborative) in Hl as [Hm _].
  - rewrite List.Forall_forall in *. intros it Hit.
    destruct (Hi it Hit). auto.
  - intros rec Hrec. apply in_map_iff in Hrec as ([d i] & <- & _). reflexivity.
Qed.

Lemma hybrid_results_tags product_data sorted_recs l :
  hybrid_results product_data sorted_recs = Ok l ->
  Forall (fun it => method it = hybrid) l /\ (length l <= length sorted_recs)%nat.
Proof.
  revert l. induction sorted_recs as [|[a score] rest IH]; simpl; intros l Hl.
  - inversion Hl. split; [constructor | simpl; lia].
  - destruct (product_data !! a) as [data|];
      [|destruct (IH l Hl); split; [auto | lia]].
    destruct (truthy (image_url data));
      [|destruct (IH l Hl); split; [auto | lia]].
    rewrite parse_price_of_price in Hl. simpl in Hl.
    apply bind_ok in Hl as (tail & Ht & Hl). inversion Hl; subst.
    destruct (IH tail Ht) as [Hf Hlen]. simpl.
    split; [constructor; auto | lia].
Qed.

(** X8.  A content answer has at most n items, and every item of a
    content or collaborative answer has a usable image, carries the
    ["similarity"] key and is tagged with the method that produced it. *)
Theorem single_method_answers svc a n :
  (forall l, get_content_recommendations svc a n = Ok l ->
     (length l <= n)%nat /\
     Forall (fun it => truthy (image_url it) = true /\ key it = similarity_key /\
                       method it = content) l) /\
  (forall l, get_collaborative_recommendations svc a n = Ok l ->
     Forall (fun it => truthy (image_url it) = true /\ key it = similarity_key /\
                       method it = collaborative) l).
Proof.
  split; intros l Hl;
    [exact (content_items _ _ _ _ Hl) | exact (collaborative_tags _ _ _ _ Hl)].
Qed.

Lemma hybrid_items_shape svc a n w l :
  get_hybrid_recommendations svc a n w = Ok l ->
  (length l <= n)%nat /\
  Forall (fun it => truthy (image_url it) = true) l /\
  (Forall (fun it => method it = hybrid /\ key it = score_key) l \/
   Forall (fun it => method it = collaborative /\ key it = similarity_key) l \/
   Forall (fun it => method it = content /\ key it = similarity_key) l).
Proof.
  intros Hl. unfold get_hybrid_recommendations in Hl.
  apply bind_ok in Hl as (cf_recs & Hcf & Hl).
  apply bind_ok in Hl as (cb_recs & Hcb & Hl).
  apply collaborative_tags in Hcf. apply content_items in Hcb as [_ Hcb].
  assert (Hfirst : forall (P : Item -> Prop) k (xs : list Item),
            Forall P xs -> Forall P (firstn k xs)).
  { intros P k xs Hxs. rewrite List.Forall_forall in *.
    intros x Hx. apply Hxs. eapply in_firstn; eauto. }
  destruct cf_recs as [|c cf], cb_recs as [|b cb].
  - inversion Hl. simpl. split; [lia|]. split; [constructor|]. left. constructor.
  - inversion Hl; subst. split; [rewrite length_firstn; lia|].
    apply (Hfirst _ n) in Hcb. split.
    + eapply List.Forall_impl; [|exact Hcb]. simpl. tauto.
    + right. right. eapply List.Forall_impl; [|exact Hcb]. simpl. tauto.
  - inversion Hl; subst. split; [rewrite length_firstn; lia|].
    apply (Hfirst _ n) in Hcf. split.
    + eapply List.Forall_impl; [|exact Hcf]. simpl. tauto.
    + right. left. eapply List.Forall_impl; [|exact Hcf]. simpl. tauto.
  - destruct (fuse (c :: cf) (b :: cb) w) as [scores product_data].
    pose proof (hybrid_results_tags _ _ _ Hl) as [Hm Hlen].
    destruct (hybrid_results_ok product_data
                (firstn n (stable_sort_desc snd scores)))
      as (l' & Hl' & _ & _ & Hi).
    rewrite Hl' in Hl. inversion Hl; subst l'.
    split; [rewrite length_firstn in Hlen; lia|]. split.
    + eapply List.Forall_impl; [|exact Hi]. simpl. tauto.
    + left. rewrite List.Forall_forall in *. intros it Hit.
      destruct (Hi it Hit). auto.
Qed.


(** X10.  The hybrid recommender adds no failure of its own: when both
    underlying calls return, it returns.  Every product it returns comes
    from one of the two pools, and a fused answer (both pools non-empty)
    never lists a product twice, even when the pools overlap. *)
Theorem hybrid_from_pools svc a n w cf cb :
  get_collaborative_recommendations svc a (n * 2) = Ok cf ->
  get_content_recommendations svc a (n * 2) = Ok cb ->
  exists l,
    get_hybrid_recommendations svc a n w = Ok l /\
    (forall x, In x (map asin l) -> In x (map asin cf) \/ In x (map asin cb)) /\
    (cf <> [] -> cb <> [] -> List.NoDup (map asin l)).
Proof.
  intros Hcf Hcb. unfold get_hybrid_recommendations.
  rewrite Hcf. simpl. rewrite Hcb. simpl.
  destruct cf as [|c cf'] eqn:Ecf, cb as [|b cb'] eqn:Ecb.
  - exists []. repeat split; [intros x [] | congruence].
  - eexists. split; [reflexivity|]. split; [|congruence].
    intros x Hx. right. rewrite <- firstn_map in Hx. eapply in_firstn; eauto.
  - eexists. split; [reflexivity|]. split; [|congruence].
    intros x Hx. left. rewrite <- firstn_map in Hx. eapply in_firstn; eauto.
  - rewrite <- Ecf, <- Ecb.
    pose proof (fuse_nodup cf cb w) as Hnd.
    pose proof (fuse_keys cf cb w) as Hkeys.
    unfold hybrid_scores in *.
    destruct (fuse cf cb w) as [scores pd]. simpl in *.
    destruct (hybrid_results_ok pd (firstn n (stable_sort_desc snd scores)))
      as (l & Hl & Ha & _ & _).
    exists l. split; [exact Hl|]. rewrite Ha. split.
    + intros x Hx. apply Hkeys.
      apply in_map_iff in Hx as (e & <- & He).
      apply List.filter_In in He as [He _]. apply in_firstn in He.
      apply in_stable_sort_desc in He. now apply in_map.
    + intros _ _. apply NoDup_map_filter.
      rewrite <- firstn_map. apply NoDup_firstn.
      eapply Permutation_NoDup; [|exact Hnd].
      apply Permutation_sym, Permutation_map, stable_sort_desc_perm.
Qed.

Lemma unknown_gives_empty svc a n w :
  (forall maps, mappings svc = Some maps ->
     product_to_idx maps !! a = None /\ cb_product_to_idx maps !! a = None) ->
  get_collaborative_recommendations svc a n = Ok [] /\
  get_content_recommendations svc a n = Ok [] /\
  get_hybrid_recommendations svc a n w = Ok [].
Proof.
  intros Hun.
  assert (Hcf : forall k, get_collaborative_recommendations svc a k = Ok []).
  { intros k. unfold get_collaborative_recommendations.
    destruct (knn_model svc), (item_user_matrix svc); try reflexivity.
    destruct (mappings svc) as [maps|] eqn:Em; [|reflexivity].
    destruct (Hun maps eq_refl) as [-> _]. reflexivity. }
  assert (Hcb : forall k, get_content_recommendations svc a k = Ok []).
  { intros k. unfold get_content_recommendations.
    destruct (tfidf_matrix svc); try reflexivity.
    destruct (mappings svc) as [maps|] eqn:Em; [|reflexivity].
    destruct (Hun maps eq_refl) as [_ ->]. reflexivity. }
  repeat split; [apply Hcf | apply Hcb |].
  unfold get_hybrid_recommendations. rewrite Hcf. simpl. rewrite Hcb. reflexivity.
Qed.

(** X11.  A product that neither mapping knows gets the empty answer from
    the three recommenders, whatever the state of the indices, and no
    exception. *)
Theorem unknown_product_empty svc a n w :
  (forall maps, mappings svc = Some maps ->
     product_to_idx maps !! a = None /\ cb_product_to_idx maps !! a = None) ->
  get_collaborative_recommendations svc a n = Ok [] /\
  get_content_recommendations svc a n = Ok [] /\
  get_hybrid_recommendations svc a n w = Ok [].
Proof. apply unknown_gives_empty. Qed.

(** X12.  The content recommender never returns the queried product when
    its self-similarity is strictly the largest entry of its similarity
    row and no other row is mapped to its ID, for every [argsort] that
    lists every position once, by increasing value. *)
Theorem content_excludes_query_without_ties svc m maps a idx n l :
  argsort_permutes -> argsort_sorts ->
  tfidf_matrix svc = Some m -> mappings svc = Some maps ->
  cb_product_to_idx maps !! a = Some idx ->
  a <> "" ->
  (forall j row rowj,
      nth_error m idx = Some row -> nth_error m j = Some rowj -> j <> idx ->
      cosine row rowj < cosine row row) ->
  (forall j, (j < length m)%nat ->
      cb_idx_to_product maps !! str_of_nat j = Some a -> j = idx) ->
  get_content_recommendations svc a n = Ok l ->
  ~ In a (map asin l).
Proof. apply content_excludes_dominant_query. Qed.

(** X13.  Every item of a fused hybrid answer carries, under ["score"],
    the entry its product ID has in the fused scores, rounded to three
    decimals. *)
Theorem hybrid_items_show_fused_scores svc a n w cf cb l :
  get_collaborative_recommendations svc a (n * 2) = Ok cf ->
  get_content_recommendations svc a (n * 2) = Ok cb ->
  cf <> [] -> cb <> [] ->
  get_hybrid_recommendations svc a n w = Ok l ->
  Forall (fun it =>
            key it = score_key /\
            exists s, scores_get (hybrid_scores cf cb w) (asin it) = Some s /\
                      value it = py_round 3 s) l.
Proof. apply hybrid_items_carry_scores. Qed.

End WithLibs.


(** X10 on the sample shop: both pools of product A are non-empty. *)
Lemma hybrid_from_pools_witness :
  exists l,
    @get_hybrid_recommendations Examples.reference_libs Examples.shop "A" 2 0.6
      = Ok l /\
    List.NoDup (map asin l).
Proof.
  destruct (@get_collaborative_recommendations Examples.reference_libs
              Examples.shop "A" (2 * 2)) as [cf|e] eqn:Ecf;
    [|vm_compute in Ecf; discriminate].
  destruct (@get_content_recommendations Examples.reference_libs
              Examples.shop "A" (2 * 2)) as [cb|e] eqn:Ecb;
    [|vm_compute in Ecb; discriminate].
  destruct (@hybrid_from_pools Examples.reference_libs
              Examples.shop "A" 2%nat 0.6 cf cb Ecf Ecb) as (l & Hl & _ & Hnd).
  exists l. split; [exact Hl|]. apply Hnd.
  - vm_compute in Ecf. inversion Ecf. discriminate.
  - vm_compute in Ecb. inversion Ecb. discriminate.
Defined.

(** X11 on the sample shop: product Z is in neither mapping. *)
Lemma unknown_product_empty_witness :
  @get_collaborative_recommendations Examples.reference_libs Examples.shop "Z" 3
    = Ok [] /\
  @get_content_recommendations Examples.reference_libs Examples.shop "Z" 3
    = Ok [] /\
  @get_hybrid_recommendations Examples.reference_libs Examples.shop "Z" 3 0.6
    = Ok [].
Proof.
  apply (@unknown_product_empty Examples.reference_libs Examples.shop "Z" 3%nat 0.6).
  intros maps Hm. unfold Examples.shop in Hm. cbn [mappings] in Hm.
  injection Hm as <-. split; vm_compute; reflexivity.
Defined.

(** X12 on the sample shop: the text row of product A is closest to
    itself, and only row 0 is mapped to A. *)
Lemma content_excludes_query_without_ties_witness :
  exists l,
    @get_content_recommendations Examples.reference_libs Examples.shop "A" 3
      = Ok l /\
    l <> [] /\ ~ In "A" (map asin l).
Proof.
  destruct (@get_content_recommendations Examples.reference_libs
              Examples.shop "A" 3) as [l|e] eqn:E;
    [|vm_compute in E; discriminate].
  exists l. split; [reflexivity|]. split.
  - vm_compute in E. inversion E. discriminate.
  - pose (maps := match mappings Examples.shop with
                   | Some m => m
                   | None => Examples.twins_maps
                   end).
    apply (@content_excludes_query_without_ties Examples.reference_libs
             Examples.shop Examples.texts maps "A" 0%nat 3%nat l).
    + exact insertion_argsort_permutes.
    + exact insertion_argsort_sorts.
    + reflexivity.
    + reflexivity.
    + vm_compute. reflexivity.
    + discriminate.
    + intros j row rowj Hrow Hj Hne. simpl in Hrow. inversion Hrow; subst row.
      do 5 (destruct j as [|j];
            [first [congruence
                   | simpl in Hj; inversion Hj; subst rowj; vm_compute; reflexivity]|]).
      destruct j; discriminate.
    + intros j Hj Hmap.
      do 5 (destruct j as [|j];
            [first [reflexivity | vm_compute in Hmap; discriminate]|]).
      simpl in Hj. lia.
    + exact E.
Defined.

(** X13 on the sample shop: the fused answer for product A. *)
Lemma hybrid_items_show_fused_scores_witness :
  exists cf cb l,
    @get_hybrid_recommendations Examples.reference_libs Examples.shop "A" 2 0.6
      = Ok l /\
    l <> [] /\
    Forall (fun it =>
              key it = score_key /\
              exists s, scores_get (hybrid_scores cf cb 0.6) (asin it) = Some s /\
                        value it = py_round 3 s) l.
Proof.
  destruct (@get_collaborative_recommendations Examples.reference_libs
              Examples.shop "A" (2 * 2)) as [cf|e] eqn:Ecf;
    [|vm_compute in Ecf; discriminate].
  destruct (@get_content_recommendations Examples.reference_libs
              Examples.shop "A" (2 * 2)) as [cb|e] eqn:Ecb;
    [|vm_compute in Ecb; discriminate].
  destruct (@get_hybrid_recommendations Examples.reference_libs
              Examples.shop "A" 2 0.6) as [l|e] eqn:E;
    [|vm_compute in E; discriminate].
  exists cf, cb, l. split; [reflexivity|]. split.
  - vm_compute in E. inversion E. discriminate.
  - apply (@hybrid_items_show_fused_scores Examples.reference_libs
             Examples.shop "A" 2%nat 0.6 cf cb l Ecf Ecb).
    + vm_compute in Ecf. inversion Ecf. discriminate.
    + vm_compute in Ecb. inversion Ecb. discriminate.
    + exact E.
Defined.

End RecommenderMore.

(** * demand_service.py: the product series, the weekly totals, loading *)

Module DemandMoreFacts.
Import Demand DemandMore Spec SpecMore DemandFacts Routes.

Lemma insert_week_perm r l : Permutation (insert_week r l) (r :: l).
Proof.
  induction l as [|x l IH]; simpl; [reflexivity|].
  destruct (String.leb _ _); [reflexivity|].
  rewrite IH. apply perm_swap.
Qed.

Lemma sort_by_week_perm l : Permutation (sort_by_week l) l.
Proof.
  induction l as [|x l IH]; simpl; [reflexivity|].
  rewrite insert_week_perm. now constructor.
Qed.

Lemma product_rows_empty wd a : product_rows wd a = [] <-> recorded_weeks wd a = 0%nat.
Proof.
  rewrite <- length_product_rows. split; [now intros -> | apply length_zero_iff_nil].
Qed.

(** X20.  [get_product_demand] answers [None] exactly for a product
    without a weekly record, and the demand route then answers 404.
    Otherwise the series holds one point per record of the product, in
    ascending week order, every demand is the event count of its record
    (rounding to two decimals changes nothing) and the average is not
    negative. *)
Theorem product_demand_series svc wd a :
  weekly_demand svc = Some wd ->
  (get_product_demand svc a = None <-> recorded_weeks wd a = 0%nat) /\
  (demand_route svc a = HTTPException 404 <-> recorded_weeks wd a = 0%nat) /\
  forall pd, get_product_demand svc a = Some pd ->
    pd_asin pd = a /\
    Permutation (pd_time_series pd)
      (map series_point
         (List.filter (fun r => String.eqb (parent_asin r) a) wd)) /\
    weeks_ascending (map sp_week (pd_time_series pd)) /\
    Forall (fun p => is_count (sp_demand p)) (pd_time_series pd) /\
    0 <= pd_avg_demand pd.
Proof.
  intros Hwd. unfold demand_route, get_product_demand. rewrite Hwd.
  pose proof (product_rows_empty wd a) as Hemp.
  pose proof (sort_by_week_sorted
                (List.filter (fun r => String.eqb (parent_asin r) a) wd)) as Hs.
  pose proof (sort_by_week_perm
                (List.filter (fun r => String.eqb (parent_asin r) a) wd)) as Hp.
  fold (product_rows wd a) in Hs, Hp.
  destruct (product_rows wd a) as [|r rows] eqn:E.
  - repeat split; try tauto; discriminate.
  - split; [|split].
    + split; [discriminate|]. intros H0. apply Hemp in H0. discriminate.
    + split; [discriminate|]. intros H0. apply Hemp in H0. discriminate.
    + intros pd Hpd. inversion Hpd; subst pd; clear Hpd.
      cbn [pd_asin pd_time_series pd_avg_demand].
      split; [reflexivity|]. split; [exact (Permutation_map series_point Hp)|].
      split; [|split].
      * unfold weeks_ascending.
        change (Sorted week_le (map sp_week (map series_point (r :: rows)))).
        rewrite map_map. now apply Sorted_map.
      * apply List.Forall_forall. intros p Hin.
        change (In p (map series_point (r :: rows))) in Hin.
        apply in_map_iff in Hin as (x & <- & _).
        exists (demand x). apply py_round_inject.
      * apply py_round_nonneg, np_mean_nonneg, (series_demand_nonneg (r :: rows)).
Qed.

(** X20 on the sample table: P has eight weeks, Z none. *)
Lemma product_demand_series_witness :
  get_product_demand Examples.demand_service "Z" = None /\
  demand_route Examples.demand_service "Z" = HTTPException 404 /\
  exists pd,
    get_product_demand Examples.demand_service "P" = Some pd /\
    length (pd_time_series pd) = 8%nat /\
    weeks_ascending (map sp_week (pd_time_series pd)).
Proof.
  destruct (product_demand_series Examples.demand_service Examples.sample_weeks
              "Z" eq_refl) as (HZ & HR & _).
  split; [apply HZ; vm_compute; reflexivity|].
  split; [apply HR; vm_compute; reflexivity|].
  destruct (get_product_demand Examples.demand_service "P") as [pd|] eqn:E;
    [|vm_compute in E; discriminate].
  destruct (product_demand_series Examples.demand_service Examples.sample_weeks
              "P" eq_refl) as (_ & _ & HP).
  destruct (HP pd E) as (_ & Hperm & Hasc & _).
  exists pd. split; [reflexivity|]. split; [|exact Hasc].
  rewrite (Permutation_length Hperm). vm_compute. reflexivity.
Defined.

(** ** [get_overall_trend] *)

Lemma insert_point_perm p l : Permutation (insert_point p l) (p :: l).
Proof.
  induction l as [|x l IH]; simpl; [reflexivity|].
  destruct (String.leb _ _); [reflexivity|].
  rewrite IH. apply perm_swap.
Qed.

Lemma sort_points_perm l : Permutation (fold_right insert_point [] l) l.
Proof.
  induction l as [|x l IH]; simpl; [reflexivity|].
  rewrite insert_point_perm. now constructor.
Qed.

Lemma insert_point_sorted p l :
  Sorted (fun x y => week_le (tp_week x) (tp_week y)) l ->
  Sorted (fun x y => week_le (tp_week x) (tp_week y)) (insert_point p l).
Proof.
  induction l as [|x l IH]; simpl; intros Hl.
  - repeat constructor.
  - destruct (String.leb (tp_week p) (tp_week x)) eqn:E.
    + constructor; [exact Hl|]. constructor. exact E.
    + apply Sorted_inv in Hl as [Hl Hhd]. constructor; [now apply IH|].
      assert (Hxp : week_le (tp_week x) (tp_week p)).
      { destruct (String.leb_total (tp_week p) (tp_week x)) as [E'|E'];
          [congruence | exact E']. }
      destruct l as [|y l]; simpl.
      * constructor. exact Hxp.
      * destruct (String.leb (tp_week p) (tp_week y));
          constructor; [exact Hxp|]. now inversion Hhd.
Qed.

Lemma sort_points_sorted l :
  Sorted (fun x y => week_le (tp_week x) (tp_week y)) (fold_right insert_point [] l).
Proof.
  induction l as [|x l IH]; simpl; [constructor|]. now apply insert_point_sorted.
Qed.

Lemma Nsum_app l1 l2 : Nsum (l1 ++ l2) = (Nsum l1 + Nsum l2)%N.
Proof. induction l1 as [|x l1 IH]; simpl; [reflexivity|]. rewrite IH. lia. Qed.

Lemma Nsum_perm l1 l2 : Permutation l1 l2 -> Nsum l1 = Nsum l2.
Proof. induction 1; simpl; lia. Qed.

(** a week that occurs once in [ws] collects the demand of a record once *)
Lemma Nsum_one_week (w : string) (d : N) ws :
  List.NoDup ws -> In w ws ->
  Nsum (map (fun w' => if String.eqb w w' then d else 0%N) ws) = d.
Proof.
  induction ws as [|x ws IH]; intros Hnd Hin; [destruct Hin|].
  apply List.NoDup_cons_iff in Hnd as [Hx Hnd]. simpl.
  assert (Hzero : forall l, ~ In w l ->
            Nsum (map (fun w' => if String.eqb w w' then d else 0%N) l) = 0%N).
  { induction l as [|y l IHl]; intros Hl; [reflexivity|]. simpl.
    destruct (String.eqb_spec w y) as [->|_]; [exfalso; apply Hl; now left|].
    rewrite IHl; [reflexivity|]. intros Hy. apply Hl. now right. }
  destruct (String.eqb_spec w x) as [->|Hne].
  - rewrite (Hzero ws Hx). lia.
  - destruct Hin as [->|Hin]; [congruence|]. rewrite (IH Hnd Hin). lia.
Qed.

Lemma week_totals_sum wd ws :
  List.NoDup ws ->
  (forall r, In r wd -> In (year_week r) ws) ->
  Nsum (map (fun w => Nsum (map demand (week_rows wd w))) ws) = Nsum (map demand wd).
Proof.
  intros Hnd. induction wd as [|r wd IH]; intros Hall.
  - simpl. induction ws as [|w ws IHw]; [reflexivity|]. simpl.
    apply List.NoDup_cons_iff in Hnd as [_ Hnd]. now rewrite (IHw Hnd).
  - assert (E : forall l,
              Nsum (map (fun w => Nsum (map demand (week_rows (r :: wd) w))) l)
              = (Nsum (map (fun w => if String.eqb (year_week r) w
                                     then demand r else 0%N) l)
                 + Nsum (map (fun w => Nsum (map demand (week_rows wd w))) l))%N).
    { induction l as [|w l IHl]; [reflexivity|].
      cbn [map Nsum fold_right]. fold (Nsum (map (fun w => Nsum (map demand
        (week_rows (r :: wd) w))) l)).
      fold (Nsum (map (fun w => if String.eqb (year_week r) w
                                then demand r else 0%N) l)).
      fold (Nsum (map (fun w => Nsum (map demand (week_rows wd w))) l)).
      rewrite IHl. unfold week_rows at 1. simpl.
      fold (week_rows wd w).
      destruct (String.eqb (year_week r) w); simpl; lia. }
    rewrite E, IH, (Nsum_one_week (year_week r) (demand r) ws Hnd).
    + reflexivity.
    + apply Hall. now left.
    + intros x Hx. apply Hall. now right.
Qed.

Lemma length_nodup_le (l : list string) :
  (length (nodup string_dec l) <= length l)%nat.
Proof.
  induction l as [|x l IH]; simpl; [lia|].
  destruct (in_dec string_dec x l); simpl; lia.
Qed.

Lemma nodup_nonempty (l : list string) x : In x l -> (1 <= length (nodup string_dec l))%nat.
Proof.
  intros Hx. apply (nodup_In string_dec) in Hx.
  destruct (nodup string_dec l); [destruct Hx | simpl; lia].
Qed.

(** X21.  [get_overall_trend] returns one row for each week of the
    table, in ascending week order; the weekly totals add up to the total
    demand of the table; each row's total is the sum over the records of
    its week, and its number of active products is at least one and at
    most the number of those records. *)
Theorem overall_trend_totals svc wd :
  weekly_demand svc = Some wd ->
  let rows := get_overall_trend svc in
  weeks_ascending (map tp_week rows) /\
  List.NoDup (map tp_week rows) /\
  (forall w, In w (map tp_week rows) <-> In w (map year_week wd)) /\
  Nsum (map tp_total_demand rows) = Nsum (map demand wd) /\
  Forall (fun p =>
            tp_total_demand p = Nsum (map demand (week_rows wd (tp_week p))) /\
            (1 <= tp_active_products p <= length (week_rows wd (tp_week p)))%nat)
         rows.
Proof.
  intros Hwd rows. subst rows. unfold get_overall_trend. rewrite Hwd.
  set (ws := nodup string_dec (map year_week wd)).
  pose proof (sort_points_perm (map (overall_row wd) ws)) as Hp.
  assert (Hweeks : Permutation
            (map tp_week (fold_right insert_point [] (map (overall_row wd) ws))) ws).
  { rewrite Hp, map_map. simpl. now rewrite map_id. }
  assert (Hnd : List.NoDup ws) by apply NoDup_nodup.
  split; [|split; [|split; [|split]]].
  - unfold weeks_ascending. apply Sorted_map, sort_points_sorted.
  - eapply Permutation_NoDup; [symmetry; exact Hweeks | exact Hnd].
  - intros w. unfold ws in Hweeks. split; intros Hw.
    + eapply Permutation_in in Hw; [|exact Hweeks]. now apply nodup_In in Hw.
    + eapply Permutation_in; [symmetry; exact Hweeks|]. now apply nodup_In.
  - rewrite (Nsum_perm _ _ (Permutation_map tp_total_demand Hp)), map_map.
    cbn [tp_total_demand overall_row].
    apply week_totals_sum; [exact Hnd|].
    intros r Hr. apply nodup_In, in_map, Hr.
  - apply List.Forall_forall. intros p Hin.
    eapply Permutation_in in Hin; [|exact Hp].
    apply in_map_iff in Hin as (w & <- & Hw).
    cbn [tp_total_demand tp_active_products tp_week overall_row].
    split; [reflexivity|]. split.
    + apply nodup_In, in_map_iff in Hw as (r & Hr & Hin).
      apply (nodup_nonempty _ (parent_asin r)), in_map.
      unfold week_rows. apply List.filter_In. split; [exact Hin|].
      rewrite Hr. apply String.eqb_refl.
    + rewrite <- (length_map parent_asin). apply length_nodup_le.
Qed.

(** X21 on the sample table: 21 weeks, 600 events. *)
Lemma overall_trend_totals_witness :
  length (get_overall_trend Examples.demand_service) = 21%nat /\
  Nsum (map tp_total_demand (get_overall_trend Examples.demand_service)) = 600%N /\
  weeks_ascending (map tp_week (get_overall_trend Examples.demand_service)).
Proof.
  destruct (overall_trend_totals Examples.demand_service Examples.sample_weeks
              eq_refl) as (Hasc & _ & _ & Hsum & _).
  split; [vm_compute; reflexivity|]. split; [|exact Hasc].
  rewrite Hsum. vm_compute. reflexivity.
Defined.

(** ** [_load_forecast_model] and the forecast route *)

Section LoadWithLibs.
Context `{Libs}.

Lemma generate_forecast_cases svc a weeks :
  match weekly_demand svc, forecast_model svc with
  | Some wd, Some _ =>
      if (recorded_weeks wd a <? 10)%nat
      then generate_forecast svc a weeks = Ok None
      else match model_info svc with
           | None => generate_forecast svc a weeks = Raise AttributeError
           | Some _ => exists f, generate_forecast svc a weeks = Ok (Some f)
           end
  | _, _ => generate_forecast svc a weeks = Ok None
  end.
Proof.
  unfold generate_forecast.
  destruct (weekly_demand svc) as [wd|]; [|reflexivity].
  destruct (forecast_model svc) as [model|]; [|reflexivity].
  rewrite length_product_rows.
  destruct (recorded_weeks wd a <? 10)%nat; [reflexivity|].
  destruct (model_info svc) as [info|]; [|reflexivity].
  destruct (run_steps _ _ _ _ _) as [h fc]. eexists. reflexivity.
Qed.

(** X18.  After [_load_forecast_model], [generate_forecast] raises
    [AttributeError] when the regressor was loaded, the sidecar file
    exists but could not be read, and the product has at least ten weekly
    records: [model_info] is still [None] when its ["features"] entry is
    read.  It returns [None] exactly when the regressor is not in place
    (its file, or the sidecar file, is missing, or loading it failed) or
    the product has fewer than ten records; and a forecast is returned
    only when both files were read. *)
Theorem forecast_after_loading wd model_file info_file a weeks :
  let svc := _load_forecast_model (after_load_data wd) model_file info_file in
  let enough := exists t, wd = Some t /\ (10 <= recorded_weeks t a)%nat in
  let in_place := (exists m, model_file = Holds m) /\ info_file <> Missing in
  (in_place -> enough -> info_file = Unreadable ->
     generate_forecast svc a weeks = Raise AttributeError) /\
  (generate_forecast svc a weeks = Ok None <-> ~ (in_place /\ enough)) /\
  (forall f, generate_forecast svc a weeks = Ok (Some f) ->
     in_place /\ enough /\ exists i, info_file = Holds i).
Proof.
  intros svc enough in_place.
  pose proof (generate_forecast_cases svc a weeks) as Hc.
  remember (generate_forecast svc a weeks) as g eqn:Eg. clear Eg.
  assert (Hg :
    (g = Raise AttributeError /\ in_place /\ info_file = Unreadable /\ enough) \/
    ((exists f, g = Ok (Some f)) /\
     in_place /\ (exists i, info_file = Holds i) /\ enough) \/
    (g = Ok None /\ ~ (in_place /\ enough))).
  { subst svc enough in_place.
    destruct model_file as [| |m], info_file as [| |i], wd as [t|];
      unfold _load_forecast_model, after_load_data in Hc;
      cbn [exists_ andb weekly_demand forecast_model model_info] in Hc;
      try (destruct (Nat.ltb_spec (recorded_weeks t a) 10) as [Hlt|Hge]);
      first
        [ left; split; [exact Hc|];
          split; [split; [eexists; reflexivity | discriminate]|];
          split; [reflexivity|];
          exists t; split; [reflexivity | exact Hge]
        | right; left; split; [exact Hc|];
          split; [split; [eexists; reflexivity | discriminate]|];
          split; [eexists; reflexivity|];
          exists t; split; [reflexivity | exact Hge]
        | right; right; split; [exact Hc|];
          intros (((m' & Em) & Ei) & (t' & Et & Ht));
          first [ discriminate Em
                | now destruct Ei
                | discriminate Et
                | inversion Et; subst; lia ] ]. }
  clear Hc.
  destruct Hg as [(-> & Hp & Hi & He) | [((f & ->) & Hp & Hi & He) | (-> & Hn)]].
  - split; [reflexivity|]. split.
    + split; [discriminate | intros Hn; destruct Hn; auto].
    + discriminate.
  - split; [|split].
    + intros _ _ Ei. destruct Hi as [i Hi]. rewrite Hi in Ei. discriminate.
    + split; [discriminate | intros Hn; destruct Hn; auto].
    + intros f' _. auto.
  - split; [|split].
    + intros Hp He _. destruct Hn. auto.
    + split; [intros _; exact Hn | reflexivity].
    + discriminate.
Qed.

End LoadWithLibs.

(** X18 on the sample table: the sidecar of the flat regressor cannot be
    read; S has ten weeks and N nine. *)
Lemma forecast_after_loading_witness :
  let svc := _load_forecast_model (after_load_data (Some Examples.sample_weeks))
               (Holds Examples.flat_model) Unreadable in
  @generate_forecast Examples.reference_libs svc "S" 8 = Raise AttributeError /\
  @generate_forecast Examples.reference_libs svc "N" 8 = Ok None.
Proof.
  intros svc.
  destruct (@forecast_after_loading Examples.reference_libs
              (Some Examples.sample_weeks) (Holds Examples.flat_model) Unreadable
              "S" 8%nat) as (HS & _ & _).
  destruct (@forecast_after_loading Examples.reference_libs
              (Some Examples.sample_weeks) (Holds Examples.flat_model) Unreadable
              "N" 8%nat) as (_ & HN & _).
  split.
  - apply HS; [split; [eexists; reflexivity | discriminate] | | reflexivity].
    exists Examples.sample_weeks. split; [reflexivity|]. vm_compute. lia.
  - apply HN. intros (_ & t & Et & Ht). inversion Et; subst t.
    vm_compute in Ht. lia.
Defined.

End DemandMoreFacts.

(** * recommendation_service.py: loading the artefacts *)

Module LoadingFacts.
Import Recommender DemandMore Loading Routes.

Section Scanning.
Variables (B M : nat).
Variable mp : gmap string nat.

Lemma read_batch_prefix file offset :
  read_batch B (firstn B file) offset = read_batch B file offset.
Proof.
  unfold read_batch. rewrite firstn_firstn, Nat.min_id. reflexivity.
Qed.

Lemma read_batch_start file : read_batch B file 0 = firstn B file.
Proof.
  unfold read_batch. rewrite skipn_O, firstn_firstn, Nat.min_id. reflexivity.
Qed.

Lemma read_batch_beyond file offset : (B <= offset)%nat -> read_batch B file offset = [].
Proof.
  intros Hoff. unfold read_batch. rewrite skipn_all2; [apply firstn_nil|].
  rewrite length_firstn. lia.
Qed.

Lemma in_read_batch file offset r : In r (read_batch B file offset) -> In r (firstn B file).
Proof.
  unfold read_batch. intros Hr. apply in_firstn in Hr. now apply in_skipn in Hr.
Qed.

Lemma scan_prefix file passes offset st :
  scan B M (firstn B file) mp passes offset st = scan B M file mp passes offset st.
Proof.
  revert offset st. induction passes as [|k IH]; intros offset st; [reflexivity|].
  cbn [scan]. rewrite read_batch_prefix.
  destruct (_ && _); [|reflexivity].
  destruct (read_batch B file offset); [reflexivity | apply IH].
Qed.

(** from the second pass on, the slice is empty and the loop ends *)
Lemma scan_once file passes st :
  scan B M file mp (S (S passes)) 0 st
  = if (snd st <? size mp)%nat && (0 <? M)%nat
    then fold_left (take_model_product mp) (firstn B file) st
    else st.
Proof.
  cbn [scan]. rewrite read_batch_start.
  destruct (_ && _); [|reflexivity].
  destruct (firstn B file) as [|r rows] eqn:E; [reflexivity|].
  rewrite read_batch_beyond by lia.
  destruct (_ && _); reflexivity.
Qed.

End Scanning.

Import LoadingSpec.

Lemma grows_refl rows pm : grows_from rows pm pm.
Proof. split; auto. Qed.

Lemma grows_insert rows pm pm' r a :
  grows_from rows pm pm' -> In r rows -> row_id r = Some a -> pm' !! a = None ->
  grows_from rows pm (<[a := fields r]> pm').
Proof.
  intros [Hkeep Hnew] Hr Hid Hnone. split.
  - intros x d Hx. destruct (decide (a = x)) as [->|Hne].
    + apply Hkeep in Hx. congruence.
    + rewrite lookup_insert_ne by exact Hne. now apply Hkeep.
  - intros x d Hx. apply lookup_insert_Some in Hx as [[<- <-]|[Hne Hx]].
    + right. split; [|now exists r].
      destruct (pm !! a) as [d'|] eqn:E; [|reflexivity].
      apply Hkeep in E. congruence.
    + now apply Hnew.
Qed.

Lemma grows_take_any rows pm pm' r :
  grows_from rows pm pm' -> In r rows -> grows_from rows pm (take_any_product pm' r).
Proof.
  intros Hg Hr. unfold take_any_product.
  destruct (row_id r) as [a|] eqn:Hid; [|exact Hg].
  destruct (pm' !! a) eqn:E; [exact Hg|]. now apply grows_insert.
Qed.

Lemma grows_take_model mp rows pm st r :
  grows_from rows pm (fst st) -> In r rows ->
  grows_from rows pm (fst (take_model_product mp st r)).
Proof.
  destruct st as [pm' found]. intros Hg Hr. unfold take_model_product.
  destruct (row_id r) as [a|] eqn:Hid; [|exact Hg].
  destruct (mp !! a); [|exact Hg].
  destruct (pm' !! a) eqn:E; [exact Hg|]. now apply grows_insert.
Qed.

Lemma grows_fold_any rows pm batch pm' :
  grows_from rows pm pm' -> (forall r, In r batch -> In r rows) ->
  grows_from rows pm (fold_left take_any_product batch pm').
Proof.
  revert pm'. induction batch as [|r batch IH]; intros pm' Hg Hsub; [exact Hg|].
  simpl. apply IH.
  - apply grows_take_any; [exact Hg | apply Hsub; now left].
  - intros x Hx. apply Hsub. now right.
Qed.

Lemma grows_fold_model mp rows pm batch st :
  grows_from rows pm (fst st) -> (forall r, In r batch -> In r rows) ->
  grows_from rows pm (fst (fold_left (take_model_product mp) batch st)).
Proof.
  revert st. induction batch as [|r batch IH]; intros st Hg Hsub; [exact Hg|].
  simpl. apply IH.
  - apply grows_take_model; [exact Hg | apply Hsub; now left].
  - intros x Hx. apply Hsub. now right.
Qed.

(** a row of a model product leaves its ID in the index *)
Lemma take_model_indexes mp st r a :
  row_id r = Some a -> is_Some (mp !! a) ->
  is_Some (fst (take_model_product mp st r) !! a).
Proof.
  destruct st as [pm found]. intros Hid [i Hi]. unfold take_model_product.
  rewrite Hid, Hi. destruct (pm !! a) as [d|] eqn:E; simpl.
  - rewrite E. now eexists.
  - exists (fields r). apply lookup_insert_Some. left. split; reflexivity.
Qed.

Lemma take_model_keeps mp st r a :
  is_Some (fst st !! a) -> is_Some (fst (take_model_product mp st r) !! a).
Proof.
  intros [d Hd].
  destruct (grows_take_model mp [r] (fst st) st r (grows_refl _ _)) as [Hk _];
    [now left|].
  exists d. now apply Hk.
Qed.

Lemma fold_model_keeps mp batch st a :
  is_Some (fst st !! a) ->
  is_Some (fst (fold_left (take_model_product mp) batch st) !! a).
Proof.
  revert st. induction batch as [|r batch IH]; intros st Hs; [exact Hs|].
  simpl. apply IH. now apply take_model_keeps.
Qed.

Lemma fold_model_indexes mp batch st r a :
  In r batch -> row_id r = Some a -> is_Some (mp !! a) ->
  is_Some (fst (fold_left (take_model_product mp) batch st) !! a).
Proof.
  revert st. induction batch as [|x batch IH]; intros st Hr Hid Hm; [destruct Hr|].
  simpl. destruct Hr as [->|Hr].
  - apply fold_model_keeps. now apply take_model_indexes.
  - now apply IH.
Qed.

Lemma fold_any_keeps batch pm a :
  is_Some (pm !! a) -> is_Some (fold_left take_any_product batch pm !! a).
Proof.
  intros [d Hd].
  destruct (grows_fold_any batch pm batch pm (grows_refl _ _)) as [Hk _]; [auto|].
  exists d. now apply Hk.
Qed.

Lemma model_products_of maps a :
  match maps with
  | Some m => product_to_idx m
  | None => (∅ : gmap string nat)
  end !! a
  = match maps with
    | Some m => product_to_idx m !! a
    | None => None
    end.
Proof. destruct maps; [reflexivity | apply lookup_empty]. Qed.

Lemma browse_within_batch : Nat.min browse_rows batch_size = browse_rows.
Proof. vm_compute. reflexivity. Qed.

Lemma max_rows_positive : (0 <? max_rows)%nat = true.
Proof. vm_compute. reflexivity. Qed.

Opaque batch_size max_rows browse_rows.

Lemma scan_passes maps pm file :
  scan batch_size max_rows file
    (match maps with Some m => product_to_idx m | None => ∅ end) 10 0 (pm, 0%nat)
  = if (0 <? size (match maps with
                   | Some m => product_to_idx m
                   | None => (∅ : gmap string nat)
                   end))%nat
    then fold_left (take_model_product
                      (match maps with Some m => product_to_idx m | None => ∅ end))
           (firstn batch_size file) (pm, 0%nat)
    else (pm, 0%nat).
Proof.
  rewrite scan_once. cbn [snd].
  rewrite max_rows_positive, andb_true_r. reflexivity.
Qed.

(** X25.  [_load_metadata_index] reads the first 50,000 rows of the
    metadata file only, although its loop is written for 500,000: the
    second pass slices an empty frame and ends the loop, so the scan is
    one pass over those rows (none when no mapping is loaded), and the
    index is the same for every file that starts with the same 50,000
    rows. *)
Theorem metadata_index_reads_first_batch maps pm file :
  _load_metadata_index maps pm file
  = _load_metadata_index maps pm (firstn batch_size file) /\
  scan batch_size max_rows file
    (match maps with Some m => product_to_idx m | None => ∅ end) 10 0 (pm, 0%nat)
  = if (0 <? size (match maps with
                   | Some m => product_to_idx m
                   | None => (∅ : gmap string nat)
                   end))%nat
    then fold_left (take_model_product
                      (match maps with Some m => product_to_idx m | None => ∅ end))
           (firstn batch_size file) (pm, 0%nat)
    else (pm, 0%nat).
Proof.
  split; [|apply scan_passes].
  unfold _load_metadata_index. rewrite scan_prefix.
  rewrite firstn_firstn, browse_within_batch. reflexivity.
Qed.

(** X26.  The index built by [_load_metadata_index] keeps every entry it
    had, and each new entry is the content of a row among the first
    50,000 whose ID (the [parent_asin] column, or the [asin] column when
    that one is empty) is the key.  Every product of the collaborative
    mapping that has such a row is indexed. *)
Theorem metadata_index_entries maps pm file :
  grows_from (firstn batch_size file) pm (_load_metadata_index maps pm file) /\
  forall m r a,
    maps = Some m -> In r (firstn batch_size file) -> row_id r = Some a ->
    is_Some (product_to_idx m !! a) ->
    is_Some (_load_metadata_index maps pm file !! a).
Proof.
  unfold _load_metadata_index. rewrite scan_passes.
  set (mp := match maps with Some m => product_to_idx m | None => ∅ end).
  assert (Hbrowse : forall r, In r (firstn browse_rows file) ->
                              In r (firstn batch_size file)).
  { intros r Hr.
    rewrite <- browse_within_batch, <- firstn_firstn in Hr. eapply in_firstn, Hr. }
  split.
  - assert (Hscan : grows_from (firstn batch_size file) pm
              (fst (if (0 <? size mp)%nat
                    then fold_left (take_model_product mp)
                           (firstn batch_size file) (pm, 0%nat)
                    else (pm, 0%nat)))).
    { destruct (0 <? size mp)%nat; [|exact (grows_refl _ pm)].
      apply (grows_fold_model mp (firstn batch_size file) pm
               (firstn batch_size file) (pm, 0%nat));
        [exact (grows_refl _ pm) | intros r Hr; exact Hr]. }
    destruct (if (0 <? size mp)%nat then _ else _) as [pm1 found].
    cbn [fst] in Hscan.
    destruct (size pm1 <? 100)%nat; [|exact Hscan].
    exact (grows_fold_any (firstn batch_size file) pm (firstn browse_rows file)
             pm1 Hscan Hbrowse).
  - intros m r a -> Hr Hid Hm. subst mp.
    assert (Hpos : (0 <? size (product_to_idx m))%nat = true).
    { apply Nat.ltb_lt. destruct Hm as [i Hi].
      assert (Hne : product_to_idx m <> ∅).
      { intros E. rewrite E, lookup_empty in Hi. discriminate. }
      apply map_size_non_empty_iff in Hne. lia. }
    rewrite Hpos.
    pose proof (fold_model_indexes (product_to_idx m) (firstn batch_size file)
                  (pm, 0%nat) r a Hr Hid Hm) as Hin.
    destruct (fold_left _ _ _) as [pm1 found]. cbn [fst] in Hin.
    destruct (size pm1 <? 100)%nat; [|exact Hin].
    exact (fold_any_keeps (firstn browse_rows file) pm1 a Hin).
Qed.

Transparent batch_size max_rows browse_rows.

(** X26 on a small file: A, a product of the shop, is indexed, with the
    content of its first row; the index holds A, B and X. *)
Lemma metadata_index_entries_witness :
  is_Some (_load_metadata_index (mappings Examples.shop) ∅
             MoreExamples.meta_rows !! "A") /\
  _load_metadata_index (mappings Examples.shop) ∅ MoreExamples.meta_rows !! "A"
    = Some (fields MoreExamples.first_row) /\
  size (_load_metadata_index (mappings Examples.shop) ∅ MoreExamples.meta_rows)
    = 3%nat.
Proof.
  split; [|split; vm_compute; reflexivity].
  pose (m := match mappings Examples.shop with
             | Some m => m
             | None => Examples.twins_maps
             end).
  apply (proj2 (metadata_index_entries (mappings Examples.shop) ∅
                  MoreExamples.meta_rows) m MoreExamples.first_row "A").
  - reflexivity.
  - vm_compute. left. reflexivity.
  - reflexivity.
  - vm_compute. now eexists.
Defined.

End LoadingFacts.

(** * routers/recommendations.py: what the routes answer *)

Module RouteFacts.
Import Recommender Catalog DemandMore Loading Routes Spec RecommenderFacts CatalogFacts
  RecommenderMore.

Lemma details_dict_truthy d : truthy (details_dict d) = true.
Proof. reflexivity. Qed.

Lemma load_models_ready_eq files :
  is_ready (_load_models files)
  = match knn_file files, vectorizer_file files, item_user_file files,
          tfidf_matrix_file files, mappings_file files with
    | Holds _, (Missing | Holds _), Holds _, (Missing | Holds _), Holds _ => true
    | _, _, _, _, _ => false
    end.
Proof.
  destruct files as [k v iu tm mf md]. unfold _load_models.
  cbn [knn_file vectorizer_file item_user_file tfidf_matrix_file mappings_file
       metadata_file].
  destruct k, v, iu, tm, mf; cbn [and_then load_into]; destruct md; reflexivity.
Qed.

Section WithLibs.
Context `{Libs}.

Lemma details_raise_overflow svc a e :
  get_product_details svc a = Raise e -> e = OverflowError.
Proof.
  destruct (details_cases svc a) as [[_ E] | (data & _ & _ & E)]; rewrite E.
  - discriminate.
  - destruct (Price._parse_price (dict_get data "price" PNone)) as [p|e'] eqn:Ep;
      [discriminate|].
    apply parse_price_raise in Ep as (-> & _). intros E'. now inversion E'.
Qed.

Lemma respond_empty svc a m : respond svc a m (Ok []) = HTTPException 404.
Proof. reflexivity. Qed.

Lemma respond_payload svc a m answer p :
  respond svc a m answer = Responds p ->
  answer = Ok (recommendations p) /\ recommendations p <> [] /\
  product_asin p = a /\ response_method p = m /\
  exists d, source_product p = Some d /\ get_product_details svc a = Ok d.
Proof.
  unfold respond. destruct answer as [[|r rs]|e]; try discriminate.
  destruct (get_product_details svc a) as [d|e]; [|discriminate].
  intros E. inversion E; subst p; clear E. simpl.
  repeat split; [discriminate|]. exists d. split; reflexivity.
Qed.

(** X22.  The three recommendation routes answer 503 whenever the nearest
    neighbour index, the interaction matrix or the mappings are missing,
    the content route included, which needs neither of the first two;
    and on a ready service they answer 404 for a product that neither
    mapping knows. *)
Theorem routes_refuse svc a n w :
  (is_ready svc = false ->
     collaborative_route svc a n = HTTPException 503 /\
     content_route svc a n = HTTPException 503 /\
     hybrid_route svc a n w = HTTPException 503) /\
  (is_ready svc = true ->
     (forall maps, mappings svc = Some maps ->
        product_to_idx maps !! a = None /\ cb_product_to_idx maps !! a = None) ->
     collaborative_route svc a n = HTTPException 404 /\
     content_route svc a n = HTTPException 404 /\
     hybrid_route svc a n w = HTTPException 404).
Proof.
  unfold collaborative_route, content_route, hybrid_route. split.
  - intros ->. repeat split.
  - intros -> Hun. destruct (unknown_gives_empty svc a n w Hun) as (-> & -> & ->).
    repeat split.
Qed.

(** X23.  When the hybrid route responds, the service is ready, the
    payload names the queried product and the method "hybrid", carries
    the product's details as source, and lists the service's answer:
    between one and n items, each with a usable image. *)
Theorem hybrid_route_answer svc a n w p :
  hybrid_route svc a n w = Responds p ->
  is_ready svc = true /\
  product_asin p = a /\ response_method p = hybrid /\
  get_hybrid_recommendations svc a n w = Ok (recommendations p) /\
  (1 <= length (recommendations p) <= n)%nat /\
  Forall (fun it => truthy (image_url it) = true) (recommendations p) /\
  exists d, source_product p = Some d /\ get_product_details svc a = Ok d.
Proof.
  unfold hybrid_route. destruct (is_ready svc); [|discriminate]. simpl.
  intros E. apply respond_payload in E as (Ha & Hne & Hp & Hm & Hd).
  destruct (hybrid_items_shape svc a n w _ Ha) as (Hlen & Himg & _).
  repeat split; auto.
  destruct (recommendations p); [congruence | simpl; lia].
Qed.

(** X24.  The product route never answers 404: the details dict it tests
    is never empty.  A product the catalog does not hold is answered with
    the placeholder entry, when the response model accepts it.  The route
    fails in two ways only: with the [OverflowError] of a stored price,
    and with the response model refusing the details the service built
    (a null title, for one). *)
Theorem product_route_never_404 accepts svc a :
  (forall s, product_route accepts svc a <> HTTPException s) /\
  (product_metadata svc !! a = None -> accepts (minimal_details a) = true ->
     product_route accepts svc a = Responds (minimal_details a)) /\
  (forall e, product_route accepts svc a = Fails e -> e = OverflowError) /\
  (product_route accepts svc a = Rejected <->
     exists d, get_product_details svc a = Ok d /\ accepts d = false).
Proof.
  unfold product_route. split; [|split; [|split]].
  - intros s. destruct (get_product_details svc a) as [d|e]; [|discriminate].
    rewrite details_dict_truthy. simpl. destruct (accepts d); discriminate.
  - intros Hn Hacc. unfold get_product_details. rewrite Hn.
    rewrite details_dict_truthy. simpl. now rewrite Hacc.
  - intros e. destruct (get_product_details svc a) as [d|e'] eqn:E.
    + rewrite details_dict_truthy. simpl. destruct (accepts d); discriminate.
    + intros E'. inversion E'; subst. now apply details_raise_overflow in E.
  - destruct (get_product_details svc a) as [d|e'] eqn:E.
    + rewrite details_dict_truthy. simpl. destruct (accepts d) eqn:Hd.
      * split; [discriminate|]. intros (d' & Ed & Hd'). inversion Ed; subst.
        congruence.
      * split; [intros _; now exists d | reflexivity].
    + split; [discriminate|]. intros (d' & Ed & _). discriminate.
Qed.

(** X27.  After [_load_models] the service is ready exactly when the
    nearest-neighbour index, the interaction matrix and the mappings were
    read and neither the vectorizer file nor the TF-IDF matrix file failed
    to load: the five loads share one [try], so a vectorizer or TF-IDF
    file that cannot be read stops the loading before the mappings, and
    the collaborative route, which uses neither, answers 503. *)
Theorem load_models_ready files :
  (is_ready (_load_models files) = true <->
     (exists k, knn_file files = Holds k) /\
     vectorizer_file files <> Unreadable /\
     (exists m, item_user_file files = Holds m) /\
     tfidf_matrix_file files <> Unreadable /\
     (exists m, mappings_file files = Holds m)) /\
  (vectorizer_file files = Unreadable \/ tfidf_matrix_file files = Unreadable ->
     forall a n, collaborative_route (_load_models files) a n = HTTPException 503).
Proof.
  unfold collaborative_route. rewrite load_models_ready_eq.
  destruct (knn_file files) as [| |k], (vectorizer_file files) as [| |v],
    (item_user_file files) as [| |iu], (tfidf_matrix_file files) as [| |tm],
    (mappings_file files) as [| |mf];
    (split;
     [split;
      [intros E; try discriminate E;
       repeat (split; try discriminate; try (eexists; reflexivity))
      |intros ((k' & Ek) & Hv & (iu' & Eiu) & Ht & (mf' & Emf));
       first [discriminate | congruence | reflexivity]]
     |intros [E|E]; try discriminate E; intros; reflexivity]).
Qed.

End WithLibs.

(** X22 on the sample data: the twins have a content index only, and Z is
    unknown to the shop. *)
Lemma routes_refuse_witness :
  (exists l, @get_content_recommendations Examples.reference_libs
               Examples.twins "A" 1 = Ok l /\ l <> []) /\
  @content_route Examples.reference_libs Examples.twins "A" 1 = HTTPException 503 /\
  @hybrid_route Examples.reference_libs Examples.shop "Z" 3 0.6 = HTTPException 404.
Proof.
  destruct (@routes_refuse Examples.reference_libs Examples.twins "A" 1%nat 0.6)
    as [H503 _].
  destruct (@routes_refuse Examples.reference_libs Examples.shop "Z" 3%nat 0.6)
    as [_ H404].
  split; [|split].
  - destruct (@get_content_recommendations Examples.reference_libs
                Examples.twins "A" 1) as [l|e] eqn:E;
      [|vm_compute in E; discriminate].
    exists l. split; [reflexivity|]. vm_compute in E. inversion E. discriminate.
  - apply H503. reflexivity.
  - apply H404; [reflexivity|].
    intros maps Hm. unfold Examples.shop in Hm. cbn [mappings] in Hm.
    injection Hm as <-. split; vm_compute; reflexivity.
Defined.

(** X23 on the sample shop: two hybrid recommendations for A. *)
Lemma hybrid_route_answer_witness :
  exists p,
    @hybrid_route Examples.reference_libs Examples.shop "A" 2 0.6 = Responds p /\
    product_asin p = "A" /\
    (1 <= length (recommendations p) <= 2)%nat.
Proof.
  destruct (@hybrid_route Examples.reference_libs Examples.shop "A" 2 0.6)
    as [p|s|e|] eqn:E;
    [|vm_compute in E; discriminate|vm_compute in E; discriminate
     |vm_compute in E; discriminate].
  destruct (@hybrid_route_answer Examples.reference_libs Examples.shop "A"
              2%nat 0.6 p E) as (_ & Ha & _ & _ & Hlen & _).
  exists p. repeat split; [exact Ha | apply Hlen | apply Hlen].
Defined.

(** X27 on artefact files whose TF-IDF matrix cannot be read. *)
Lemma load_models_ready_witness :
  is_ready (_load_models MoreExamples.broken_files) = false /\
  knn_model (_load_models MoreExamples.broken_files) <> None /\
  @collaborative_route Examples.reference_libs
     (_load_models MoreExamples.broken_files) "A" 3 = HTTPException 503.
Proof.
  destruct (@load_models_ready Examples.reference_libs MoreExamples.broken_files)
    as [_ H503].
  split; [reflexivity|]. split; [discriminate|].
  apply H503. right. reflexivity.
Defined.

(** X24 on the sample catalog, with a response model that insists on a
    text title: K4 has a null title and is refused, the unknown K9 gets
    the placeholder. *)
Lemma product_route_never_404_witness :
  @product_route Examples.reference_libs MoreExamples.title_is_text
     MoreExamples.kitchen "K4" = Rejected /\
  @product_route Examples.reference_libs MoreExamples.title_is_text
     MoreExamples.kitchen "K9" = Responds (minimal_details "K9").
Proof.
  destruct (@product_route_never_404 Examples.reference_libs
              MoreExamples.title_is_text MoreExamples.kitchen "K4")
    as (_ & _ & _ & Hrej).
  destruct (@product_route_never_404 Examples.reference_libs
              MoreExamples.title_is_text MoreExamples.kitchen "K9")
    as (_ & Hunknown & _).
  split.
  - apply Hrej. eexists. split; [vm_compute; reflexivity | reflexivity].
  - apply Hunknown; [vm_compute; reflexivity | reflexivity].
Defined.

End RouteFacts.
